(** * nfs4go: a shallow embedding of the NFSv4 server core

    The development follows the Go packages of the repository:
    [Auth] (auth/authenticate.go), [Clock] (clock/clock.go), the
    file-id codec (fileid.go), the attribute bitmap codec, the [change]
    attribute (attrs.go), the buffer pool (bufpool/buf.go), the XDR
    encoder (xdr/encoder.go), the client registry (package clients), the
    worker file tables (package worker) and the COMPOUND runtime.

    Machine integers are integers of [Z] with the wrap-around written out;
    Go maps are [gmap]s, Go sets ([map[K]struct{}]) are [gset]s, slices are
    lists. *)

From Stdlib Require Import ZArith List Lia Bool.
From stdpp Require Import base gmap sets list strings.

Local Open Scope Z_scope.

(** ** Machine integers *)

Definition u32 (z : Z) : Z := z mod 2 ^ 32.
Definition u64 (z : Z) : Z := z mod 2 ^ 64.

Definition is_u32 (z : Z) : Prop := 0 <= z < 2 ^ 32.
Definition is_u64 (z : Z) : Prop := 0 <= z < 2 ^ 64.

Lemma u32_range z : is_u32 (u32 z).
Proof. unfold is_u32, u32. apply Z.mod_pos_bound. lia. Qed.

Lemma u64_range z : is_u64 (u64 z).
Proof. unfold is_u64, u64. apply Z.mod_pos_bound. lia. Qed.

Lemma u32_id z : is_u32 z -> u32 z = z.
Proof. unfold is_u32, u32. intros H. apply Z.mod_small. exact H. Qed.

Lemma u64_id z : is_u64 z -> u64 z = z.
Proof. unfold is_u64, u64. intros H. apply Z.mod_small. exact H. Qed.

Lemma u64_add_idemp a b : u64 (u64 a + b) = u64 (a + b).
Proof. unfold u64. apply Zplus_mod_idemp_l. Qed.

Lemma u64_mul_idemp a b : u64 (u64 a * b) = u64 (a * b).
Proof. unfold u64. apply Zmult_mod_idemp_l. Qed.

(** ** fileid.go *)

(** [[3]uint32]: the [other] field of a state-id. *)
Record Other3 := mkOther { other0 : Z; other1 : Z; other2 : Z }.

(** [FileOther(fileID uint64, clientSeqID uint32) [3]uint32]. *)
Definition FileOther (fileID clientSeqID : Z) : Other3 :=
  {| other0 := u32 (Z.shiftr fileID 32);
     other1 := u32 fileID;
     other2 := clientSeqID |}.

(** [FileID(fileOther [3]uint32) uint64]: the shift and the sum are
    64-bit operations. *)
Definition FileID (fileOther : Other3) : Z :=
  u64 (u64 (Z.shiftl (u64 (other0 fileOther)) 32) + u64 (other1 fileOther)).

(** ** clock/clock.go *)

Module Clock.

(** A [time.Time] is an instant, counted in nanoseconds. *)
Definition Time := Z.

Definition Second : Z := 1000000000.

(** The cached wall time held by the clock. *)
Record Clock := mkClock { now : Time }.

Definition Now (c : Clock) : Time := now c.

(** [t.Sub(u)]. *)
Definition Since (c : Clock) (t : Time) : Z := now c - t.

(** [now.Before(prev)] then [now.Add(time.Second)]. *)
Definition MustIncrement (c : Clock) (prev : Time) : Time :=
  let n := now c in
  if n <? prev then n + Second else n.

(** [set] is what the ticker calls every second. *)
Definition set (c : Clock) (t : Time) : Clock := {| now := t |}.

End Clock.

(** ** attrs.go: the [change] attribute *)

Module Attrs.

Definition MaxUint32 : Z := 4294967295.

(** The [A_change] case of [fileInfoToAttrs]:
    [uint64(fi.ModTime().Unix())*uint64(math.MaxUint32) + uint64(creds.UID) + sessionID].
    [unix] is the int64 second count of the modification time, [uid] the
    uint32 of the credentials, [sessionID] the worker's uint64 verifier. *)
Definition changeid (unix uid sessionID : Z) : Z :=
  u64 (u64 (u64 (u64 unix * u64 MaxUint32) + u64 uid) + sessionID).

End Attrs.

(** ** auth/authenticate.go *)

Module Auth.

(** [slices.Equal] on [[]uint32]. *)
Fixpoint slices_Equal (a b : list Z) : bool :=
  match a, b with
  | [], [] => true
  | x :: a', y :: b' => (x =? y) && slices_Equal a' b'
  | _, _ => false
  end.

(** [slices.Sort] on [[]uint32]: the ascending rearrangement of the
    slice (for integers it does not depend on the sorting algorithm). *)
Fixpoint insert_sorted (x : Z) (l : list Z) : list Z :=
  match l with
  | [] => [x]
  | y :: l' => if x <=? y then x :: l else y :: insert_sorted x l'
  end.

Fixpoint slices_Sort (l : list Z) : list Z :=
  match l with
  | [] => []
  | x :: l' => insert_sorted x (slices_Sort l')
  end.

(** [slices.Compact]: every run of equal consecutive elements is
    replaced by one copy. *)
Fixpoint slices_Compact (l : list Z) : list Z :=
  match l with
  | [] => []
  | x :: l' =>
      match l' with
      | [] => [x]
      | y :: _ => if x =? y then slices_Compact l' else x :: slices_Compact l'
      end
  end.

Record Creds := mkCreds {
  ExpirationValue : Z;
  Hostname : string;
  UID : Z;
  GID : Z;
  AdditionalGroups : list Z
}.

(** [func (c *Creds) Equal(other *Creds) bool]. *)
Definition Equal (c other : Creds) : bool :=
  if slices_Equal (AdditionalGroups c) (AdditionalGroups other) then
    UID c =? UID other
  else
    let d := Z.of_nat (length (AdditionalGroups c))
             - Z.of_nat (length (AdditionalGroups other)) in
    if (d >? 1) || (d <? -1) then false
    else
      let myGroups := GID c :: AdditionalGroups c in
      let otherGroups := GID other :: AdditionalGroups other in
      let myGroups := slices_Compact (slices_Sort myGroups) in
      let otherGroups := slices_Compact (slices_Sort otherGroups) in
      (UID c =? UID other) && slices_Equal myGroups otherGroups.

(** The group set of a credential tuple: its GID and its additional
    groups. *)
Definition groups (c : Creds) : list Z := GID c :: AdditionalGroups c.

Definition same_group_set (a b : Creds) : Prop :=
  forall g : Z, In g (groups a) <-> In g (groups b).

(** Ascending and strictly ascending lists: what [slices.Sort] and
    [slices.Compact] after it produce. *)
Inductive asc : list Z -> Prop :=
| a_nil : asc []
| a_one x : asc [x]
| a_cons x y l : x <= y -> asc (y :: l) -> asc (x :: y :: l).

Inductive strict_asc : list Z -> Prop :=
| sa_nil : strict_asc []
| sa_one x : strict_asc [x]
| sa_cons x y l : x < y -> strict_asc (y :: l) -> strict_asc (x :: y :: l).

(** Difference of the lengths of the additional-groups lists (the [d] of
    [Equal]). *)
Definition len_gap (a b : Creds) : Z :=
  Z.of_nat (length (AdditionalGroups a)) - Z.of_nat (length (AdditionalGroups b)).

End Auth.

(** ** The attribute bitmap codec ([bitmap4Encode], [bitmap4Decode]) *)

Module Bitmap.

(** [for v := range x { if v > maxInt { maxInt = v } }], from [maxInt := 0]. *)
Definition maxInt (x : gmap Z bool) : Z :=
  foldl (fun m kv => if fst kv >? m then fst kv else m) 0 (map_to_list x).

(** [size := maxInt / 32; if maxInt%32 > 0 { size += 1 }]. *)
Definition size (x : gmap Z bool) : Z :=
  let m := maxInt x in
  if Z.rem m 32 >? 0 then Z.quot m 32 + 1 else Z.quot m 32.

(** One iteration of the second loop of [bitmap4Encode]; [None] is a
    run-time panic (negative shift count, or index out of range). *)
Definition set_bit (rs : list Z) (v : Z) (on : bool) : option (list Z) :=
  if negb on then Some rs
  else
    let i := Z.quot v 32 in
    let j := Z.rem v 32 in
    if j <? 0 then None
    else
      let s := u32 (Z.shiftl 1 j) in
      if (i <? 0) || (Z.of_nat (length rs) <=? i) then None
      else Some (<[Z.to_nat i := Z.lor (default 0 (rs !! Z.to_nat i)) s]> rs).

Fixpoint set_bits (rs : list Z) (entries : list (Z * bool)) : option (list Z) :=
  match entries with
  | [] => Some rs
  | (v, on) :: rest =>
      match set_bit rs v on with
      | None => None
      | Some rs' => set_bits rs' rest
      end
  end.

(** [func bitmap4Encode(x map[int]bool) []uint32]; the map is ranged over in
    the order of [map_to_list]. *)
Definition bitmap4Encode (x : gmap Z bool) : option (list Z) :=
  set_bits (replicate (Z.to_nat (size x)) 0) (map_to_list x).

(** The inner loop of [bitmap4Decode]: [j] runs from 31 down to 0
    ([n] more iterations, starting at [j = n - 1]). *)
Fixpoint decode_word (i : Z) (v : Z) (n : nat) (x : gmap Z bool) : gmap Z bool :=
  match n with
  | O => x
  | S n' =>
      let j := Z.of_nat n' in
      let s := u32 (Z.shiftl 1 j) in
      decode_word i v n' (<[32 * i + j := Z.land s v =? s]> x)
  end.

Fixpoint decode_words (i : Z) (nums : list Z) (x : gmap Z bool) : gmap Z bool :=
  match nums with
  | [] => x
  | v :: rest => decode_words (i + 1) rest (decode_word i v 32 x)
  end.

(** [func bitmap4Decode(nums []uint32) map[int]bool]. *)
Definition bitmap4Decode (nums : list Z) : gmap Z bool :=
  decode_words 0 nums ∅.

(** The attribute ids a map marks as present. *)
Definition present (x : gmap Z bool) (k : Z) : Prop := x !! k = Some true.

(** Bit [k mod 32] of word [k / 32] of a bitmap. *)
Definition getbit (rs : list Z) (k : Z) : bool :=
  Z.testbit (default 0 (rs !! Z.to_nat (k / 32))) (k mod 32).

(** Some entry of the list marks [k] as present. *)
Definition marks (entries : list (Z * bool)) (k : Z) : bool :=
  existsb (fun kv => snd kv && (fst kv =? k)) entries.

End Bitmap.

(** ** bufpool/buf.go *)

Module Bufpool.

(** [type Buf struct { buf []byte; r, w int; pool *Pool }]; a byte is an
    integer in [0, 256). *)
Record Buf := mkBuf { buf : list Z; r : nat; w : nat }.

(** [copy(dst, src)]: [min(len dst, len src)] elements are copied. *)
Definition copy (dst src : list Z) : list Z * nat :=
  (take (length dst) src ++ drop (length src) dst,
   Nat.min (length dst) (length src)).

Definition Grow (b : Buf) (n : nat) : Buf :=
  if (n <=? length (buf b))%nat then b
  else {| buf := buf b ++ replicate (n - length (buf b)) 0; r := r b; w := w b |}.

(** [n := copy(b.buf[b.w:], p); b.w += n]. *)
Definition Write (b : Buf) (p : list Z) : Buf :=
  let b1 := if (length (buf b) <? w b + length p)%nat
            then Grow b (w b + length p) else b in
  let '(tail, n) := copy (drop (w b1) (buf b1)) p in
  {| buf := take (w b1) (buf b1) ++ tail; r := r b1; w := (w b1 + n)%nat |}.

(** [b.buf[b.r:b.w]]. *)
Definition Bytes (b : Buf) : list Z := drop (r b) (take (w b) (buf b)).

Definition Len (b : Buf) : nat := (w b - r b)%nat.

Definition SeekWrite (b : Buf) (n : nat) : nat * Buf :=
  (w b, {| buf := buf b; r := r b; w := n |}).

Definition Reset (b : Buf) : Buf := {| buf := buf b; r := 0; w := 0 |}.

(** [Allocate] grows the buffer; the slice it returns is
    [b.buf[b.w : b.w+n]]. *)
Definition Allocate (b : Buf) (n : nat) : Buf :=
  if (length (buf b) <? w b + n)%nat then Grow b (w b + n) else b.

Definition Commit (b : Buf) (n : nat) : Buf :=
  {| buf := buf b; r := r b; w := (w b + n)%nat |}.

(** [func (b *Buf) Copy(other Bytes)]: returns the target buffer. *)
Definition Copy (b : Buf) (other : Buf) : Buf :=
  let o1 := Allocate other (Len b) in
  let target := take (Len b) (drop (w o1) (buf o1)) in
  let '(filled, n) := copy target (Bytes b) in
  Commit {| buf := take (w o1) (buf o1) ++ filled ++ drop (w o1 + Len b) (buf o1);
            r := r o1; w := w o1 |} n.

(** [Pool.Get] on an empty pool: [New(make([]byte, 1024))]. *)
Definition fresh : Buf := {| buf := replicate 1024 0; r := 0; w := 0 |}.

(** A buffer as the pool hands it out: reset, with whatever bytes its last
    user left in it. *)
Definition from_pool (b : Buf) : Prop := r b = 0%nat /\ w b = 0%nat.

(** The write cursor lies inside the buffer, and nothing has been read. *)
Definition inside (b : Buf) : Prop := (w b <= length (buf b))%nat.

Definition unread (b : Buf) : Prop := r b = 0%nat.

End Bufpool.

(** ** xdr/encoder.go *)

Module Xdr.

(** Modelled from the spec: [Pad] is not among the sources; the spec says
    opaque data is followed by zero-padding to a multiple of 4. *)
Definition Pad (n : nat) : nat := ((4 - n mod 4) mod 4)%nat.

(** Big-endian bytes of a 32-bit and of a 64-bit word. *)
Definition be32 (v : Z) : list Z :=
  [Z.shiftr v 24 mod 256; Z.shiftr v 16 mod 256; Z.shiftr v 8 mod 256; v mod 256].

Definition be64 (v : Z) : list Z :=
  be32 (Z.shiftr v 32 mod 2 ^ 32) ++ be32 (v mod 2 ^ 32).

(** The values handed to [Encode(obj interface{})]. *)
Inductive value :=
| VInt (v : Z)
| VUint32 (v : Z)
| VUint64 (v : Z)
| VString (s : list Z)
| VBool (b : bool)
| VBytes (v : list Z)
| VByteArray (v : list Z)
| VUint32s (v : list Z).

Definition Uint32 (v : Z) (b : Bufpool.Buf) : Bufpool.Buf :=
  Bufpool.Write b (be32 v).

Definition Uint64 (v : Z) (b : Bufpool.Buf) : Bufpool.Buf :=
  Bufpool.Write b (be64 v).

Definition Bool (v : bool) (b : Bufpool.Buf) : Bufpool.Buf :=
  Uint32 (if v then 1 else 0) b.

Definition EncBytes (v : list Z) (b : Bufpool.Buf) : Bufpool.Buf :=
  let b := Uint32 (u32 (Z.of_nat (length v))) b in
  let b := Bufpool.Write b v in
  if (0 <? Pad (length v))%nat then Bufpool.Write b (replicate (Pad (length v)) 0) else b.

Definition ByteArray (v : list Z) (b : Bufpool.Buf) : Bufpool.Buf :=
  let b := Bufpool.Write b v in
  if (0 <? Pad (length v))%nat then Bufpool.Write b (replicate (Pad (length v)) 0) else b.

Definition Uint32s (v : list Z) (b : Bufpool.Buf) : Bufpool.Buf :=
  foldl (fun b x => Uint32 x b) (Uint32 (u32 (Z.of_nat (length v))) b) v.

(** [Encode].  A struct is encoded field by field, so a struct argument is
    given as the sequence of its fields. *)
Definition Encode (obj : value) (b : Bufpool.Buf) : Bufpool.Buf :=
  match obj with
  | VInt v => Uint32 (u32 v) b
  | VUint32 v => Uint32 v b
  | VUint64 v => Uint64 v b
  | VString s => EncBytes s b
  | VBool v => Bool v b
  | VBytes v => EncBytes v b
  | VByteArray v => ByteArray v b
  | VUint32s v => Uint32s v b
  end.

Definition EncodeAll (src : list value) (b : Bufpool.Buf) : Bufpool.Buf :=
  foldl (fun b v => Encode v b) b src.

(** The bytes an encoding puts on the wire. *)
Definition wire_bytes (v : list Z) : list Z :=
  be32 (u32 (Z.of_nat (length v))) ++ v ++ replicate (Pad (length v)) 0.

Definition wire (obj : value) : list Z :=
  match obj with
  | VInt v => be32 (u32 v)
  | VUint32 v => be32 v
  | VUint64 v => be64 v
  | VString s => wire_bytes s
  | VBool v => be32 (if v then 1 else 0)
  | VBytes v => wire_bytes v
  | VByteArray v => v ++ replicate (Pad (length v)) 0
  | VUint32s v => be32 (u32 (Z.of_nat (length v))) ++ concat (map be32 v)
  end.

Definition wire_all (src : list value) : list Z := concat (map wire src).

(** [Decoder.Uint32]: four bytes, big-endian; [None] when fewer are left
    (no value is produced). *)
Definition DecUint32 (inb : list Z) : option (Z * list Z) :=
  match inb with
  | b0 :: b1 :: b2 :: b3 :: rest =>
      Some (Z.shiftl b0 24 + Z.shiftl b1 16 + Z.shiftl b2 8 + b3, rest)
  | _ => None
  end.

(** [Decoder.ByteArray] for a [[16]byte]. *)
Definition DecByteArray16 (inb : list Z) : option (list Z * list Z) :=
  if (length inb <? 16)%nat then None else Some (take 16 inb, drop 16 inb).

End Xdr.

(** ** msg: status and operation codes *)

Module Msg.

Definition NFS4_OK : Z := 0.
Definition NFS4ERR_PERM : Z := 1.
Definition NFS4ERR_NOENT : Z := 2.
Definition NFS4ERR_IO : Z := 5.
Definition NFS4ERR_EXIST : Z := 17.
Definition NFS4ERR_NOTDIR : Z := 20.
Definition NFS4ERR_ISDIR : Z := 21.
Definition NFS4ERR_INVAL : Z := 22.
Definition NFS4ERR_STALE : Z := 70.
Definition NFS4ERR_BADHANDLE : Z := 10001.
Definition NFS4ERR_NOTSUPP : Z := 10004.
Definition NFS4ERR_SERVERFAULT : Z := 10006.
Definition NFS4ERR_FHEXPIRED : Z := 10014.
Definition NFS4ERR_CLID_INUSE : Z := 10017.
Definition NFS4ERR_NOFILEHANDLE : Z := 10020.
Definition NFS4ERR_STALE_CLIENTID : Z := 10022.
Definition NFS4ERR_BAD_SEQID : Z := 10026.
Definition NFS4ERR_OP_ILLEGAL : Z := 10044.
Definition NFS4ERR_SEQ_MISORDERED : Z := 10063.
Definition NFS4ERR_RETRY_UNCACHED_REP : Z := 10068.
Definition NFS4ERR_OP_NOT_IN_SESSION : Z := 10071.
Definition NFS4ERR_DEADSESSION : Z := 10078.
Definition NFS4ERR_NOT_ONLY_OP : Z := 10081.

Definition ACCEPT_SUCCESS : Z := 0.
Definition AUTH_FLAVOR_UNIX : Z := 1.

Definition OP4_ACCESS : Z := 3.
Definition OP4_CLOSE : Z := 4.
Definition OP4_COMMIT : Z := 5.
Definition OP4_CREATE : Z := 6.
Definition OP4_DELEGPURGE : Z := 7.
Definition OP4_DELEGRETURN : Z := 8.
Definition OP4_GETATTR : Z := 9.
Definition OP4_GETFH : Z := 10.
Definition OP4_LINK : Z := 11.
Definition OP4_LOCK : Z := 12.
Definition OP4_LOCKT : Z := 13.
Definition OP4_LOCKU : Z := 14.
Definition OP4_LOOKUP : Z := 15.
Definition OP4_LOOKUPP : Z := 16.
Definition OP4_NVERIFY : Z := 17.
Definition OP4_OPEN : Z := 18.
Definition OP4_OPENATTR : Z := 19.
Definition OP4_OPEN_DOWNGRADE : Z := 21.
Definition OP4_PUTFH : Z := 22.
Definition OP4_PUTPUBFH : Z := 23.
Definition OP4_PUTROOTFH : Z := 24.
Definition OP4_READ : Z := 25.
Definition OP4_READDIR : Z := 26.
Definition OP4_READLINK : Z := 27.
Definition OP4_REMOVE : Z := 28.
Definition OP4_RENAME : Z := 29.
Definition OP4_RENEW : Z := 30.
Definition OP4_RESTOREFH : Z := 31.
Definition OP4_SAVEFH : Z := 32.
Definition OP4_SECINFO : Z := 33.
Definition OP4_SETATTR : Z := 34.
Definition OP4_SETCLIENTID : Z := 35.
Definition OP4_SETCLIENTID_CONFIRM : Z := 36.
Definition OP4_VERIFY : Z := 37.
Definition OP4_WRITE : Z := 38.
Definition OP4_BACKCHANNEL_CTL : Z := 40.
Definition OP4_BIND_CONN_TO_SESSION : Z := 41.
Definition OP4_EXCHANGE_ID : Z := 42.
Definition OP4_CREATE_SESSION : Z := 43.
Definition OP4_DESTROY_SESSION : Z := 44.
Definition OP4_FREE_STATEID : Z := 45.
Definition OP4_GET_DIR_DELEGATION : Z := 46.
Definition OP4_GETDEVICEINFO : Z := 47.
Definition OP4_LAYOUTCOMMIT : Z := 49.
Definition OP4_LAYOUTGET : Z := 50.
Definition OP4_LAYOUTRETURN : Z := 51.
Definition OP4_SECINFO_NO_NAME : Z := 52.
Definition OP4_SEQUENCE : Z := 53.
Definition OP4_SET_SSV : Z := 54.
Definition OP4_TEST_STATEID : Z := 55.
Definition OP4_WANT_DELEGATION : Z := 56.
Definition OP4_DESTROY_CLIENTID : Z := 57.
Definition OP4_RECLAIM_COMPLETE : Z := 58.
Definition OP4_ALLOCATE : Z := 59.
Definition OP4_COPY : Z := 60.
Definition OP4_COPY_NOTIFY : Z := 61.
Definition OP4_DEALLOCATE : Z := 62.
Definition OP4_IO_ADVISE : Z := 63.
Definition OP4_LAYOUTERROR : Z := 64.
Definition OP4_LAYOUTSTATS : Z := 65.
Definition OP4_OFFLOAD_CANCEL : Z := 66.
Definition OP4_OFFLOAD_STATUS : Z := 67.
Definition OP4_READ_PLUS : Z := 68.
Definition OP4_SEEK : Z := 69.
Definition OP4_WRITE_SAME : Z := 70.
Definition OP4_CLONE : Z := 71.
Definition OP4_GETXATTR : Z := 72.
Definition OP4_SETXATTR : Z := 73.
Definition OP4_LISTXATTRS : Z := 74.
Definition OP4_REMOVEXATTR : Z := 75.
Definition OP4_ILLEGAL : Z := 10044.

(** The Go errors that [Err2Status] tells apart. *)
Inductive error :=
| ErrNotExist | ErrExist | ErrPermission | ErrInvalid
| EBADFD | EISDIR | ENOTDIR | ENOTSUP | EOPNOTSUPP | EOF
| NfsError (code : Z)
| ErrUnknown.

(** [func Err2Status(err error) uint32]; [None] is the nil error. *)
Definition Err2Status (err : option error) : Z :=
  match err with
  | None => NFS4_OK
  | Some ErrNotExist => NFS4ERR_NOENT
  | Some ErrExist => NFS4ERR_EXIST
  | Some ErrPermission => NFS4ERR_PERM
  | Some ErrInvalid => NFS4ERR_INVAL
  | Some EBADFD => NFS4ERR_BADHANDLE
  | Some EISDIR => NFS4ERR_ISDIR
  | Some ENOTDIR => NFS4ERR_NOTDIR
  | Some ENOTSUP | Some EOPNOTSUPP => NFS4ERR_NOTSUPP
  | Some EOF => NFS4ERR_IO
  | Some (NfsError code) => code
  | Some ErrUnknown => NFS4ERR_SERVERFAULT
  end.

(** [type StateId4 struct { SeqId uint32; Other [3]uint32 }]. *)
Record StateId4 := mkStateId4 { SeqId : Z; Other : Other3 }.

(** [type CLOSE4args struct { SeqId uint32; OpenStateId StateId4 }]. *)
Record CLOSE4args := mkCLOSE4args { CloseSeqId : Z; OpenStateId : StateId4 }.

(** [type SEQUENCE4args]. *)
Record SEQUENCE4args := mkSEQUENCE4args {
  SessionID : list Z;
  SequenceID : Z;
  SlotID : Z;
  SlotIDHighest : Z;
  CacheThis : bool
}.

(** [type Auth struct { Flavor uint32; Body []byte }]. *)
Record Auth := mkAuth { Flavor : Z; Body : list Z }.

End Msg.

(** The result of a Go function returning [(T, error)] with an
    [msg.Error] status. *)
Inductive result (A : Type) :=
| Ok (a : A)
| Err (status : Z).
Arguments Ok {A} a.
Arguments Err {A} status.

(** ** package clients *)

Module Clients.

(** [type Slot struct]; [Buf] is [None] for a nil buffer. *)
Record Slot := mkSlot {
  SlotID : Z;
  SequenceID : Z;
  ContainsData : bool;
  Buf : option Bufpool.Buf
}.

(** [type Session []*Slot]. *)
Abbreviation Session := (list Slot).

(** [type Client struct]; a nil [sessions] map behaves as the empty map
    in every read of it. *)
Record Client := mkClient {
  Name : list Z;
  Verifier : Z;
  Creds : Auth.Creds;
  clientID : Z;
  lastSeen : Clock.Time;
  confirmed : bool;
  confirmValue : Z;
  seqID : Z;
  busy : Z;
  sessions : gmap Z Session
}.

Definition MaxSlotID : Z := 15.

Definition set_lastSeen (c : Client) (t : Clock.Time) : Client :=
  mkClient (Name c) (Verifier c) (Creds c) (clientID c) t (confirmed c)
           (confirmValue c) (seqID c) (busy c) (sessions c).

Definition set_seqID (c : Client) (s : Z) : Client :=
  mkClient (Name c) (Verifier c) (Creds c) (clientID c) (lastSeen c) (confirmed c)
           (confirmValue c) s (busy c) (sessions c).

Definition set_confirmed (c : Client) (b : bool) : Client :=
  mkClient (Name c) (Verifier c) (Creds c) (clientID c) (lastSeen c) b
           (confirmValue c) (seqID c) (busy c) (sessions c).

Definition set_busy (c : Client) (n : Z) : Client :=
  mkClient (Name c) (Verifier c) (Creds c) (clientID c) (lastSeen c) (confirmed c)
           (confirmValue c) (seqID c) n (sessions c).

Definition set_sessions (c : Client) (m : gmap Z Session) : Client :=
  mkClient (Name c) (Verifier c) (Creds c) (clientID c) (lastSeen c) (confirmed c)
           (confirmValue c) (seqID c) (busy c) m.

(** [func (c *Client) Done()]. *)
Definition Done (c : Client) : Client := set_busy c (busy c - 1).

(** [binary.BigEndian.Uint64]. *)
Definition BigEndianUint64 (bs : list Z) : Z :=
  foldl (fun acc b => acc * 256 + b) 0 (take 8 bs).

Definition ClientIDFromSessionID (sessionID : list Z) : Z :=
  BigEndianUint64 (take 8 sessionID).

Definition CacheIDFromSessionID (sessionID : list Z) : Z :=
  BigEndianUint64 (drop 8 sessionID).

(** [func (c *Client) GetSlot(sessionID [16]byte, slotID uint32) *Slot]. *)
Definition GetSlot (c : Client) (sessionID : list Z) (slotID : Z) : option Slot :=
  let cacheID := CacheIDFromSessionID sessionID in
  match sessions c !! cacheID with
  | None => None
  | Some session =>
      if Z.of_nat (length session) <=? slotID then None
      else session !! Z.to_nat slotID
  end.

(** The slots of a new session ([BuildSession], for the cache-id it
    drew): ids 0 to [MaxSlotID], sequence id 0, no data, a pooled buffer
    each when [persist]. *)
Definition new_session (persist : bool) : Session :=
  map (fun i => mkSlot (Z.of_nat i) 0 false
                       (if persist then Some Bufpool.fresh else None))
      (seq 0 (Z.to_nat (MaxSlotID + 1))).

(** [func (c *Client) BuildSession(persist bool) [16]byte], with the
    random cache-id [cacheID] it settled on (one not yet in use). *)
Definition BuildSession (c : Client) (cacheID : Z) (persist : bool) : Client :=
  set_sessions c (<[cacheID := new_session persist]> (sessions c)).

(** [Clients.Confirm41(clientID uint64, seqID uint32, creds)], which
    returns a client pointer and an error; [now] is the reading of
    [clock.Now()]. *)
Definition Confirm41 (x : gmap Z Client) (now : Clock.Time)
    (clientID seqID : Z) (creds : Auth.Creds) : gmap Z Client * result Client :=
  match x !! clientID with
  | None => (x, Err Msg.NFS4ERR_STALE_CLIENTID)
  | Some client =>
      if confirmed client then
        if (seqID =? 0) && negb (Clients.seqID client =? 0) then
          let client := set_seqID (set_lastSeen client now) 0 in
          (<[clientID := client]> x, Ok client)
        else if seqID <? Clients.seqID client then
          (x, Err Msg.NFS4ERR_SEQ_MISORDERED)
        else if Clients.seqID client =? seqID then
          (x, Ok client)
        else
          let client := set_seqID (set_lastSeen client now) seqID in
          (<[clientID := client]> x, Ok client)
      else
        if negb (Clients.seqID client =? seqID) then
          (x, Err Msg.NFS4ERR_STALE_CLIENTID)
        else if negb (Auth.Equal (Creds client) creds) then
          (x, Err Msg.NFS4ERR_CLID_INUSE)
        else
          let client := set_lastSeen (set_confirmed client true) now in
          (<[clientID := client]> x, Ok client)
  end.

(** [Clients.Get(clientID uint64)], which returns a client pointer and a flag. *)
Definition Get (x : gmap Z Client) (now : Clock.Time) (clientID : Z)
    : gmap Z Client * option Client :=
  match x !! clientID with
  | None => (x, None)
  | Some c =>
      if negb (confirmed c) then (x, None)
      else
        let c := set_lastSeen c now in
        (<[clientID := c]> x, Some c)
  end.

(** A store through a [*Slot] obtained from [GetSlot]: the slot of the
    registry at that client, cache-id and slot-id is replaced. *)
Definition store_slot (x : gmap Z Client) (clientID cacheID slotID : Z)
    (s : Slot) : gmap Z Client :=
  match x !! clientID with
  | None => x
  | Some c =>
      match sessions c !! cacheID with
      | None => x
      | Some session =>
          <[clientID := set_sessions c
               (<[cacheID := <[Z.to_nat slotID := s]> session]> (sessions c))]> x
      end
  end.

(** A client record used in the examples below. *)
Definition sample_creds : Auth.Creds := Auth.mkCreds 0 "host" 1000 100 [4; 24].

Definition sample_client (conf : bool) (seq : Z) : Client :=
  mkClient [99] 1 sample_creds 7 0 conf 5 seq 0 ∅.

End Clients.

(** ** package worker *)

Module Worker.

(** [type File struct]; [Client] is the id of the client record the
    pointer refers to, [CloseResult] what [File.Close()] of the underlying
    file answers ([None]: no error). *)
Record File := mkFile {
  CloseResult : option Msg.error;
  Handle : list Z;
  Client : Z;
  ClientSeqID : Z
}.

(** An entry of the attribute cache: insertion time and path (the file
    info itself plays no role here). *)
Record savedEntry := mkSavedEntry { time : Clock.Time; Path : string }.

(** [type Worker struct]: the attribute cache (keyed by the handle
    bytes), the credentials, the session verifier, the open-file table,
    the closed-file set, the use count and the discarded flag. *)
Record Worker := mkWorker {
  Cache : gmap (list Z) savedEntry;
  Creds : Auth.Creds;
  SessionID : Z;
  Files : gmap Z File;
  ClosedFiles : gset Z;
  inUse : Z;
  discarded : bool
}.

(** [func New(ctx, creds, newfs, afterCleanup) *Worker], with the random
    verifier it drew. *)
Definition New (creds : Auth.Creds) (verifier : Z) : Worker :=
  mkWorker ∅ creds verifier ∅ ∅ 1 false.

(** [func (c *Cache) Invalidate(handle []byte)]. *)
Definition Invalidate (c : gmap (list Z) savedEntry) (handle : list Z)
    : gmap (list Z) savedEntry :=
  delete handle c.

(** [func (w *Worker) GetFile(index uint64)]. *)
Definition GetFile (w : Worker) (index : Z) : option File := Files w !! index.

(** [Worker.RemoveFile(index uint64)]: the client registry is threaded
    through because of [f.Client.Done()]. *)
Definition RemoveFile (w : Worker) (cl : gmap Z Clients.Client) (index : Z)
    : Worker * gmap Z Clients.Client * option File :=
  match Files w !! index with
  | None => (w, cl, None)
  | Some f =>
      (mkWorker (Cache w) (Creds w) (SessionID w) (delete index (Files w))
                ({[index]} ∪ ClosedFiles w) (inUse w) (discarded w),
       alter Clients.Done (Client f) cl,
       Some f)
  end.

(** [func (w *Worker) IsRemovedFile(index uint64) bool]. *)
Definition IsRemovedFile (w : Worker) (index : Z) : bool :=
  bool_decide (index ∈ ClosedFiles w).

(** [func (w *Worker) Use() error]; [lastUse] is not modelled. *)
Definition Use (w : Worker) : option Worker :=
  if discarded w then None
  else Some (mkWorker (Cache w) (Creds w) (SessionID w) (Files w) (ClosedFiles w)
                      (inUse w + 1) (discarded w)).

(** [func (w *Worker) Close() error]: the release of the worker; the
    clean-up it may start runs as a separate goroutine. *)
Definition Close (w : Worker) : Worker :=
  mkWorker (Cache w) (Creds w) (SessionID w) (Files w) (ClosedFiles w)
           (inUse w - 1) (discarded w).

Definition set_Cache (w : Worker) (c : gmap (list Z) savedEntry) : Worker :=
  mkWorker c (Creds w) (SessionID w) (Files w) (ClosedFiles w) (inUse w) (discarded w).

(** [Server.GetWorker] for a key under which the worker [w] is stored:
    [w] itself, marked in use, unless the credentials changed or [w] was
    discarded; then a new worker (with the verifier [verifier]) takes its
    place. *)
Definition GetWorker (w : Worker) (creds : Auth.Creds) (verifier : Z) : Worker :=
  if negb (Auth.Equal (Creds w) creds) then New creds verifier
  else
    match Use w with
    | Some w' => w'
    | None => New creds verifier
    end.

End Worker.

(** ** The COMPOUND runtime *)

Module Compound.

(** [type FileHandle struct { Handle []byte; Path string }]. *)
Record FileHandle := mkFileHandle { Handle : list Z; Path : string }.

(** [type Compound struct]; [Slot] points into the registry: client id,
    cache id and slot id. *)
Record Compound := mkCompound {
  AuthResp : Msg.Auth;
  MinorVer : Z;
  Tag : list Z;
  OpsCount : Z;
  Creds : Auth.Creds;
  CurrentHandle : option FileHandle;
  SavedHandle : option FileHandle;
  SessionID : list Z;
  Slot : option (Z * Z * Z)
}.

(** What an operation hands to [OperationResponse]: the op code, the
    status and the response data. *)
Record OpResult := mkOpResult {
  res_op : Z;
  res_status : Z;
  res_data : list Xdr.value
}.

(** [func OperationResponse(out Bytes, op, status uint32, data ...interface{})]. *)
Definition OperationResponse (out : Bufpool.Buf) (res : OpResult) : Bufpool.Buf :=
  Xdr.EncodeAll (res_data res)
    (Xdr.EncodeAll [Xdr.VUint32 (res_op res); Xdr.VUint32 (res_status res)] out).

Definition StateId4_value (s : Msg.StateId4) : list Xdr.value :=
  [Xdr.VUint32 (Msg.SeqId s);
   Xdr.VUint32 (other0 (Msg.Other s));
   Xdr.VUint32 (other1 (Msg.Other s));
   Xdr.VUint32 (other2 (Msg.Other s))].

(** [func (x *Compound) Close(in, out Bytes)], from the decoded
    arguments on.  [w] is the worker stored for the session and uid of the
    request, [verifier] the random verifier a replacement worker would
    get; [x.FS] is [Worker.GetWorker], and the deferred [fs.Close()]
    releases the worker on every path after the acquisition. *)
Definition Close (x : Compound) (w : Worker.Worker) (verifier : Z)
    (cl : gmap Z Clients.Client) (args : Msg.CLOSE4args)
    : OpResult * Worker.Worker * gmap Z Clients.Client :=
  let sid := Msg.OpenStateId args in
  if Msg.SeqId sid >? 1 then
    (mkOpResult Msg.OP4_CLOSE Msg.NFS4ERR_BAD_SEQID [], w, cl)
  else
    match CurrentHandle x with
    | None => (mkOpResult Msg.OP4_CLOSE Msg.NFS4ERR_NOFILEHANDLE [], w, cl)
    | Some _ =>
        let fs := Worker.GetWorker w (Creds x) verifier in
        let closed := mkOpResult Msg.OP4_CLOSE Msg.NFS4_OK
                        (StateId4_value (Msg.mkStateId4 2 (Msg.Other sid))) in
        if Worker.IsRemovedFile fs (FileID (Msg.Other sid)) then
          (closed, Worker.Close fs, cl)
        else
          match Worker.RemoveFile fs cl (FileID (Msg.Other sid)) with
          | (fs1, cl1, None) =>
              (mkOpResult Msg.OP4_CLOSE Msg.NFS4ERR_BAD_SEQID [], Worker.Close fs1, cl1)
          | (fs1, cl1, Some f) =>
              let fs2 := Worker.set_Cache fs1
                           (Worker.Invalidate (Worker.Cache fs1) (Worker.Handle f)) in
              match Worker.CloseResult f with
              | Some err =>
                  (mkOpResult Msg.OP4_CLOSE (Msg.Err2Status (Some err)) [],
                   Worker.Close fs2, cl1)
              | None => (closed, Worker.Close fs2, cl1)
              end
          end
    end.

(** [slices.Contains]. *)
Definition Contains (l : list Z) (v : Z) : bool := existsb (Z.eqb v) l.

Definition AllowedFirstOps41 : list Z :=
  [Msg.OP4_CREATE_SESSION; Msg.OP4_DESTROY_SESSION; Msg.OP4_SEQUENCE;
   Msg.OP4_BIND_CONN_TO_SESSION; Msg.OP4_EXCHANGE_ID].

Definition FatalStatuses : list Z :=
  [Msg.NFS4ERR_OP_ILLEGAL; Msg.NFS4ERR_OP_NOT_IN_SESSION; Msg.NFS4ERR_SERVERFAULT;
   Msg.NFS4ERR_NOTSUPP; Msg.NFS4ERR_FHEXPIRED; Msg.NFS4ERR_STALE].

Definition NotImplementedRequiredOps : list Z :=
  [Msg.OP4_BACKCHANNEL_CTL; Msg.OP4_BIND_CONN_TO_SESSION; Msg.OP4_FREE_STATEID;
   Msg.OP4_ILLEGAL; Msg.OP4_LOCK; Msg.OP4_LOCKT; Msg.OP4_LOCKU; Msg.OP4_SET_SSV;
   Msg.OP4_TEST_STATEID].

Definition NotImplementedOptionalOps : list Z :=
  [Msg.OP4_ALLOCATE; Msg.OP4_CLONE; Msg.OP4_COPY; Msg.OP4_COPY_NOTIFY;
   Msg.OP4_DEALLOCATE; Msg.OP4_DELEGPURGE; Msg.OP4_DELEGRETURN;
   Msg.OP4_GETDEVICEINFO; Msg.OP4_GET_DIR_DELEGATION; Msg.OP4_IO_ADVISE;
   Msg.OP4_LAYOUTCOMMIT; Msg.OP4_LAYOUTERROR; Msg.OP4_LAYOUTGET;
   Msg.OP4_LAYOUTRETURN; Msg.OP4_LAYOUTSTATS; Msg.OP4_OFFLOAD_CANCEL;
   Msg.OP4_OFFLOAD_STATUS; Msg.OP4_OPENATTR; Msg.OP4_READ_PLUS; Msg.OP4_SEEK;
   Msg.OP4_WANT_DELEGATION; Msg.OP4_WRITE_SAME].

(** The operations [doOperation] has a case for. *)
Definition ImplementedOps : list Z :=
  [Msg.OP4_SETCLIENTID; Msg.OP4_SETCLIENTID_CONFIRM; Msg.OP4_EXCHANGE_ID;
   Msg.OP4_CREATE_SESSION; Msg.OP4_RECLAIM_COMPLETE; Msg.OP4_DESTROY_SESSION;
   Msg.OP4_DESTROY_CLIENTID; Msg.OP4_PUTROOTFH; Msg.OP4_PUTPUBFH; Msg.OP4_PUTFH;
   Msg.OP4_GETFH; Msg.OP4_SAVEFH; Msg.OP4_RESTOREFH; Msg.OP4_GETATTR;
   Msg.OP4_LOOKUP; Msg.OP4_LOOKUPP; Msg.OP4_ACCESS; Msg.OP4_READDIR;
   Msg.OP4_RENEW; Msg.OP4_SECINFO; Msg.OP4_SECINFO_NO_NAME; Msg.OP4_CREATE;
   Msg.OP4_RENAME; Msg.OP4_REMOVE; Msg.OP4_LINK; Msg.OP4_READLINK;
   Msg.OP4_SETATTR; Msg.OP4_OPEN; Msg.OP4_OPEN_DOWNGRADE; Msg.OP4_CLOSE;
   Msg.OP4_READ; Msg.OP4_WRITE; Msg.OP4_COMMIT; Msg.OP4_VERIFY; Msg.OP4_NVERIFY;
   Msg.OP4_GETXATTR; Msg.OP4_SETXATTR; Msg.OP4_LISTXATTRS; Msg.OP4_REMOVEXATTR].

Definition fatal (status : Z) : bool := Contains FatalStatuses status.

(** [func (x *Compound) WriteHeader(out Bytes, opsCount int, lastStatus uint32)]. *)
Definition header_values (x : Compound) (opsCount lastStatus : Z) : list Xdr.value :=
  [Xdr.VUint32 (Msg.Flavor (AuthResp x)); Xdr.VBytes (Msg.Body (AuthResp x));
   Xdr.VUint32 Msg.ACCEPT_SUCCESS;
   Xdr.VUint32 lastStatus;
   Xdr.VString (Tag x);
   Xdr.VInt opsCount].

Definition WriteHeader (x : Compound) (out : Bufpool.Buf) (opsCount lastStatus : Z)
    : Bufpool.Buf :=
  Xdr.EncodeAll (header_values x opsCount lastStatus) out.

(** [func (x *Compound) WriteHeaderAndSingleOperation(out Bytes, op, status uint32)]. *)
Definition WriteHeaderAndSingleOperation (x : Compound) (out : Bufpool.Buf)
    (op status : Z) : Bufpool.Buf :=
  Xdr.EncodeAll [Xdr.VUint32 op; Xdr.VUint32 status] (WriteHeader x out 1 status).

(** [func (x *Compound) RewriteHeaderIfNeeded(out Bytes, opsCount int, lastStatus uint32)]. *)
Definition RewriteHeaderIfNeeded (x : Compound) (out : Bufpool.Buf)
    (opsCount lastStatus : Z) : Bufpool.Buf :=
  if (lastStatus =? Msg.NFS4_OK) && (opsCount =? OpsCount x) then out
  else
    let '(offset, out) := Bufpool.SeekWrite out 0 in
    let out := WriteHeader x out opsCount lastStatus in
    snd (Bufpool.SeekWrite out offset).

(** The bytes of a reply: header, then the results of the operations. *)
Definition wire_header (x : Compound) (opsCount lastStatus : Z) : list Z :=
  Xdr.wire_all (header_values x opsCount lastStatus).

Definition wire_result (res : OpResult) : list Z :=
  Xdr.wire_all [Xdr.VUint32 (res_op res); Xdr.VUint32 (res_status res)]
  ++ Xdr.wire_all (res_data res).

(** Decoding of [msg.SEQUENCE4args]. *)
Definition DecSEQUENCE4args (inb : list Z) : option (Msg.SEQUENCE4args * list Z) :=
  match Xdr.DecByteArray16 inb with
  | None => None
  | Some (sid, inb) =>
      match Xdr.DecUint32 inb with
      | None => None
      | Some (seqid, inb) =>
          match Xdr.DecUint32 inb with
          | None => None
          | Some (slotid, inb) =>
              match Xdr.DecUint32 inb with
              | None => None
              | Some (highest, inb) =>
                  match Xdr.DecUint32 inb with
                  | None => None
                  | Some (cache, inb) =>
                      Some (Msg.mkSEQUENCE4args sid seqid slotid highest
                              (negb (cache =? 0)), inb)
                  end
              end
          end
      end
  end.

(** The fields of [msg.SEQUENCE4resok] as [RunSequence] fills them. *)
Definition SEQUENCE4resok (args : Msg.SEQUENCE4args) : list Xdr.value :=
  [Xdr.VByteArray (Msg.SessionID args); Xdr.VUint32 (Msg.SequenceID args);
   Xdr.VUint32 (Msg.SlotID args); Xdr.VUint32 Clients.MaxSlotID;
   Xdr.VUint32 Clients.MaxSlotID; Xdr.VUint32 0].

Definition set_session (x : Compound) (sessionID : list Z) (slot : Z * Z * Z)
    : Compound :=
  mkCompound (AuthResp x) (MinorVer x) (Tag x) (OpsCount x) (Creds x)
             (CurrentHandle x) (SavedHandle x) sessionID (Some slot).

Definition set_handles (x : Compound) (cur saved : option FileHandle) : Compound :=
  mkCompound (AuthResp x) (MinorVer x) (Tag x) (OpsCount x) (Creds x)
             cur saved (SessionID x) (Slot x).

Section Runtime.

(** The state behind the filesystem collaborator and the workers. *)
Variable World : Type.

(** What the operations of a COMPOUND read and change: the request, the
    client registry, the world, and the unread arguments. *)
Record State := mkState {
  st_x : Compound;
  st_clients : gmap Z Clients.Client;
  st_world : World;
  st_in : list Z
}.

(** What one operation handler does: [None] is a Go error (the request
    is aborted without a reply); otherwise the result it passes to
    [OperationResponse], the filehandles it leaves, the registry, the
    world and the arguments left unread.  Every handler in the source
    ends in [return OperationResponse(out, op, status, data...)] or in
    [return 0, err]. *)
Record HandlerOut := mkHandlerOut {
  h_res : OpResult;
  h_current : option FileHandle;
  h_saved : option FileHandle;
  h_clients : gmap Z Clients.Client;
  h_world : World;
  h_in : list Z
}.

Variable handler : Z -> State -> option HandlerOut.

(** The reading of [clock.Now()] during the request. *)
Variable now : Clock.Time.

Definition set_in (s : State) (inb : list Z) : State :=
  mkState (st_x s) (st_clients s) (st_world s) inb.

Definition set_clients (s : State) (cl : gmap Z Clients.Client) : State :=
  mkState (st_x s) cl (st_world s) (st_in s).

(** The switch of [doOperation]: the result of the operation and the
    state it leaves. *)
Definition op_outcome (op : Z) (s : State) : option (OpResult * State) :=
  if Contains ImplementedOps op then
    match handler op s with
    | None => None
    | Some h =>
        Some (h_res h,
              mkState (set_handles (st_x s) (h_current h) (h_saved h))
                      (h_clients h) (h_world h) (h_in h))
    end
  else if Contains NotImplementedOptionalOps op then
    Some (mkOpResult op Msg.NFS4ERR_NOTSUPP [], s)
  else if Contains NotImplementedRequiredOps op then
    Some (mkOpResult op Msg.NFS4ERR_SERVERFAULT [], s)
  else
    Some (mkOpResult op Msg.NFS4ERR_OP_ILLEGAL [], s).

(** [func (x *Compound) doOperation(in, out Bytes, op uint32) (uint32, error)]. *)
Definition doOperation (op : Z) (s : State) (out : Bufpool.Buf)
    : option (Z * State * Bufpool.Buf) :=
  match op_outcome op s with
  | None => None
  | Some (res, s') => Some (res_status res, s', OperationResponse out res)
  end.

(** [func (x *Compound) Operation(in, out Bytes) (uint32, error)]. *)
Definition Operation (s : State) (out : Bufpool.Buf)
    : option (Z * State * Bufpool.Buf) :=
  match Xdr.DecUint32 (st_in s) with
  | None => None
  | Some (op, rest) => doOperation op (set_in s rest) out
  end.

(** [for i := 1; i < x.OpsCount && !slices.Contains(FatalStatuses, lastStatus); i++],
    with [n] the number of values of [i] still to come. *)
Fixpoint loop (n : nat) (lastStatus opsExecuted : Z) (s : State) (out : Bufpool.Buf)
    : option (Z * Z * State * Bufpool.Buf) :=
  match n with
  | O => Some (lastStatus, opsExecuted, s, out)
  | S n' =>
      if fatal lastStatus then Some (lastStatus, opsExecuted, s, out)
      else
        match Operation s out with
        | None => None
        | Some (status, s', out') => loop n' status (opsExecuted + 1) s' out'
        end
  end.

(** What [RunSequence] decides before any operation runs. *)
Inductive SequenceCheck :=
| SeqReply (status : Z)
| SeqReplay (cached : option Bufpool.Buf)
| SeqProceed (slot : Clients.Slot).

(** The chain of tests of [RunSequence] on the slot found. *)
Definition check_slot (slot : Clients.Slot) (args : Msg.SEQUENCE4args) : SequenceCheck :=
  if (Clients.SequenceID slot =? Msg.SequenceID args) && Clients.ContainsData slot then
    SeqReplay (Clients.Buf slot)
  else if (Clients.SequenceID slot =? Msg.SequenceID args)
          && negb (bool_decide (is_Some (Clients.Buf slot))) then
    SeqReply Msg.NFS4ERR_RETRY_UNCACHED_REP
  else if negb (Clients.SequenceID slot =? Msg.SequenceID args)
          && negb (u32 (Clients.SequenceID slot + 1) =? Msg.SequenceID args) then
    SeqReply Msg.NFS4ERR_SEQ_MISORDERED
  else
    SeqProceed (Clients.mkSlot (Clients.SlotID slot) (Msg.SequenceID args)
                  (Msg.CacheThis args && bool_decide (is_Some (Clients.Buf slot)))
                  (Clients.Buf slot)).

(** [func (x *Compound) RunSequence(in, out Bytes) error]. *)
Definition RunSequence (s : State) (out : Bufpool.Buf) : option (State * Bufpool.Buf) :=
  match DecSEQUENCE4args (st_in s) with
  | None => None
  | Some (args, rest) =>
      let s := set_in s rest in
      let x := st_x s in
      let clientID := Clients.ClientIDFromSessionID (Msg.SessionID args) in
      let cacheID := Clients.CacheIDFromSessionID (Msg.SessionID args) in
      match Clients.Get (st_clients s) now clientID with
      | (cl, None) =>
          Some (set_clients s cl,
                WriteHeaderAndSingleOperation x out Msg.OP4_SEQUENCE
                  Msg.NFS4ERR_DEADSESSION)
      | (cl, Some client) =>
          let s := set_clients s cl in
          match Clients.GetSlot client (Msg.SessionID args) (Msg.SlotID args) with
          | None =>
              Some (s, WriteHeaderAndSingleOperation x out Msg.OP4_SEQUENCE
                         Msg.NFS4ERR_DEADSESSION)
          | Some slot =>
              match check_slot slot args with
              | SeqReplay None => None
              | SeqReplay (Some cached) => Some (s, Bufpool.Copy cached out)
              | SeqReply status =>
                  Some (s, WriteHeaderAndSingleOperation x out Msg.OP4_SEQUENCE status)
              | SeqProceed slot =>
                  let ptr := (clientID, cacheID, Msg.SlotID args) in
                  let cl := Clients.store_slot cl clientID cacheID (Msg.SlotID args) slot in
                  let x := set_session x (Msg.SessionID args) ptr in
                  let s := mkState x cl (st_world s) (st_in s) in
                  let out := WriteHeader x out (OpsCount x) Msg.NFS4_OK in
                  let out := OperationResponse out
                               (mkOpResult Msg.OP4_SEQUENCE Msg.NFS4_OK
                                  (SEQUENCE4resok args)) in
                  match loop (Z.to_nat (OpsCount x - 1)) Msg.NFS4_OK 1 s out with
                  | None => None
                  | Some (lastStatus, opsExecuted, s, out) =>
                      let out := RewriteHeaderIfNeeded x out opsExecuted lastStatus in
                      if Clients.ContainsData slot then
                        match Clients.Buf slot with
                        | None => None
                        | Some sb =>
                            Some (set_clients s
                                    (Clients.store_slot (st_clients s) clientID cacheID
                                       (Msg.SlotID args)
                                       (Clients.mkSlot (Clients.SlotID slot)
                                          (Clients.SequenceID slot) true
                                          (Some (Bufpool.Copy out sb)))),
                                  out)
                        end
                      else Some (s, out)
                  end
              end
          end
      end
  end.

(** The part of [Run] behind the v4.1 first-operation checks: the
    provisional header, the first operation, the loop and the rewriting
    of the header. *)
Definition run_body (s : State) (op : Z) (out : Bufpool.Buf)
    : option (State * Bufpool.Buf) :=
  let x := st_x s in
  let out := WriteHeader x out (OpsCount x) Msg.NFS4_OK in
  match doOperation op s out with
  | None => None
  | Some (lastStatus, s, out) =>
      match loop (Z.to_nat (OpsCount x - 1)) lastStatus 1 s out with
      | None => None
      | Some (lastStatus, opsExecuted, s, out) =>
          Some (s, RewriteHeaderIfNeeded x out opsExecuted lastStatus)
      end
  end.

(** [func (x *Compound) Run(in, out Bytes) error]. *)
Definition Run (s : State) (out : Bufpool.Buf) : option (State * Bufpool.Buf) :=
  match Xdr.DecUint32 (st_in s) with
  | None => None
  | Some (op, rest) =>
      let s := set_in s rest in
      let x := st_x s in
      if MinorVer x >? 0 then
        if negb (Contains AllowedFirstOps41 op) then
          Some (s, WriteHeaderAndSingleOperation x out op Msg.NFS4ERR_OP_NOT_IN_SESSION)
        else if negb (op =? Msg.OP4_SEQUENCE) && (OpsCount x >? 1) then
          Some (s, WriteHeaderAndSingleOperation x out op Msg.NFS4ERR_NOT_ONLY_OP)
        else if op =? Msg.OP4_SEQUENCE then RunSequence s out
        else run_body s op out
      else run_body s op out
  end.

(** The next [k] operations of the request executed one after the other,
    whatever their statuses: their results in order and the state they
    leave ([None] when one of them cannot be decoded or aborts). *)
Fixpoint exec_ops (k : nat) (s : State) : option (list OpResult * State) :=
  match k with
  | O => Some ([], s)
  | S k' =>
      match Xdr.DecUint32 (st_in s) with
      | None => None
      | Some (op, rest) =>
          match op_outcome op (set_in s rest) with
          | None => None
          | Some (res, s') =>
              match exec_ops k' s' with
              | None => None
              | Some (rs, s'') => Some (res :: rs, s'')
              end
          end
      end
  end.

End Runtime.

Arguments mkState {World} _ _ _ _.
Arguments st_x {World} _.
Arguments st_clients {World} _.
Arguments st_world {World} _.
Arguments st_in {World} _.
Arguments mkHandlerOut {World} _ _ _ _ _ _.
Arguments set_in {World} _ _.
Arguments set_clients {World} _ _.
Arguments op_outcome {World} _ _ _.
Arguments doOperation {World} _ _ _ _.
Arguments Operation {World} _ _ _.
Arguments loop {World} _ _ _ _ _ _.
Arguments RunSequence {World} _ _ _ _.
Arguments run_body {World} _ _ _ _.
Arguments Run {World} _ _ _ _.
Arguments exec_ops {World} _ _ _.

(** A handler for the examples: every implemented operation succeeds
    with an empty response and counts itself in the world. *)
Definition counting_handler (op : Z) (s : State nat) : option (HandlerOut nat) :=
  Some (mkHandlerOut (mkOpResult op Msg.NFS4_OK [])
          (CurrentHandle (st_x s)) (SavedHandle (st_x s))
          (st_clients s) (S (st_world s)) (st_in s)).

(** A v4.0 request of three operations: PUTROOTFH, LOCK, GETFH. *)
Definition sample_request : State nat :=
  mkState (mkCompound (Msg.mkAuth 1 []) 0 [116; 97; 103] 3 Clients.sample_creds
             None None [] None)
          ∅ 0%nat
          (Xdr.be32 Msg.OP4_PUTROOTFH ++ Xdr.be32 Msg.OP4_LOCK ++ Xdr.be32 Msg.OP4_GETFH).

(** A confirmed client (id 7) with one session (cache id 9), and the
    arguments of a SEQUENCE on that session without [cache_this]. *)
Definition sample_session_id : list Z :=
  [0; 0; 0; 0; 0; 0; 0; 7; 0; 0; 0; 0; 0; 0; 0; 9].

Definition sample_session_client (persist : bool) : Clients.Client :=
  Clients.BuildSession (Clients.sample_client true 1) 9 persist.

Definition sample_sequence_args (seq slot : Z) : list Z :=
  sample_session_id ++ Xdr.be32 seq ++ Xdr.be32 slot ++ Xdr.be32 0 ++ Xdr.be32 0.

(** A v4.1 request with [ops] operations on the registry [cl], whose unread
    arguments are [inb]. *)
Definition sample_session_request (cl : gmap Z Clients.Client) (ops : Z)
    (inb : list Z) : State nat :=
  mkState (mkCompound (Msg.mkAuth 1 []) 1 [] ops Clients.sample_creds
             None None [] None)
          cl 0%nat inb.

(** SEQUENCE (sequence id 1, slot 0, no [cache_this]) followed by REMOVE. *)
Definition sample_sequence_remove : list Z :=
  Xdr.be32 Msg.OP4_SEQUENCE ++ sample_sequence_args 1 0 ++ Xdr.be32 Msg.OP4_REMOVE.

(** The results [pre] are not fatal and the result [last] is. *)
Definition first_fatal (pre : list OpResult) (last : OpResult) : Prop :=
  Forall (fun r => fatal (res_status r) = false) pre
  /\ fatal (res_status last) = true.

(** The result [RunSequence] writes for an accepted SEQUENCE. *)
Definition sequence_ok (args : Msg.SEQUENCE4args) : OpResult :=
  mkOpResult Msg.OP4_SEQUENCE Msg.NFS4_OK (SEQUENCE4resok args).

(** The file id a CLOSE names, and the successful CLOSE result
    (state-id with [seq_id = 2] and the [other] of the request). *)
Definition close_file_id (args : Msg.CLOSE4args) : Z :=
  FileID (Msg.Other (Msg.OpenStateId args)).

Definition close_ok (args : Msg.CLOSE4args) : OpResult :=
  mkOpResult Msg.OP4_CLOSE Msg.NFS4_OK
    (StateId4_value (Msg.mkStateId4 2 (Msg.Other (Msg.OpenStateId args)))).

(** The stored worker serves the request: it is not discarded and its
    credentials are [Equal] to the caller's. *)
Definition serves (w : Worker.Worker) (x : Compound) : Prop :=
  Worker.discarded w = false /\ Auth.Equal (Worker.Creds w) (Creds x) = true.

(** The tables of a worker a CLOSE is concerned with. *)
Definition same_tables (w1 w2 : Worker.Worker) : Prop :=
  Worker.Files w1 = Worker.Files w2
  /\ Worker.ClosedFiles w1 = Worker.ClosedFiles w2
  /\ Worker.Cache w1 = Worker.Cache w2.

(** The one-operation DEADSESSION reply. *)
Definition dead_reply (x : Compound) : list Z :=
  wire_header x 1 Msg.NFS4ERR_DEADSESSION
  ++ wire_result (mkOpResult Msg.OP4_SEQUENCE Msg.NFS4ERR_DEADSESSION []).

(** A worker with two open files (id 500, and id 501 whose underlying
    close fails with EOF) and one closed file (id 600), and CLOSE requests
    on it. *)
Definition sample_file : Worker.File := Worker.mkFile None [1; 2; 3] 7 1.

Definition sample_failing_file : Worker.File :=
  Worker.mkFile (Some Msg.EOF) [4; 5; 6] 7 2.

Definition sample_worker : Worker.Worker :=
  Worker.mkWorker {[ [1; 2; 3] := Worker.mkSavedEntry 0 "/x" ]}
    Clients.sample_creds 77
    {[ 500 := sample_file; 501 := sample_failing_file ]} {[ 600 ]} 0 false.

Definition sample_compound (fh : option FileHandle) : Compound :=
  mkCompound (Msg.mkAuth 1 []) 0 [] 1 Clients.sample_creds fh None [] None.

Definition sample_close (id : Z) : Msg.CLOSE4args :=
  Msg.mkCLOSE4args 0 (Msg.mkStateId4 1 (FileOther id 1)).

End Compound.

(** ** xdr: the decoder *)

Module Decoder.

(** [io.ReadFull(d.r, b)] for a buffer of [n] bytes, on the unread bytes
    [inb] of the input: the next [n] bytes and the input left.  [None]:
    fewer than [n] bytes are left and no value is produced. *)
Definition ReadFull (n : nat) (inb : list Z) : option (list Z * list Z) :=
  if (length inb <? n)%nat then None else Some (take n inb, drop n inb).

(** [func (d *Decoder) Uint32() (uint32, error)]. *)
Definition Uint32 (inb : list Z) : option (Z * list Z) := Xdr.DecUint32 inb.

(** [func (d *Decoder) Uint64() (uint64, error)]. *)
Definition Uint64 (inb : list Z) : option (Z * list Z) :=
  match ReadFull 8 inb with
  | None => None
  | Some (b, rest) => Some (Clients.BigEndianUint64 b, rest)
  end.

(** [func (d *Decoder) Bool() (bool, error)]: [b != 0]. *)
Definition Bool (inb : list Z) : option (bool * list Z) :=
  match Uint32 inb with
  | None => None
  | Some (b, rest) => Some (negb (b =? 0), rest)
  end.

(** [func (d *Decoder) Bytes() ([]byte, error)]: the length, then
    [n + Pad(n)] bytes of which the first [n] are returned. *)
Definition Bytes (inb : list Z) : option (list Z * list Z) :=
  match Uint32 inb with
  | None => None
  | Some (size, rest) =>
      let n := Z.to_nat size in
      match ReadFull (n + Xdr.Pad n) rest with
      | None => None
      | Some (b, rest) => Some (take n b, rest)
      end
  end.

(** [func (d *Decoder) String() (string, error)]. *)
Definition String (inb : list Z) : option (list Z * list Z) := Bytes inb.

(** [func (d *Decoder) ByteArray(buf []byte) error] for a buffer of
    [len] bytes. *)
Definition ByteArray (len : nat) (inb : list Z) : option (list Z * list Z) :=
  match ReadFull len inb with
  | None => None
  | Some (b, rest) =>
      if (0 <? Xdr.Pad len)%nat then
        match ReadFull (Xdr.Pad len) rest with
        | None => None
        | Some (_, rest) => Some (b, rest)
        end
      else Some (b, rest)
  end.

(** The loop of [Uint32s]: [n] more words. *)
Fixpoint Uint32s_loop (n : nat) (inb : list Z) : option (list Z * list Z) :=
  match n with
  | O => Some ([], inb)
  | S n' =>
      match Uint32 inb with
      | None => None
      | Some (v, rest) =>
          match Uint32s_loop n' rest with
          | None => None
          | Some (vs, rest) => Some (v :: vs, rest)
          end
      end
  end.

(** [func (d *Decoder) Uint32s() ([]uint32, error)]. *)
Definition Uint32s (inb : list Z) : option (list Z * list Z) :=
  match Uint32 inb with
  | None => None
  | Some (size, rest) => Uint32s_loop (Z.to_nat size) rest
  end.

(** The pointer types [Decode] has a case for. *)
Inductive target :=
| TInt | TUint32 | TUint64 | TString | TBool | TBytes | TByteArray16 | TUint32s.

Definition with_value {A : Type} (f : A -> Xdr.value) (r : option (A * list Z))
    : option (Xdr.value * list Z) :=
  match r with
  | None => None
  | Some (a, rest) => Some (f a, rest)
  end.

(** [func (d *Decoder) Decode(target interface{}) error]. *)
Definition Decode (t : target) (inb : list Z) : option (Xdr.value * list Z) :=
  match t with
  | TInt => with_value Xdr.VInt (Uint32 inb)
  | TUint32 => with_value Xdr.VUint32 (Uint32 inb)
  | TUint64 => with_value Xdr.VUint64 (Uint64 inb)
  | TString => with_value Xdr.VString (String inb)
  | TBool => with_value Xdr.VBool (Bool inb)
  | TBytes => with_value Xdr.VBytes (Bytes inb)
  | TByteArray16 => with_value Xdr.VByteArray (ByteArray 16 inb)
  | TUint32s => with_value Xdr.VUint32s (Uint32s inb)
  end.

(** [func (d *Decoder) DecodeAll(target ...interface{}) error]. *)
Fixpoint DecodeAll (ts : list target) (inb : list Z) : option (list Xdr.value * list Z) :=
  match ts with
  | [] => Some ([], inb)
  | t :: ts' =>
      match Decode t inb with
      | None => None
      | Some (v, rest) =>
          match DecodeAll ts' rest with
          | None => None
          | Some (vs, rest) => Some (v :: vs, rest)
          end
      end
  end.

(** The target a value is decoded into. *)
Definition target_of (v : Xdr.value) : target :=
  match v with
  | Xdr.VInt _ => TInt
  | Xdr.VUint32 _ => TUint32
  | Xdr.VUint64 _ => TUint64
  | Xdr.VString _ => TString
  | Xdr.VBool _ => TBool
  | Xdr.VBytes _ => TBytes
  | Xdr.VByteArray _ => TByteArray16
  | Xdr.VUint32s _ => TUint32s
  end.

Definition is_byte (z : Z) : Prop := 0 <= z < 256.

(** The values of the Go types: bytes and words in range, lengths that
    fit the 32-bit length prefix, 16 bytes in a [[16]byte].  For an [int]
    the range is that of the [uint32] it is sent as. *)
Definition in_range (v : Xdr.value) : Prop :=
  match v with
  | Xdr.VInt z => is_u32 z
  | Xdr.VUint32 z => is_u32 z
  | Xdr.VUint64 z => is_u64 z
  | Xdr.VString s => Forall is_byte s /\ is_u32 (Z.of_nat (length s))
  | Xdr.VBool _ => True
  | Xdr.VBytes s => Forall is_byte s /\ is_u32 (Z.of_nat (length s))
  | Xdr.VByteArray s => Forall is_byte s /\ length s = 16%nat
  | Xdr.VUint32s s => Forall is_u32 s /\ is_u32 (Z.of_nat (length s))
  end.

End Decoder.

(** ** auth/authenticate.go: decoding the credentials *)

Module Authenticate.

(** The conversions between [[]byte] and [string]. *)
Definition string_of_bytes (bs : list Z) : string :=
  String.string_of_list_ascii (map (fun b => Ascii.ascii_of_N (Z.to_N b)) bs).

Definition bytes_of_string (s : string) : list Z :=
  map (fun a => Z.of_N (Ascii.N_of_ascii a)) (String.list_ascii_of_string s).

(** [func (c *Creds) Decode(decoder *xdr.Decoder) error]: the expiration
    value, the host name, uid and gid, then a count followed by that many
    group ids. *)
Definition Decode (inb : list Z) : option (Auth.Creds * list Z) :=
  match Decoder.Uint32 inb with
  | None => None
  | Some (expiration, inb) =>
      match Decoder.String inb with
      | None => None
      | Some (hostname, inb) =>
          match Decoder.Uint32 inb with
          | None => None
          | Some (uid, inb) =>
              match Decoder.Uint32 inb with
              | None => None
              | Some (gid, inb) =>
                  match Decoder.Uint32 inb with
                  | None => None
                  | Some (length, inb) =>
                      match Decoder.Uint32s_loop (Z.to_nat length) inb with
                      | None => None
                      | Some (groups, inb) =>
                          Some (Auth.mkCreds expiration (string_of_bytes hostname)
                                  uid gid groups, inb)
                      end
                  end
              end
          end
      end
  end.

Definition AUTH_TOOWEAK : Z := 5.

(** What [Authenticate] returns: the reply verifier and the credentials,
    an [AuthError] with its code, or the error of the decoder. *)
Inductive outcome :=
| Accepted (resp : Msg.Auth) (creds : Auth.Creds)
| AuthError (code : Z)
| DecodeError.

(** [func Authenticate(cred, verf msg.Auth) (msg.Auth, *Creds, error)]. *)
Definition Authenticate (cred verf : Msg.Auth) : outcome :=
  if Msg.Flavor cred <? Msg.AUTH_FLAVOR_UNIX then AuthError AUTH_TOOWEAK
  else
    match Decode (Msg.Body cred) with
    | None => DecodeError
    | Some (credentials, _) => Accepted (Msg.mkAuth Msg.AUTH_FLAVOR_UNIX []) credentials
    end.

(** The AUTH_UNIX body of a credential tuple, as a client sends it. *)
Definition body_of (c : Auth.Creds) : list Z :=
  Xdr.wire_all [Xdr.VUint32 (Auth.ExpirationValue c);
                Xdr.VString (bytes_of_string (Auth.Hostname c));
                Xdr.VUint32 (Auth.UID c); Xdr.VUint32 (Auth.GID c);
                Xdr.VUint32s (Auth.AdditionalGroups c)].

(** The fields of a credential tuple are in the range of their Go types. *)
Definition creds_in_range (c : Auth.Creds) : Prop :=
  is_u32 (Auth.ExpirationValue c) /\ is_u32 (Auth.UID c) /\ is_u32 (Auth.GID c)
  /\ Forall is_u32 (Auth.AdditionalGroups c)
  /\ is_u32 (Z.of_nat (length (Auth.AdditionalGroups c)))
  /\ is_u32 (Z.of_nat (String.length (Auth.Hostname c))).

End Authenticate.

(** ** bufpool/buf.go: reading *)

Module BufReader.

(** [func (b *Buf) Read(p []byte) (int, error)] for a [p] of [n] bytes:
    [copy(p, b.buf[b.r:b.w])], then [b.r += n].  The bytes copied to the
    front of [p], their number, and the buffer; the error is always nil. *)
Definition Read (b : Bufpool.Buf) (n : nat) : list Z * nat * Bufpool.Buf :=
  let src := Bufpool.Bytes b in
  let k := Nat.min n (length src) in
  (take k src, k,
   Bufpool.mkBuf (Bufpool.buf b) (Bufpool.r b + k) (Bufpool.w b)).

(** [io.ReadFull(b, buf)] for a [buf] of [want] bytes, that is
    [io.ReadAtLeast(b, buf, len(buf))]:
    [for n < min && err == nil { nn, err = r.Read(buf[n:]); n += nn }].
    [got] are the bytes read so far; [fuel] bounds the number of
    iterations, and [None] says that the loop is still running when it is
    used up. *)
Fixpoint ReadFull (fuel : nat) (b : Bufpool.Buf) (got : list Z) (want : nat)
    : option (list Z * Bufpool.Buf) :=
  if (want <=? length got)%nat then Some (got, b)
  else
    match fuel with
    | O => None
    | S fuel' =>
        let '(bs, _, b') := Read b (want - length got) in
        ReadFull fuel' b' (got ++ bs) want
    end.

(** The read and write cursors are in order and inside the buffer. *)
Definition well_formed (b : Bufpool.Buf) : Prop :=
  (Bufpool.r b <= Bufpool.w b)%nat /\ (Bufpool.w b <= length (Bufpool.buf b))%nat.

End BufReader.

(** ** Sample sessions with a reply cache *)

Module SlotSamples.

(** A slot buffer that holds a four-byte cached reply. *)
Definition sample_cached_reply : Bufpool.Buf :=
  Bufpool.mkBuf [11; 22; 33; 44; 0; 0] 0 4.

(** The client of [sample_session_client] whose slot 0 caches that reply
    for sequence id 1. *)
Definition sample_cached_client : Clients.Client :=
  Clients.set_sessions (Clients.sample_client true 1)
    {[ 9 := <[0%nat := Clients.mkSlot 0 1 true (Some sample_cached_reply)]>
              (Clients.new_session true) ]}.

(** The arguments of a SEQUENCE on the sample session with [cache_this]. *)
Definition sample_sequence_args_cached (seq slot : Z) : list Z :=
  Compound.sample_session_id ++ Xdr.be32 seq ++ Xdr.be32 slot ++ Xdr.be32 0 ++ Xdr.be32 1.

End SlotSamples.

(** ** Sample requests with a failing operation *)

Module RequestSamples.

(** A handler for the examples: LOOKUP fails with NOENT, every other
    implemented operation succeeds; each counts itself in the world. *)
Definition noent_handler (op : Z) (s : Compound.State nat)
    : option (Compound.HandlerOut nat) :=
  Some (Compound.mkHandlerOut
          (Compound.mkOpResult op
             (if op =? Msg.OP4_LOOKUP then Msg.NFS4ERR_NOENT else Msg.NFS4_OK) [])
          (Compound.CurrentHandle (Compound.st_x s))
          (Compound.SavedHandle (Compound.st_x s))
          (Compound.st_clients s) (S (Compound.st_world s)) (Compound.st_in s)).

(** A v4.0 request of three operations: PUTROOTFH, LOOKUP, GETFH. *)
Definition sample_lookup_request : Compound.State nat :=
  Compound.mkState
    (Compound.mkCompound (Msg.mkAuth 1 []) 0 [116; 97; 103] 3 Clients.sample_creds
       None None [] None)
    ∅ 0%nat
    (Xdr.be32 Msg.OP4_PUTROOTFH ++ Xdr.be32 Msg.OP4_LOOKUP ++ Xdr.be32 Msg.OP4_GETFH).

(** A v4.1 request of two operations that starts with EXCHANGE_ID. *)
Definition sample_exchange_request : Compound.State nat :=
  Compound.mkState
    (Compound.mkCompound (Msg.mkAuth 1 []) 1 [] 2 Clients.sample_creds None None [] None)
    ∅ 0%nat
    (Xdr.be32 Msg.OP4_EXCHANGE_ID ++ Xdr.be32 Msg.OP4_PUTROOTFH).

(** A v4.0 request of two operations that starts with OPEN_CONFIRM (20),
    for which [doOperation] has no case. *)
Definition sample_open_confirm_request : Compound.State nat :=
  Compound.mkState
    (Compound.mkCompound (Msg.mkAuth 1 []) 0 [] 2 Clients.sample_creds None None [] None)
    ∅ 0%nat
    (Xdr.be32 20 ++ Xdr.be32 Msg.OP4_PUTROOTFH).

End RequestSamples.

(** ** package clients: the rest of the registry *)

Module Registry.

Definition NFS4ERR_CLIENTID_BUSY : Z := 10074.

(** [bytes.Equal]. *)
Definition bytes_Equal (a b : list Z) : bool := bool_decide (a = b).

Definition set_confirmValue (c : Clients.Client) (v : Z) : Clients.Client :=
  Clients.mkClient (Clients.Name c) (Clients.Verifier c) (Clients.Creds c)
    (Clients.clientID c) (Clients.lastSeen c) (Clients.confirmed c) v
    (Clients.seqID c) (Clients.busy c) (Clients.sessions c).

(** [func (c *Client) Add(n int)]. *)
Definition AddBusy (c : Clients.Client) (n : Z) : Clients.Client :=
  Clients.set_busy c (Clients.busy c + n).

(** The first loop of [Clients.Add]: the confirmed clients with the name
    of the request are collected in [prev]; [None] when one of them has
    other credentials. *)
Fixpoint collect_prev (entries : list (Z * Clients.Client)) (client : Clients.Client)
    (prev : gmap Z Clients.Client) : option (gmap Z Clients.Client) :=
  match entries with
  | [] => Some prev
  | (id, stored) :: rest =>
      if negb (Clients.confirmed stored) then collect_prev rest client prev
      else if negb (bytes_Equal (Clients.Name stored) (Clients.Name client))
      then collect_prev rest client prev
      else if negb (Auth.Equal (Clients.Creds stored) (Clients.Creds client)) then None
      else collect_prev rest client (<[id := stored]> prev)
  end.

(** The second loop: the first entry of [prev] with the verifier of the
    request. *)
Definition find_update (prev : gmap Z Clients.Client) (client : Clients.Client)
    : option (Z * Clients.Client) :=
  List.find (fun e => negb (negb (Clients.Verifier (snd e) =? Clients.Verifier client)
                            || negb (Clients.confirmed (snd e))))
            (map_to_list prev).

(** The third loop keeps the confirmed clients and those of another name. *)
Definition kept_by_Add (client : Clients.Client) (e : Z * Clients.Client) : bool :=
  Clients.confirmed (snd e)
  || negb (bytes_Equal (Clients.Name (snd e)) (Clients.Name client)).

(** [func (x *Clients) Add(client Client) (clientID, confirmValue uint64, seqID uint32, err error)].
    [confirm] is the confirm value drawn, [id] the client id the drawing
    loop settles on (one not in use) when a new record is made; the maps
    are ranged over in the order of [map_to_list]. *)
Definition Add (x : gmap Z Clients.Client) (now : Clock.Time) (client : Clients.Client)
    (id confirm : Z) : gmap Z Clients.Client * result (Z * Z * Z) :=
  match collect_prev (map_to_list x) client ∅ with
  | None => (x, Err Msg.NFS4ERR_CLID_INUSE)
  | Some prev =>
      match find_update prev client with
      | Some (pid, stored) =>
          let stored :=
            Clients.set_lastSeen
              (Clients.set_seqID (set_confirmValue stored confirm)
                 (u32 (Clients.seqID stored + 1))) now in
          (<[pid := stored]> x, Ok (pid, confirm, Clients.seqID stored))
      | None =>
          let x := filter (fun e => kept_by_Add client e = true) x in
          let client :=
            Clients.mkClient (Clients.Name client) (Clients.Verifier client)
              (Clients.Creds client) id now (Clients.confirmed client) confirm 1
              (Clients.busy client) (Clients.sessions client) in
          (<[id := client]> x, Ok (id, confirm, 1))
      end
  end.

(** The record SETCLIENTID and EXCHANGE_ID hand to [Add]: name, verifier
    and credentials; every other field has its zero value. *)
Definition request_client (name : list Z) (verifier : Z) (creds : Auth.Creds)
    : Clients.Client :=
  Clients.mkClient name verifier creds 0 0 false 0 0 0 ∅.

(** [func (x *Clients) Confirm(clientID, confirmValue uint64, creds *auth.Creds)]. *)
Definition Confirm (x : gmap Z Clients.Client) (now : Clock.Time)
    (clientID confirmValue : Z) (creds : Auth.Creds)
    : gmap Z Clients.Client * result Clients.Client :=
  match x !! clientID with
  | None => (x, Err Msg.NFS4ERR_STALE_CLIENTID)
  | Some client =>
      if negb (Clients.confirmValue client =? confirmValue) then
        (x, Err Msg.NFS4ERR_STALE_CLIENTID)
      else if negb (Auth.Equal (Clients.Creds client) creds) then
        (x, Err Msg.NFS4ERR_CLID_INUSE)
      else
        let client := Clients.set_lastSeen (Clients.set_confirmed client true) now in
        (<[clientID := client]> x, Ok client)
  end.

(** [func (x *Clients) GetByName(name []byte, verifier uint64, creds *auth.Creds) (uint64, bool)]. *)
Definition GetByName (x : gmap Z Clients.Client) (now : Clock.Time)
    (name : list Z) (verifier : Z) (creds : Auth.Creds)
    : gmap Z Clients.Client * option Z :=
  match List.find
          (fun e => negb (negb (bytes_Equal (Clients.Name (snd e)) name)
                          || negb (Clients.Verifier (snd e) =? verifier)
                          || negb (Auth.Equal (Clients.Creds (snd e)) creds)
                          || negb (Clients.confirmed (snd e))))
          (map_to_list x) with
  | Some (clientID, c) => (<[clientID := Clients.set_lastSeen c now]> x, Some clientID)
  | None => (x, None)
  end.

(** [func (x *Clients) RemoveClient(clientID uint64) error]; [None] is
    the nil error. *)
Definition RemoveClient (x : gmap Z Clients.Client) (clientID : Z)
    : gmap Z Clients.Client * option Z :=
  match x !! clientID with
  | None => (x, Some Msg.NFS4ERR_STALE_CLIENTID)
  | Some c =>
      if negb (Clients.confirmed c) then (x, Some Msg.NFS4ERR_STALE_CLIENTID)
      else if Clients.busy c >? 0 then (x, Some NFS4ERR_CLIENTID_BUSY)
      else (delete clientID x, None)
  end.

(** The clients [RemoveExpiredClients] skips. *)
Definition alive (now : Clock.Time) (expiration : Z) (c : Clients.Client) : bool :=
  (now - Clients.lastSeen c <=? expiration) || (Clients.busy c >? 0).

(** [func (x *Clients) RemoveExpiredClients(expiration time.Duration) []uint64]. *)
Definition RemoveExpiredClients (x : gmap Z Clients.Client) (now : Clock.Time)
    (expiration : Z) : gmap Z Clients.Client * list Z :=
  let removed :=
    map fst (List.filter (fun e => negb (alive now expiration (snd e))) (map_to_list x)) in
  (foldl (fun m index => delete index m) x removed, removed).

(** [var ClientExpiration = 5 * time.Minute]. *)
Definition ClientExpiration : Z := 5 * 60 * Clock.Second.

(** The session id [BuildSession] returns for the cache id it drew:
    client id and cache id, big-endian. *)
Definition SessionID (c : Clients.Client) (cacheID : Z) : list Z :=
  Xdr.be64 (Clients.clientID c) ++ Xdr.be64 cacheID.

(** [func (c *Client) RemoveSession(sessionID [16]byte)]. *)
Definition RemoveSession (c : Clients.Client) (sessionID : list Z) : Clients.Client :=
  let cacheID := Clients.CacheIDFromSessionID sessionID in
  match Clients.sessions c !! cacheID with
  | None => c
  | Some _ => Clients.set_sessions c (delete cacheID (Clients.sessions c))
  end.

(** Clients of the same name have different verifiers, and at most one
    of them is unconfirmed. *)
Definition name_keyed (x : gmap Z Clients.Client) : Prop :=
  forall i j a b,
    i <> j -> x !! i = Some a -> x !! j = Some b ->
    Clients.Name a = Clients.Name b ->
    Clients.Verifier a <> Clients.Verifier b
    /\ (Clients.confirmed a = true \/ Clients.confirmed b = true).

End Registry.

(** ** package worker: open files, the attribute cache, the life cycle *)

Module WorkerFiles.

(** [func (w *Worker) AddFile(file *File) uint64], with the random index
    the drawing loop settles on (one not in use); the client registry is
    threaded through because of [file.Client.Add(1)]. *)
Definition AddFile (w : Worker.Worker) (cl : gmap Z Clients.Client)
    (file : Worker.File) (index : Z) : Worker.Worker * gmap Z Clients.Client * Z :=
  (Worker.mkWorker (Worker.Cache w) (Worker.Creds w) (Worker.SessionID w)
     (<[index := file]> (Worker.Files w)) (Worker.ClosedFiles w)
     (Worker.inUse w) (Worker.discarded w),
   alter (fun c => Registry.AddBusy c 1) (Worker.Client file) cl,
   index).

(** [func (w *Worker) GetFileByClientSeqID(client *clients.Client, clientSeqID uint32) (uint64, bool)]:
    the first file of the range with that sequence id and that client. *)
Definition GetFileByClientSeqID (w : Worker.Worker) (client : Z) (clientSeqID : Z)
    : option Z :=
  match List.find (fun e => (Worker.ClientSeqID (snd e) =? clientSeqID)
                            && (Worker.Client (snd e) =? client))
                  (map_to_list (Worker.Files w)) with
  | Some (index, _) => Some index
  | None => None
  end.

End WorkerFiles.

Module Cache.

(** [var DefaultTimeout = 30 * time.Second]. *)
Definition DefaultTimeout : Z := 30 * Clock.Second.

(** [func (c *Cache) Get(handle []byte) (Entry, bool)]; the entry is
    given by its path. *)
Definition Get (c : gmap (list Z) Worker.savedEntry) (Timeout : Z) (now : Clock.Time)
    (handle : list Z) : option string :=
  match c !! handle with
  | None => None
  | Some entry =>
      if now - Worker.time entry >? Timeout then None else Some (Worker.Path entry)
  end.

(** [func (c *Cache) Put(handle []byte, entry Entry)]. *)
Definition Put (c : gmap (list Z) Worker.savedEntry) (now : Clock.Time)
    (handle : list Z) (path : string) : gmap (list Z) Worker.savedEntry :=
  <[handle := Worker.mkSavedEntry now path]> c.

(** One pass of [func (c *Cache) gc()]: the entries older than the
    timeout are deleted. *)
Definition gc (c : gmap (list Z) Worker.savedEntry) (Timeout : Z) (now : Clock.Time)
    : gmap (list Z) Worker.savedEntry :=
  filter (fun e => (now - Worker.time (snd e) >? Timeout) = false) c.

End Cache.

Module Lifecycle.

(** The fields of a [Worker] its life cycle is about, and the number of
    [go w.cleanup()] started so far. *)
Record life := mkLife {
  inUse : Z;
  discarded : bool;
  lastUse : Clock.Time;
  cleanups : nat
}.

(** [var IdleTimeout = 5 * time.Minute]. *)
Definition IdleTimeout : Z := 5 * 60 * Clock.Second.

(** [worker.New]: in use once, by its creator. *)
Definition New (now : Clock.Time) : life := mkLife 1 false now 0.

(** [func (w *Worker) Use() error]; [None] is [ErrWorkerDiscarded]. *)
Definition Use (w : life) (now : Clock.Time) : option life :=
  if discarded w then None
  else Some (mkLife (inUse w + 1) (discarded w) now (cleanups w)).

(** [func (w *Worker) Discard()]. *)
Definition Discard (w : life) : life :=
  if discarded w then w
  else if inUse w >? 0 then mkLife (inUse w) true (lastUse w) (cleanups w)
  else mkLife (inUse w) true (lastUse w) (S (cleanups w)).

(** [func (w *Worker) Close() error]. *)
Definition Close (w : life) : life :=
  let n := inUse w - 1 in
  if discarded w && (n =? 0) then mkLife n (discarded w) (lastUse w) (S (cleanups w))
  else mkLife n (discarded w) (lastUse w) (cleanups w).

(** One wake-up of [func (w *Worker) autoDiscard(ctx)]: [mustDiscard] says
    that the context is done. *)
Definition autoDiscard (w : life) (now : Clock.Time) (mustDiscard : bool) : life :=
  if discarded w then w
  else if (now - lastUse w <=? IdleTimeout) && negb mustDiscard then w
  else if inUse w =? 0 then mkLife (inUse w) true (lastUse w) (S (cleanups w))
  else mkLife (inUse w) true (lastUse w) (cleanups w).

(** What happens to a worker: a request takes it ([Use], which may
    fail), releases it, discards it, or the timer fires. *)
Inductive event :=
| EUse (now : Clock.Time)
| EClose
| EDiscard
| ETick (now : Clock.Time) (mustDiscard : bool).

Definition step (w : life) (e : event) : life :=
  match e with
  | EUse now => match Use w now with Some w' => w' | None => w end
  | EClose => Close w
  | EDiscard => Discard w
  | ETick now mustDiscard => autoDiscard w now mustDiscard
  end.

(** Every [Close] releases a hold taken by [New] or by a successful
    [Use]: it happens only while the worker is in use. *)
Fixpoint balanced (w : life) (es : list event) : Prop :=
  match es with
  | [] => True
  | e :: es' =>
      match e with
      | EClose => 0 < inUse w
      | _ => True
      end /\ balanced (step w e) es'
  end.

Definition run (w : life) (es : list event) : life := foldl step w es.

End Lifecycle.

(** ** rpc.go: record marking *)

Module Rpc.

Definition RPC_CALL : Z := 0.
Definition RPC_REPLY : Z := 1.

(** [type RPCMsgCall struct]. *)
Record RPCMsgCall := mkRPCMsgCall {
  Xid : Z;
  MsgType : Z;
  RPCVer : Z;
  Prog : Z;
  Vers : Z;
  Proc : Z;
  Cred : Msg.Auth;
  Verf : Msg.Auth
}.

(** [type RPCMsgReply struct]. *)
Record RPCMsgReply := mkRPCMsgReply {
  ReplyXid : Z;
  ReplyMsgType : Z;
  ReplyStat : Z
}.

(** The fields of a call header in the order they are encoded. *)
Definition call_values (h : RPCMsgCall) : list Xdr.value :=
  [Xdr.VUint32 (Xid h); Xdr.VUint32 (MsgType h); Xdr.VUint32 (RPCVer h);
   Xdr.VUint32 (Prog h); Xdr.VUint32 (Vers h); Xdr.VUint32 (Proc h);
   Xdr.VUint32 (Msg.Flavor (Cred h)); Xdr.VBytes (Msg.Body (Cred h));
   Xdr.VUint32 (Msg.Flavor (Verf h)); Xdr.VBytes (Msg.Body (Verf h))].

(** Decoding of a [*msg.RPCMsgCall]: the fields one after the other. *)
Definition DecodeCall (inb : list Z) : option (RPCMsgCall * list Z) :=
  match Decoder.DecodeAll
          [Decoder.TUint32; Decoder.TUint32; Decoder.TUint32; Decoder.TUint32;
           Decoder.TUint32; Decoder.TUint32; Decoder.TUint32; Decoder.TBytes;
           Decoder.TUint32; Decoder.TBytes] inb with
  | Some ([Xdr.VUint32 xid; Xdr.VUint32 ty; Xdr.VUint32 ver; Xdr.VUint32 prog;
           Xdr.VUint32 vers; Xdr.VUint32 proc; Xdr.VUint32 cf; Xdr.VBytes cb;
           Xdr.VUint32 vf; Xdr.VBytes vb], rest) =>
      Some (mkRPCMsgCall xid ty ver prog vers proc (Msg.mkAuth cf cb) (Msg.mkAuth vf vb),
            rest)
  | _ => None
  end.

(** What [ReceiveCall] does: it returns the header and the data with a
    nil error; it returns a non-nil error (with the header and the data
    read so far when the stream ends inside the record); or it panics. *)
Inductive received :=
| Received (header : RPCMsgCall) (data : Bufpool.Buf) (rest : list Z)
| ShortRead (header : RPCMsgCall) (data : Bufpool.Buf)
| Failed
| Panic.

(** [io.ReadFull(r, data)] into the slice [Allocate] returned, and
    [buf.Commit(n)]. *)
Definition fill (b : Bufpool.Buf) (p : list Z) : Bufpool.Buf :=
  Bufpool.Commit
    (Bufpool.mkBuf
       (take (Bufpool.w b) (Bufpool.buf b) ++ p
        ++ drop (Bufpool.w b + length p) (Bufpool.buf b))
       (Bufpool.r b) (Bufpool.w b))
    (length p).

(** [func ReceiveCall(r io.Reader)], which returns a call header, the
    data and an error, on the bytes [r] the stream still delivers;
    [pooled] is the buffer [bufpool.Get()] hands out. *)
Definition ReceiveCall (r : list Z) (pooled : Bufpool.Buf) : received :=
  match Decoder.Uint32 r with
  | None => Failed
  | Some (frag, r1) =>
      if Z.land frag (Z.shiftl 1 31) =? 0 then Failed
      else
        let headerSize := Z.shiftr (u32 (Z.shiftl frag 1)) 1 in
        match DecodeCall r1 with
        | None => Failed
        | Some (header, r2) =>
            let size := Z.of_nat (length r1 - length r2) in
            let restSize := headerSize - size in
            if negb (MsgType header =? RPC_CALL) then Failed
            else if restSize <? 0 then Panic
            else
              let buf := Bufpool.Allocate pooled (Z.to_nat restSize) in
              if (length r2 <? Z.to_nat restSize)%nat then ShortRead header (fill buf r2)
              else Received header (fill buf (take (Z.to_nat restSize) r2))
                            (drop (Z.to_nat restSize) r2)
        end
  end.

(** [func SendReply(w io.Writer, reply *msg.RPCMsgReply, data Bytes) error]:
    the bytes written to [w]. *)
Definition SendReply (reply : RPCMsgReply) (data : Bufpool.Buf) : list Z :=
  let payload := Bufpool.Bytes data in
  let length := 12 + Z.of_nat (length payload) in
  let frag := Z.lor (u32 length) (u32 (Z.shiftl 1 31)) in
  Xdr.be32 frag
  ++ Xdr.wire_all [Xdr.VUint32 (ReplyXid reply); Xdr.VUint32 (ReplyMsgType reply);
                   Xdr.VUint32 (ReplyStat reply)]
  ++ payload.

(** The fields of a call header are in the range of their Go types. *)
Definition call_in_range (h : RPCMsgCall) : Prop :=
  Forall Decoder.in_range (call_values h).

(** A call record as the peer frames it: the marker with the last-fragment
    bit and the size [n], then the header and the payload. *)
Definition record (n : Z) (h : RPCMsgCall) (payload : list Z) : list Z :=
  Xdr.be32 (2 ^ 31 + n) ++ Xdr.wire_all (call_values h) ++ payload.

End Rpc.

(** ** ACCESS: the access masks *)

Module Access.

Definition ACCESS4_READ : Z := 1.
Definition ACCESS4_LOOKUP : Z := 2.
Definition ACCESS4_MODIFY : Z := 4.
Definition ACCESS4_EXTEND : Z := 8.
Definition ACCESS4_DELETE : Z := 16.
Definition ACCESS4_EXECUTE : Z := 32.
Definition ACCESS4_XAREAD : Z := 64.
Definition ACCESS4_XAWRITE : Z := 128.
Definition ACCESS4_XALIST : Z := 256.

(** The two masks of [msg.ACCESS4resok] as [Compound.Access] computes
    them from [uint32(fi.Mode())] and [args.Access]: [Supported] and
    [Access]. *)
Definition masks (mode access : Z) : Z * Z :=
  let support := ACCESS4_READ in
  let support := Z.lor support ACCESS4_LOOKUP in
  let support := Z.lor support ACCESS4_MODIFY in
  let support := Z.lor support ACCESS4_EXTEND in
  let support := Z.lor support ACCESS4_DELETE in
  let support := Z.lor support ACCESS4_EXECUTE in
  let support := Z.lor support ACCESS4_XAREAD in
  let support := Z.lor support ACCESS4_XAWRITE in
  let support := Z.lor support ACCESS4_XALIST in
  let perm := Z.land (Z.shiftr mode 6) 7 in
  let r := Z.land perm (Z.shiftl 1 2) in
  let w := Z.land perm (Z.shiftl 1 1) in
  let xe := Z.land perm 1 in
  let accForFh := 0 in
  let accForFh :=
    if r >? 0 then
      Z.lor (Z.lor (Z.lor (Z.lor accForFh ACCESS4_READ) ACCESS4_LOOKUP) ACCESS4_XAREAD)
            ACCESS4_XALIST
    else accForFh in
  let accForFh :=
    if w >? 0 then
      Z.lor (Z.lor (Z.lor (Z.lor accForFh ACCESS4_MODIFY) ACCESS4_EXTEND) ACCESS4_DELETE)
            ACCESS4_XAWRITE
    else accForFh in
  let accForFh :=
    if xe >? 0 then Z.lor (Z.lor accForFh ACCESS4_LOOKUP) ACCESS4_EXECUTE
    else accForFh in
  (Z.land support access, Z.land accForFh access).

(** Whether the owner permission bits of a mode (read: bit 8, write:
    bit 7, execute: bit 6) allow the access right with bit number [i]. *)
Definition owner_allows (mode : Z) (i : Z) : bool :=
  let r := Z.testbit mode 8 in
  let w := Z.testbit mode 7 in
  let x := Z.testbit mode 6 in
  if i =? 0 then r
  else if i =? 1 then r || x
  else if (i =? 2) || (i =? 3) || (i =? 4) then w
  else if i =? 5 then x
  else if i =? 6 then r
  else if i =? 7 then w
  else if i =? 8 then r
  else false.

End Access.

(** ** attrs.go: the [fileid] attribute *)

Module FileIdAttr.

(** [binary.LittleEndian.Uint64]. *)
Definition LittleEndianUint64 (bs : list Z) : Z :=
  foldr (fun b acc => b + 256 * acc) 0 (take 8 bs).

(** [for fileid == 0 && len(window) >= 8 { ... }]: the window loses its
    last byte in every iteration, so [n] iterations are enough when [n]
    is the length of the window. *)
Fixpoint scan (n : nat) (window : list Z) (fileid : Z) : Z :=
  match n with
  | O => fileid
  | S n' =>
      if (fileid =? 0) && (8 <=? length window)%nat then
        scan n' (take (length window - 1) window)
             (LittleEndianUint64 (drop (length window - 8) window))
      else fileid
  end.

(** The [A_fileid] and [A_mounted_on_fileid] case of [fileInfoToAttrs]:
    the value written for the filehandle [fh]. *)
Definition fileid (fh : list Z) : Z :=
  let window :=
    if (length fh <? 8)%nat then fh ++ replicate (8 - length fh) 0 else fh in
  let fileid := scan (length window) window 0 in
  if fileid =? 0 then u64 (fileid - 1) else fileid.

End FileIdAttr.

(** ** RENEW *)

Module Renewal.

Definition NFS4ERR_ACCESS : Z := 13.
Definition NFS4ERR_EXPIRED : Z := 10011.

(** [func (x *Compound) Renew(in, out Bytes) (uint32, error)], the case
    [msg.OP4_RENEW] of [doOperation]; [msg.RENEW4args] is one [uint64].
    [Clients.Get] stores the new last-seen time before the credentials
    are compared. *)
Definition Renew {World : Type} (now : Clock.Time) (s : Compound.State World)
    : option (Compound.HandlerOut World) :=
  let x := Compound.st_x s in
  let answer res cl inb :=
    Some (Compound.mkHandlerOut res (Compound.CurrentHandle x) (Compound.SavedHandle x)
            cl (Compound.st_world s) inb) in
  if Compound.MinorVer x >? 0 then
    answer (Compound.mkOpResult Msg.OP4_SETCLIENTID Msg.NFS4ERR_OP_ILLEGAL [])
           (Compound.st_clients s) (Compound.st_in s)
  else
    match Decoder.Uint64 (Compound.st_in s) with
    | None => None
    | Some (ClientId, rest) =>
        match Clients.Get (Compound.st_clients s) now ClientId with
        | (cl, None) =>
            answer (Compound.mkOpResult Msg.OP4_RENEW NFS4ERR_EXPIRED []) cl rest
        | (cl, Some client) =>
            if negb (Auth.Equal (Clients.Creds client) (Compound.Creds x)) then
              answer (Compound.mkOpResult Msg.OP4_RENEW NFS4ERR_ACCESS []) cl rest
            else
              answer (Compound.mkOpResult Msg.OP4_RENEW Msg.NFS4_OK []) cl rest
        end
    end.

(** A v4.0 request of one operation, RENEW of client 7, made with the
    credentials [creds], and a registry that holds the confirmed client 7
    of [Clients.sample_creds], last seen at time 0. *)
Definition sample_renew_request (creds : Auth.Creds) : Compound.State nat :=
  Compound.mkState
    (Compound.mkCompound (Msg.mkAuth 1 []) 0 [] 1 creds None None [] None)
    {[ 7 := Clients.sample_client true 1 ]} 0%nat
    (Xdr.be64 7).

End Renewal.

(** ** Muxv4: the procedures of the NFSv4 program *)

Module Mux.

Definition PROC4_VOID : Z := 0.
Definition PROC4_COMPOUND : Z := 1.
Definition MSG_ACCEPTED : Z := 0.
Definition MSG_DENIED : Z := 1.
Definition REJECT_AUTH_ERROR : Z := 1.
Definition AUTH_FLAVOR_NULL : Z := 0.
Definition NFS4ERR_MINOR_VERS_MISMATCH : Z := 10021.

Section Procedures.

Variable World : Type.
Variable handler : Z -> Compound.State World -> option (Compound.HandlerOut World).
Variable now : Clock.Time.

(** What a procedure returns to [Handle]: a reply with its data, and the
    registry and world it leaves; or no reply and an error. *)
Inductive handled :=
| Reply (reply : Rpc.RPCMsgReply) (data : Bufpool.Buf)
        (cl : gmap Z Clients.Client) (world : World)
| Failed.

(** [func (x *Muxv4) Void(header, data)]; the empty array [[0]byte{}]
    that ends the list is encoded as nothing. *)
Definition Void (header : Rpc.RPCMsgCall) (data : Bufpool.Buf)
    (cl : gmap Z Clients.Client) (world : World) : handled :=
  let data := Bufpool.Reset data in
  let data :=
    Xdr.EncodeAll [Xdr.VUint32 AUTH_FLAVOR_NULL; Xdr.VBytes [];
                   Xdr.VUint32 Msg.ACCEPT_SUCCESS] data in
  Reply (Rpc.mkRPCMsgReply (Rpc.Xid header) Rpc.RPC_REPLY MSG_ACCEPTED) data cl world.

(** [func (x *Muxv4) Compound(header, data)]; [pooled] is the buffer the
    call of [bufpool.Get] returns, and the decoder reads the unread bytes
    of [data]. *)
Definition Compound (header : Rpc.RPCMsgCall) (data pooled : Bufpool.Buf)
    (cl : gmap Z Clients.Client) (world : World) : handled :=
  match Authenticate.Authenticate (Rpc.Cred header) (Rpc.Verf header) with
  | Authenticate.AuthError code =>
      let data := Bufpool.Reset data in
      Reply (Rpc.mkRPCMsgReply (Rpc.Xid header) Rpc.RPC_REPLY MSG_DENIED)
            (Xdr.EncodeAll [Xdr.VUint32 REJECT_AUTH_ERROR; Xdr.VUint32 code] data)
            cl world
  | Authenticate.DecodeError => Failed
  | Authenticate.Accepted resp creds =>
      match Decoder.String (Bufpool.Bytes data) with
      | None => Failed
      | Some (tag, in1) =>
          match Decoder.Uint32 in1 with
          | None => Failed
          | Some (minorVer, in2) =>
              match Decoder.Uint32 in2 with
              | None => Failed
              | Some (opsCnt, in3) =>
                  if minorVer >? 2 then
                    let reply :=
                      Rpc.mkRPCMsgReply (Rpc.Xid header) Rpc.RPC_REPLY MSG_ACCEPTED in
                    let seq :=
                      [Xdr.VUint32 (Msg.Flavor resp); Xdr.VBytes (Msg.Body resp);
                       Xdr.VUint32 Msg.ACCEPT_SUCCESS;
                       Xdr.VUint32 NFS4ERR_MINOR_VERS_MISMATCH;
                       Xdr.VString tag;
                       Xdr.VUint32 0] in
                    Reply reply (Xdr.EncodeAll seq pooled) cl world
                  else
                    let compound :=
                      Compound.mkCompound resp minorVer tag opsCnt creds None None
                        (replicate 16 0) None in
                    match Compound.Run handler now
                            (Compound.mkState compound cl world in3) pooled with
                    | None => Failed
                    | Some (s, dataOut) =>
                        Reply (Rpc.mkRPCMsgReply (Rpc.Xid header) Rpc.RPC_REPLY MSG_ACCEPTED)
                              dataOut (Compound.st_clients s) (Compound.st_world s)
                    end
              end
          end
      end
  end.

(** [func (x *Muxv4) HandleProc(header, data)]. *)
Definition HandleProc (header : Rpc.RPCMsgCall) (data pooled : Bufpool.Buf)
    (cl : gmap Z Clients.Client) (world : World) : handled :=
  if Rpc.Proc header =? PROC4_VOID then Void header data cl world
  else if Rpc.Proc header =? PROC4_COMPOUND then Compound header data pooled cl world
  else Failed.

End Procedures.

Arguments Reply {World} _ _ _ _.
Arguments Failed {World}.
Arguments Void {World} _ _ _ _.
Arguments Compound {World} _ _ _ _ _ _ _.
Arguments HandleProc {World} _ _ _ _ _ _ _.

(** The arguments of a COMPOUND call: tag, minor version, number of
    operations, and the operations. *)
Definition compound_args (tag : list Z) (minorVer opsCnt : Z) (ops : list Z) : list Z :=
  Xdr.wire_all [Xdr.VString tag; Xdr.VUint32 minorVer; Xdr.VUint32 opsCnt] ++ ops.

(** A buffer that holds [p] unread. *)
Definition holding (p : list Z) : Bufpool.Buf :=
  Bufpool.mkBuf p 0 (length p).

(** A call of procedure [proc] with credentials of flavor [flavor]. *)
Definition sample_call (proc flavor : Z) : Rpc.RPCMsgCall :=
  Rpc.mkRPCMsgCall 77 Rpc.RPC_CALL 2 100003 4 proc
    (Msg.mkAuth flavor (Authenticate.body_of Clients.sample_creds)) (Msg.mkAuth 0 []).

(** A call of procedure [proc] with AUTH_NULL credentials and verifier,
    both with an empty body. *)
Definition null_call (proc : Z) : Rpc.RPCMsgCall :=
  Rpc.mkRPCMsgCall 1 Rpc.RPC_CALL 2 100003 4 proc
    (Msg.mkAuth AUTH_FLAVOR_NULL []) (Msg.mkAuth AUTH_FLAVOR_NULL []).

End Mux.

(** ** attrs.go: the table of supported attributes *)

Module AttrTables.

(** [var AttrsSupported = []int{ ... }], the attribute ids in the order
    of the source ([A_aclsupport] is listed twice). *)
Definition AttrsSupported : list Z :=
  [0; 1; 2; 3; 4; 5; 6; 7; 8; 9; 10; 13; 16; 17; 11; 18; 19; 20; 29; 30; 31;
   33; 34; 35; 36; 37; 41; 45; 47; 52; 53; 55; 75; 82; 12; 13].

(** [idxSupport := map[int]bool{}; for _, a := range AttrsSupported { idxSupport[a] = true }],
    the map [fileInfoToAttrs] passes to [bitmap4Encode] for the
    attributes [supported_attrs] and [suppattr_exclcreat]. *)
Definition idxSupport : gmap Z bool :=
  foldl (fun m a => <[a := true]> m) ∅ AttrsSupported.

End AttrTables.

(** * Theorems *)

(** ** File-id codec *)

Lemma shiftr32_range id : is_u64 id -> is_u32 (Z.shiftr id 32).
Proof.
  unfold is_u64, is_u32. intros [H0 H1].
  rewrite Z.shiftr_div_pow2 by lia. split.
  - apply Z.div_pos; lia.
  - apply Z.div_lt_upper_bound; [lia|].
    replace (2 ^ 32 * 2 ^ 32) with (2 ^ 64) by reflexivity. exact H1.
Qed.

(** C9: for every 64-bit file-id and every client sequence id,
    [FileID (FileOther id seq) = id]; the first word of [other] holds
    the high 32 bits, the second the low 32 bits (big-endian word
    order), the third the client sequence id. *)
Theorem FileID_FileOther (id seq : Z) (Hid : is_u64 id) :
  FileID (FileOther id seq) = id
  /\ is_u32 (other0 (FileOther id seq))
  /\ is_u32 (other1 (FileOther id seq))
  /\ other0 (FileOther id seq) * 2 ^ 32 + other1 (FileOther id seq) = id
  /\ other2 (FileOther id seq) = seq.
Proof.
  pose proof (shiftr32_range id Hid) as Hhi.
  assert (Hsplit : Z.shiftr id 32 * 2 ^ 32 + u32 id = id).
  { rewrite Z.shiftr_div_pow2 by lia. unfold u32.
    pose proof (Z.div_mod id (2 ^ 32)). lia. }
  unfold FileID, FileOther; simpl.
  rewrite (u32_id (Z.shiftr id 32)) by exact Hhi.
  pose proof (u32_range id) as Hlo.
  assert (Hhi64 : is_u64 (Z.shiftr id 32)) by (unfold is_u32, is_u64 in *; lia).
  assert (Hlo64 : is_u64 (u32 id)) by (unfold is_u32, is_u64 in *; lia).
  rewrite (u64_id (Z.shiftr id 32)) by exact Hhi64.
  rewrite (u64_id (u32 id)) by exact Hlo64.
  rewrite Z.shiftl_mul_pow2 by lia.
  rewrite u64_add_idemp, Hsplit.
  repeat split; try (apply Hhi); try (apply Hlo); auto using u64_id.
Qed.

Lemma FileID_FileOther_witness :
  FileID (FileOther 81985529216486895 7) = 81985529216486895
  /\ is_u32 (other0 (FileOther 81985529216486895 7))
  /\ is_u32 (other1 (FileOther 81985529216486895 7))
  /\ other0 (FileOther 81985529216486895 7) * 2 ^ 32
     + other1 (FileOther 81985529216486895 7) = 81985529216486895
  /\ other2 (FileOther 81985529216486895 7) = 7.
Proof. apply (FileID_FileOther 81985529216486895 7). unfold is_u64. lia. Defined.

(** ** Clock *)

(** What the code does: the cached time, moved one second ahead only when
    it lies strictly before [prev]. *)
Lemma MustIncrement_cases (c : Clock.Clock) (prev : Clock.Time) :
  (Clock.now c < prev -> Clock.MustIncrement c prev = Clock.now c + Clock.Second)
  /\ (prev <= Clock.now c -> Clock.MustIncrement c prev = Clock.now c).
Proof.
  unfold Clock.MustIncrement. split; intros H.
  - destruct (Z.ltb_spec (Clock.now c) prev); [reflexivity | lia].
  - destruct (Z.ltb_spec (Clock.now c) prev); [lia | reflexivity].
Qed.

(** C7: at a cached time equal to the previous timestamp the clock
    returns that same instant: not [max now (prev + 1s)], and not later
    than [prev], which the function's documentation promises. *)
Theorem MustIncrement_equal_times :
  let c := Clock.mkClock (1700000000 * Clock.Second) in
  let prev := 1700000000 * Clock.Second in
  Clock.MustIncrement c prev = prev
  /\ Z.max (Clock.now c) (prev + Clock.Second) = prev + Clock.Second
  /\ ~ (prev < Clock.MustIncrement c prev).
Proof. vm_compute. repeat split; intros H; discriminate H. Qed.

(** A cached time far behind [prev] is advanced by one second only, and
    stays before [prev]. *)
Example MustIncrement_far_behind :
  Clock.MustIncrement (Clock.mkClock 0) (5 * Clock.Second) = Clock.Second.
Proof. reflexivity. Qed.

(** ** The change attribute *)

(** C6 as stated fails: the factor is [math.MaxUint32 = 2^32 - 1]. *)
Lemma changeid_not_shift :
  Attrs.changeid 1 0 0 = 4294967295
  /\ Attrs.changeid 1 0 0 <> u64 (1 * 2 ^ 32 + 0 + 0).
Proof. vm_compute. split; [reflexivity | intros H; discriminate H]. Qed.

(** C6, amended: the change attribute is
    [unix(m) * (2^32 - 1) + u + s] in 64-bit modular arithmetic. *)
Theorem changeid_value (unix uid sessionID : Z) :
  Attrs.changeid unix uid sessionID
  = (unix * (2 ^ 32 - 1) + uid + sessionID) mod 2 ^ 64.
Proof.
  unfold Attrs.changeid.
  rewrite (u64_id Attrs.MaxUint32) by (unfold is_u64, Attrs.MaxUint32; lia).
  set (M := 2 ^ 64).
  assert (HM : M <> 0) by (unfold M; lia).
  unfold u64. fold M.
  rewrite Zplus_mod_idemp_l.
  rewrite (Z.add_comm _ (uid mod M)), <- Z.add_assoc, Zplus_mod_idemp_l.
  rewrite (Z.add_comm uid), <- Z.add_assoc, Zplus_mod_idemp_l.
  rewrite <- (Zplus_mod_idemp_l (unix mod M * Attrs.MaxUint32)).
  rewrite Zmult_mod_idemp_l, Zplus_mod_idemp_l.
  f_equal. unfold Attrs.MaxUint32. lia.
Qed.

(** ** Credential equality *)

Section SortCompact.
Import Auth.

Lemma slices_Equal_eq (a b : list Z) : slices_Equal a b = true <-> a = b.
Proof.
  revert b. induction a as [|x a IH]; intros [|y b]; simpl; split; intros H;
    try reflexivity; try discriminate.
  - apply andb_true_iff in H as [Hxy Hab].
    apply Z.eqb_eq in Hxy. apply IH in Hab. congruence.
  - injection H as -> ->. apply andb_true_iff. split.
    + apply Z.eqb_refl.
    + apply IH. reflexivity.
Qed.

Lemma slices_Equal_refl (a : list Z) : slices_Equal a a = true.
Proof. apply slices_Equal_eq. reflexivity. Qed.

Lemma slices_Equal_sym (a b : list Z) : slices_Equal a b = slices_Equal b a.
Proof.
  destruct (slices_Equal a b) eqn:E1, (slices_Equal b a) eqn:E2; try reflexivity.
  - apply slices_Equal_eq in E1. subst b.
    rewrite slices_Equal_refl in E2. discriminate.
  - apply slices_Equal_eq in E2. subst b.
    rewrite slices_Equal_refl in E1. discriminate.
Qed.

Lemma In_insert_sorted x y l : In y (insert_sorted x l) <-> y = x \/ In y l.
Proof.
  induction l as [|z l IH]; simpl.
  - intuition.
  - destruct (x <=? z); simpl; intuition.
Qed.

Lemma In_slices_Sort y l : In y (slices_Sort l) <-> In y l.
Proof.
  induction l as [|x l IH]; simpl; [tauto|].
  rewrite In_insert_sorted, IH. intuition.
Qed.

Lemma asc_insert_sorted x l : asc l -> asc (insert_sorted x l).
Proof.
  induction 1 as [|y|y z l Hyz Hasc IH]; simpl.
  - constructor.
  - destruct (Z.leb_spec x y); constructor; try lia; constructor.
  - simpl in IH. destruct (Z.leb_spec x y).
    + constructor; [lia|]. constructor; assumption.
    + destruct (Z.leb_spec x z).
      * constructor; [lia|]. constructor; [lia | assumption].
      * constructor; assumption.
Qed.

Lemma asc_slices_Sort l : asc (slices_Sort l).
Proof.
  induction l as [|x l IH]; simpl; [constructor|].
  apply asc_insert_sorted, IH.
Qed.

Lemma length_insert_sorted x l : length (insert_sorted x l) = S (length l).
Proof.
  induction l as [|y l IH]; simpl; [reflexivity|].
  destruct (x <=? y); simpl; congruence.
Qed.

Lemma asc_tail x l : asc (x :: l) -> asc l.
Proof. inversion 1; subst; [constructor | assumption]. Qed.

Lemma In_slices_Compact y l : In y (slices_Compact l) <-> In y l.
Proof.
  induction l as [|x l IH]; [simpl; tauto|].
  destruct l as [|z l]; [simpl; tauto|].
  change (slices_Compact (x :: z :: l))
    with (if x =? z then slices_Compact (z :: l) else x :: slices_Compact (z :: l)).
  destruct (Z.eqb_spec x z) as [->|Hne].
  - rewrite IH. simpl. tauto.
  - simpl In at 1. rewrite IH. simpl. tauto.
Qed.

Lemma slices_Compact_head x l :
  exists t, slices_Compact (x :: l) = x :: t.
Proof.
  revert x. induction l as [|z l IH]; intros x.
  - exists []. reflexivity.
  - change (slices_Compact (x :: z :: l))
      with (if x =? z then slices_Compact (z :: l) else x :: slices_Compact (z :: l)).
    destruct (Z.eqb_spec x z) as [->|Hne].
    + apply IH.
    + eexists. reflexivity.
Qed.

Lemma strict_asc_slices_Compact l : asc l -> strict_asc (slices_Compact l).
Proof.
  induction 1 as [|x|x y l Hxy Hasc IH].
  - constructor.
  - constructor.
  - change (slices_Compact (x :: y :: l))
      with (if x =? y then slices_Compact (y :: l) else x :: slices_Compact (y :: l)).
    destruct (Z.eqb_spec x y) as [->|Hne]; [exact IH|].
    destruct (slices_Compact_head y l) as [t Ht].
    rewrite Ht in IH |- *. constructor; [lia | exact IH].
Qed.

Lemma strict_asc_lower x l : strict_asc (x :: l) -> forall y, In y l -> x < y.
Proof.
  revert x. induction l as [|z l IH]; intros x H y Hy; [destruct Hy|].
  inversion H; subst. destruct Hy as [->|Hy]; [assumption|].
  specialize (IH z H4 y Hy). lia.
Qed.

Lemma strict_asc_tail x l : strict_asc (x :: l) -> strict_asc l.
Proof. inversion 1; subst; [constructor | assumption]. Qed.

(** Two strictly ascending lists with the same elements are equal. *)
Lemma strict_asc_ext l1 l2 :
  strict_asc l1 -> strict_asc l2 ->
  (forall y, In y l1 <-> In y l2) -> l1 = l2.
Proof.
  revert l2. induction l1 as [|x l1 IH]; intros [|z l2] H1 H2 Hin.
  - reflexivity.
  - exfalso. apply (proj2 (Hin z)). left. reflexivity.
  - exfalso. apply (proj1 (Hin x)). left. reflexivity.
  - pose proof (strict_asc_lower _ _ H1) as L1.
    pose proof (strict_asc_lower _ _ H2) as L2.
    assert (x = z) as ->.
    { destruct (proj1 (Hin x) (or_introl eq_refl)) as [E|E]; [congruence|].
      destruct (proj2 (Hin z) (or_introl eq_refl)) as [E'|E']; [congruence|].
      specialize (L1 _ E'). specialize (L2 _ E). lia. }
    f_equal. apply IH.
    + eapply strict_asc_tail; eassumption.
    + eapply strict_asc_tail; eassumption.
    + intros y. split; intros Hy.
      * destruct (proj1 (Hin y) (or_intror Hy)) as [E|E]; [|exact E].
        subst y. specialize (L1 _ Hy). lia.
      * destruct (proj2 (Hin y) (or_intror Hy)) as [E|E]; [|exact E].
        subst y. specialize (L2 _ Hy). lia.
Qed.

(** Sorting and compacting yields a canonical form of the element set. *)
Lemma canonical_groups (l1 l2 : list Z) :
  slices_Compact (slices_Sort l1) = slices_Compact (slices_Sort l2)
  <-> (forall y, In y l1 <-> In y l2).
Proof.
  split.
  - intros E y.
    rewrite <- (In_slices_Sort y l1), <- (In_slices_Sort y l2).
    rewrite <- (In_slices_Compact y (slices_Sort l1)).
    rewrite <- (In_slices_Compact y (slices_Sort l2)).
    rewrite E. tauto.
  - intros Hin. apply strict_asc_ext.
    + apply strict_asc_slices_Compact, asc_slices_Sort.
    + apply strict_asc_slices_Compact, asc_slices_Sort.
    + intros y. rewrite !In_slices_Compact, !In_slices_Sort. apply Hin.
Qed.

End SortCompact.

Section CredsEqual.
Import Auth.

Lemma Equal_slow_path (a b : Creds) :
  slices_Equal (AdditionalGroups a) (AdditionalGroups b) = false ->
  Equal a b = true <->
  (-1 <= len_gap a b <= 1) /\ UID a = UID b /\ same_group_set a b.
Proof.
  intros Hne. unfold Equal. rewrite Hne. fold (len_gap a b). cbv zeta.
  change (GID a :: AdditionalGroups a) with (groups a).
  change (GID b :: AdditionalGroups b) with (groups b).
  destruct (Z.gtb_spec (len_gap a b) 1) as [Hgt|Hle]; cbn [orb].
  { split; [discriminate | lia]. }
  destruct (Z.ltb_spec (len_gap a b) (-1)) as [Hlt|Hge]; cbn [orb].
  { split; [discriminate | lia]. }
  rewrite andb_true_iff, Z.eqb_eq, slices_Equal_eq.
  rewrite canonical_groups. unfold same_group_set. intuition lia.
Qed.

Lemma Equal_fast_path (a b : Creds) :
  slices_Equal (AdditionalGroups a) (AdditionalGroups b) = true ->
  Equal a b = (UID a =? UID b).
Proof. intros H. unfold Equal. rewrite H. reflexivity. Qed.

Lemma Equal_refl (a : Creds) : Equal a a = true.
Proof.
  rewrite Equal_fast_path by apply slices_Equal_refl. apply Z.eqb_refl.
Qed.

Lemma same_group_set_sym (a b : Creds) : same_group_set a b -> same_group_set b a.
Proof. unfold same_group_set. intros H g. symmetry. apply H. Qed.

Lemma Equal_sym (a b : Creds) : Equal a b = Equal b a.
Proof.
  destruct (slices_Equal (AdditionalGroups a) (AdditionalGroups b)) eqn:E.
  - rewrite (Equal_fast_path a b E).
    rewrite slices_Equal_sym in E. rewrite (Equal_fast_path b a E).
    apply Z.eqb_sym.
  - pose proof (Equal_slow_path a b E) as Hab.
    rewrite slices_Equal_sym in E.
    pose proof (Equal_slow_path b a E) as Hba.
    assert (Hgap : len_gap b a = - len_gap a b) by (unfold len_gap; lia).
    destruct (Equal a b) eqn:Eab, (Equal b a) eqn:Eba; try reflexivity.
    + destruct (proj1 Hab eq_refl) as (Hg & Hu & Hs).
      assert (false = true) as X; [|discriminate X].
      apply Hba. split; [lia|]. split; [lia|]. apply same_group_set_sym, Hs.
    + destruct (proj1 Hba eq_refl) as (Hg & Hu & Hs).
      assert (false = true) as X; [|discriminate X].
      apply Hab. split; [lia|]. split; [lia|]. apply same_group_set_sym, Hs.
Qed.

(** C1 as stated fails in both directions.  Two tuples with the same uid
    and the same group set whose additional-groups lists differ in length
    by more than one are not equal; and two tuples with identical
    additional-groups lists are equal whatever their GIDs. *)
Lemma Equal_is_not_group_set_equality :
  (let a := mkCreds 0 "h" 1000 100 [4; 4; 4] in
   let b := mkCreds 0 "h" 1000 100 [4] in
   UID a = UID b /\ same_group_set a b /\ Equal a b = false)
  /\
  (let a := mkCreds 0 "h" 1000 100 [4] in
   let b := mkCreds 0 "h" 1000 200 [4] in
   Equal a b = true /\ ~ same_group_set a b).
Proof.
  split; simpl.
  - split; [reflexivity|]. split; [|reflexivity].
    intros g. simpl. tauto.
  - split; [reflexivity|]. intros H.
    destruct (proj1 (H 100) (or_introl eq_refl)) as [E|[E|[]]]; discriminate E.
Qed.

(** C1, amended: [Equal] is reflexive and symmetric; tuples with the same
    uid and the same group set whose additional-groups lists differ in
    length by at most one are equal; equal tuples have the same uid and
    lengths at most one apart, and, when their additional-groups lists
    differ, the same group set; a tuple whose GID is repeated in its
    additional groups equals the one listing it once. *)
Theorem Equal_characterisation :
  (forall a, Equal a a = true)
  /\ (forall a b, Equal a b = Equal b a)
  /\ (forall a b, UID a = UID b -> same_group_set a b ->
                 -1 <= len_gap a b <= 1 -> Equal a b = true)
  /\ (forall a b, Equal a b = true ->
                 UID a = UID b /\ -1 <= len_gap a b <= 1)
  /\ (forall a b, Equal a b = true ->
                 AdditionalGroups a <> AdditionalGroups b -> same_group_set a b)
  /\ (forall e1 h1 e2 h2 uid gid pre post,
        Equal (mkCreds e1 h1 uid gid (pre ++ gid :: post))
              (mkCreds e2 h2 uid gid (pre ++ post)) = true).
Proof.
  assert (Hsuff : forall a b, UID a = UID b -> same_group_set a b ->
                 -1 <= len_gap a b <= 1 -> Equal a b = true).
  { intros a b Hu Hs Hg.
    destruct (slices_Equal (AdditionalGroups a) (AdditionalGroups b)) eqn:E.
    - rewrite (Equal_fast_path a b E). apply Z.eqb_eq, Hu.
    - apply (Equal_slow_path a b E). auto. }
  split; [exact Equal_refl|]. split; [exact Equal_sym|].
  split; [exact Hsuff|]. split; [|split].
  - intros a b H.
    destruct (slices_Equal (AdditionalGroups a) (AdditionalGroups b)) eqn:E.
    + rewrite (Equal_fast_path a b E) in H. apply Z.eqb_eq in H.
      apply slices_Equal_eq in E. unfold len_gap. rewrite E. lia.
    + apply (Equal_slow_path a b E) in H. tauto.
  - intros a b H Hne.
    destruct (slices_Equal (AdditionalGroups a) (AdditionalGroups b)) eqn:E.
    + apply slices_Equal_eq in E. contradiction.
    + apply (Equal_slow_path a b E) in H. tauto.
  - intros e1 h1 e2 h2 uid gid pre post. apply Hsuff.
    + reflexivity.
    + intros g. unfold groups; simpl. rewrite !in_app_iff. simpl. tauto.
    + unfold len_gap; simpl. rewrite !length_app. simpl. lia.
Qed.

Lemma Equal_characterisation_witness :
  Equal (mkCreds 0 "a" 1000 100 [100; 4; 24]) (mkCreds 0 "b" 1000 100 [24; 4]) = true.
Proof.
  apply (proj1 (proj2 (proj2 Equal_characterisation))).
  - reflexivity.
  - intros g. simpl. tauto.
  - unfold len_gap. simpl. lia.
Defined.

End CredsEqual.

(** ** Attribute bitmaps *)

Example bitmap4Encode_mode :
  Bitmap.bitmap4Encode {[33 := true]} = Some [0; 2].
Proof. vm_compute. reflexivity. Qed.

Example bitmap4Decode_mode :
  Bitmap.bitmap4Decode [0; 2] !! 33 = Some true
  /\ Bitmap.bitmap4Decode [0; 2] !! 34 = Some false.
Proof. vm_compute. split; reflexivity. Qed.

Section BitmapRoundTrip.
Import Bitmap.

Lemma bit_mask (j v : Z) :
  0 <= j < 32 ->
  (Z.land (u32 (Z.shiftl 1 j)) v =? u32 (Z.shiftl 1 j)) = Z.testbit v j.
Proof.
  intros Hj. rewrite Z.shiftl_1_l.
  assert (Hpow : 0 < 2 ^ j < 2 ^ 32).
  { split; [apply Z.pow_pos_nonneg; lia | apply Z.pow_lt_mono_r; lia]. }
  rewrite u32_id by (unfold is_u32; lia).
  destruct (Z.testbit v j) eqn:Hb.
  - apply Z.eqb_eq. apply Z.bits_inj'. intros n Hn.
    rewrite Z.land_spec, Z.pow2_bits_eqb by lia.
    destruct (Z.eqb_spec j n) as [->|]; [rewrite Hb|]; reflexivity.
  - apply Z.eqb_neq. intros E.
    assert (X : Z.testbit (Z.land (2 ^ j) v) j = Z.testbit (2 ^ j) j) by (rewrite E; reflexivity).
    rewrite Z.land_spec, Hb, Z.pow2_bits_eqb, Z.eqb_refl in X by lia.
    rewrite andb_false_r in X. discriminate X.
Qed.

Lemma decode_word_lookup (i v : Z) (n : nat) :
  forall (x : gmap Z bool) (k : Z),
    (Z.of_nat n <= 32) ->
    decode_word i v n x !! k
    = if decide (32 * i <= k < 32 * i + Z.of_nat n)
      then Some (Z.testbit v (k - 32 * i))
      else x !! k.
Proof.
  induction n as [|n IH]; intros x k Hn.
  - simpl. destruct (decide _) as [H|H]; [lia | reflexivity].
  - cbn [decode_word]. rewrite IH by lia.
    destruct (decide (32 * i <= k < 32 * i + Z.of_nat n)) as [H1|H1].
    + destruct (decide (32 * i <= k < 32 * i + Z.of_nat (S n))) as [H2|H2];
        [reflexivity | lia].
    + destruct (decide (32 * i <= k < 32 * i + Z.of_nat (S n))) as [H2|H2].
      * assert (k = 32 * i + Z.of_nat n) as -> by lia.
        rewrite lookup_insert_eq. rewrite bit_mask by lia.
        do 2 f_equal. lia.
      * rewrite lookup_insert_ne by lia. reflexivity.
Qed.

Lemma decode_words_lookup (nums : list Z) :
  forall (i : Z) (x : gmap Z bool) (k : Z),
    decode_words i nums x !! k
    = if decide (32 * i <= k < 32 * i + 32 * Z.of_nat (length nums))
      then Some (Z.testbit (default 0 (nums !! Z.to_nat ((k - 32 * i) / 32)))
                           ((k - 32 * i) mod 32))
      else x !! k.
Proof.
  induction nums as [|v nums IH]; intros i x k.
  - simpl. destruct (decide _) as [H|H]; [lia | reflexivity].
  - cbn [decode_words length]. rewrite Nat2Z.inj_succ.
    rewrite IH, decode_word_lookup by lia.
    change (Z.of_nat 32) with 32.
    destruct (decide (32 * (i + 1) <= k < 32 * (i + 1) + 32 * Z.of_nat (length nums)))
      as [H1|H1].
    + destruct (decide _) as [H2|H2]; [|lia].
      assert (Hq : (k - 32 * i) / 32 = (k - 32 * (i + 1)) / 32 + 1).
      { replace (k - 32 * i) with ((k - 32 * (i + 1)) + 1 * 32) by lia.
        rewrite Z.div_add by lia. reflexivity. }
      assert (Hm : (k - 32 * i) mod 32 = (k - 32 * (i + 1)) mod 32).
      { replace (k - 32 * i) with ((k - 32 * (i + 1)) + 1 * 32) by lia.
        rewrite Z.mod_add by lia. reflexivity. }
      rewrite Hq, Hm.
      assert (Hge : 0 <= (k - 32 * (i + 1)) / 32) by (apply Z.div_pos; lia).
      rewrite Z2Nat.inj_add by lia.
      replace (Z.to_nat 1) with 1%nat by reflexivity.
      rewrite Nat.add_1_r. reflexivity.
    + destruct (decide (32 * i <= k < 32 * i + 32)) as [H2|H2].
      * destruct (decide _) as [H3|H3]; [|lia].
        rewrite Z.div_small, Z.mod_small by lia. reflexivity.
      * destruct (decide _) as [H3|H3]; [lia | reflexivity].
Qed.

(** What decoding yields: the bits of the words, for every id below 32
    times the number of words. *)
Lemma bitmap4Decode_lookup (nums : list Z) (k : Z) :
  bitmap4Decode nums !! k
  = if decide (0 <= k < 32 * Z.of_nat (length nums))
    then Some (getbit nums k) else None.
Proof.
  unfold bitmap4Decode. rewrite decode_words_lookup.
  replace (k - 32 * 0) with k by lia. unfold getbit.
  destruct (decide (32 * 0 <= k < 32 * 0 + 32 * Z.of_nat (length nums))),
           (decide (0 <= k < 32 * Z.of_nat (length nums))); try lia; reflexivity.
Qed.

Lemma set_bit_spec (rs rs' : list Z) (v : Z) (on : bool) :
  set_bit rs v on = Some rs' ->
  length rs' = length rs
  /\ (on = true -> 0 <= v < 32 * Z.of_nat (length rs))
  /\ (forall k, 0 <= k -> getbit rs' k = getbit rs k || (on && (v =? k))).
Proof.
  unfold set_bit. destruct on; cbn [negb andb].
  2:{ intros [= <-]. split; [reflexivity|]. split; [discriminate|].
      intros k _. rewrite orb_false_r. reflexivity. }
  destruct (Z.ltb_spec (Z.rem v 32) 0) as [|Hj]; [discriminate|].
  destruct (Z.ltb_spec (Z.quot v 32) 0) as [|Hi]; [discriminate|]. cbn [orb].
  destruct (Z.leb_spec (Z.of_nat (length rs)) (Z.quot v 32)) as [|Hlen]; [discriminate|].
  intros [= <-].
  assert (Hv : 0 <= v) by (pose proof (Z.quot_rem' v 32); lia).
  rewrite Z.quot_div_nonneg in * by lia. rewrite Z.rem_mod_nonneg in * by lia.
  pose proof (Z.mod_pos_bound v 32 ltac:(lia)) as Hm.
  pose proof (Z.div_mod v 32 ltac:(lia)) as Hdm.
  split; [apply length_insert|]. split; [intros _; lia|].
  intros k Hk. unfold getbit.
  destruct (decide (k / 32 = v / 32)) as [E|E].
  - rewrite E, list_lookup_insert_eq by lia. cbn [default from_option]. unfold id.
    rewrite Z.lor_spec. f_equal.
    rewrite Z.shiftl_1_l.
    assert (Hpow : 0 < 2 ^ (v mod 32) < 2 ^ 32).
    { split; [apply Z.pow_pos_nonneg; lia | apply Z.pow_lt_mono_r; lia]. }
    rewrite u32_id by (unfold is_u32; lia).
    rewrite Z.pow2_bits_eqb by lia.
    pose proof (Z.div_mod k 32 ltac:(lia)) as Hdk.
    destruct (Z.eqb_spec (v mod 32) (k mod 32)), (Z.eqb_spec v k); try reflexivity; lia.
  - rewrite list_lookup_insert_ne.
    2:{ assert (0 <= k / 32) by (apply Z.div_pos; lia).
        intros X. apply Z2Nat.inj in X; lia. }
    destruct (Z.eqb_spec v k) as [->|]; [contradiction|].
    rewrite orb_false_r. reflexivity.
Qed.

Lemma set_bits_spec (entries : list (Z * bool)) :
  forall rs rs',
    set_bits rs entries = Some rs' ->
    length rs' = length rs
    /\ (forall v, (v, true) ∈ entries -> 0 <= v < 32 * Z.of_nat (length rs))
    /\ (forall k, 0 <= k -> getbit rs' k = getbit rs k || marks entries k).
Proof.
  induction entries as [|[v on] entries IH]; intros rs rs' H.
  - injection H as <-. split; [reflexivity|]. split.
    + intros v Hin. apply elem_of_nil in Hin. destruct Hin.
    + intros k _. simpl. rewrite orb_false_r. reflexivity.
  - cbn [set_bits] in H.
    destruct (set_bit rs v on) as [rs1|] eqn:E1; [|discriminate H].
    destruct (set_bit_spec _ _ _ _ E1) as (L1 & R1 & B1).
    destruct (IH _ _ H) as (L2 & R2 & B2).
    split; [congruence|]. split.
    + intros v' Hin. apply elem_of_cons in Hin as [[= -> <-]|Hin].
      * apply R1. reflexivity.
      * rewrite <- L1. apply R2, Hin.
    + intros k Hk. rewrite B2, B1 by exact Hk.
      cbn [marks existsb fst snd]. rewrite orb_assoc. reflexivity.
Qed.

Lemma marks_true (entries : list (Z * bool)) (k : Z) :
  marks entries k = true <-> (k, true) ∈ entries.
Proof.
  unfold marks. rewrite existsb_exists. split.
  - intros [[v on] [Hin H]]. cbn [fst snd] in H.
    apply andb_true_iff in H as [-> H]. apply Z.eqb_eq in H. subst v.
    apply list_elem_of_In, Hin.
  - intros Hin. exists (k, true). split; [apply list_elem_of_In, Hin|].
    cbn [fst snd]. rewrite Z.eqb_refl. reflexivity.
Qed.

Lemma getbit_zeros (n : nat) (k : Z) : getbit (replicate n 0) k = false.
Proof.
  unfold getbit. destruct (replicate n 0 !! Z.to_nat (k / 32)) as [z|] eqn:E.
  - apply lookup_replicate in E as [-> _]. apply Z.testbit_0_l.
  - apply Z.testbit_0_l.
Qed.

(** Whenever [bitmap4Encode] returns, decoding its result marks exactly
    the ids the map marks as present. *)
Lemma bitmap4_round_trip (b : gmap Z bool) (rs : list Z) :
  bitmap4Encode b = Some rs ->
  forall k, present (bitmap4Decode rs) k <-> present b k.
Proof.
  unfold bitmap4Encode. intros H k.
  destruct (set_bits_spec _ _ _ H) as (L & R & B).
  rewrite length_replicate in L, R.
  unfold present. rewrite bitmap4Decode_lookup, L.
  rewrite <- (elem_of_map_to_list b k true). rewrite <- marks_true.
  destruct (decide (0 <= k < 32 * Z.of_nat (Z.to_nat (size b)))) as [Hk|Hk].
  - rewrite B, getbit_zeros by lia. cbn [orb]. split; congruence.
  - split; [discriminate|]. intros Hm. apply marks_true in Hm.
    specialize (R k Hm). lia.
Qed.

(** Go ranges over a map in no fixed order; the outcome of the second
    loop of [bitmap4Encode] does not depend on it. *)
Lemma set_bit_comm (rs : list Z) (a b : Z) (oa ob : bool) :
  (set_bit rs a oa ≫= fun r => set_bit r b ob)
  = (set_bit rs b ob ≫= fun r => set_bit r a oa).
Proof.
  unfold set_bit.
  destruct oa, ob; cbv beta zeta iota delta [mbind option_bind negb];
    try reflexivity.
  - destruct (Z.rem a 32 <? 0) eqn:Ea; cbv beta iota.
    { destruct (Z.rem b 32 <? 0); cbv beta iota; [reflexivity|].
      destruct ((Z.quot b 32 <? 0) || (Z.of_nat (length rs) <=? Z.quot b 32));
        cbv beta iota; [reflexivity|].
      reflexivity. }
    destruct ((Z.quot a 32 <? 0) || (Z.of_nat (length rs) <=? Z.quot a 32)) eqn:Ia;
      cbv beta iota.
    { destruct (Z.rem b 32 <? 0); cbv beta iota; [reflexivity|].
      destruct ((Z.quot b 32 <? 0) || (Z.of_nat (length rs) <=? Z.quot b 32));
        cbv beta iota; [reflexivity|].
      rewrite length_insert, Ia. reflexivity. }
    destruct (Z.rem b 32 <? 0) eqn:Eb; cbv beta iota; [reflexivity|].
    rewrite length_insert.
    destruct ((Z.quot b 32 <? 0) || (Z.of_nat (length rs) <=? Z.quot b 32)) eqn:Ib;
      cbv beta iota; [reflexivity|].
    rewrite length_insert, Ia. f_equal.
    apply orb_false_iff in Ia as [Ia1 Ia2]. apply orb_false_iff in Ib as [Ib1 Ib2].
    apply Z.ltb_ge in Ia1, Ib1. apply Z.leb_gt in Ia2, Ib2.
    destruct (decide (Z.to_nat (Z.quot a 32) = Z.to_nat (Z.quot b 32))) as [E|E].
    + rewrite E. rewrite !list_lookup_insert_eq by lia. cbn [default from_option]. unfold id.
      rewrite !list_insert_insert_eq. f_equal.
      rewrite <- !Z.lor_assoc. f_equal. apply Z.lor_comm.
    + rewrite list_lookup_insert_ne by exact E.
      rewrite list_lookup_insert_ne by (intros X; apply E; symmetry; exact X).
      apply list_insert_insert_ne. intros X; apply E; symmetry; exact X.
  - destruct (Z.rem a 32 <? 0); cbv beta iota; [reflexivity|].
    destruct ((Z.quot a 32 <? 0) || (Z.of_nat (length rs) <=? Z.quot a 32));
      reflexivity.
  - destruct (Z.rem b 32 <? 0); cbv beta iota; [reflexivity|].
    destruct ((Z.quot b 32 <? 0) || (Z.of_nat (length rs) <=? Z.quot b 32));
      reflexivity.
Qed.

Lemma set_bits_cons (rs : list Z) (v : Z) (on : bool) (entries : list (Z * bool)) :
  set_bits rs ((v, on) :: entries) = set_bit rs v on ≫= fun r => set_bits r entries.
Proof. cbn [set_bits]. destruct (set_bit rs v on); reflexivity. Qed.

Lemma set_bits_Permutation (e1 e2 : list (Z * bool)) :
  e1 ≡ₚ e2 -> forall rs, set_bits rs e1 = set_bits rs e2.
Proof.
  induction 1 as [|[v on] l l' _ IH|[a oa] [b ob] l|l l' l'' _ IH1 _ IH2]; intros rs.
  - reflexivity.
  - rewrite !set_bits_cons. destruct (set_bit rs v on); cbn [mbind option_bind]; [apply IH | reflexivity].
  - rewrite !set_bits_cons.
    transitivity ((set_bit rs b ob ≫= fun r => set_bit r a oa)
                    ≫= fun r => set_bits r l).
    + destruct (set_bit rs b ob) as [r1|]; cbn [mbind option_bind]; [|reflexivity].
      rewrite set_bits_cons. reflexivity.
    + rewrite <- set_bit_comm.
      destruct (set_bit rs a oa) as [r1|]; cbn [mbind option_bind]; [|reflexivity].
      rewrite set_bits_cons. reflexivity.
  - rewrite IH1. apply IH2.
Qed.

Lemma foldl_max_spec (l : list (Z * bool)) :
  forall a,
    let m := foldl (fun m kv => if fst kv >? m then fst kv else m) a l in
    a <= m
    /\ (forall kv, kv ∈ l -> fst kv <= m)
    /\ (m = a \/ exists kv, kv ∈ l /\ fst kv = m).
Proof.
  induction l as [|kv l IH]; intros a; cbn [foldl].
  - split; [lia|]. split; [|left; reflexivity].
    intros kv Hin. apply elem_of_nil in Hin. destruct Hin.
  - specialize (IH (if fst kv >? a then fst kv else a)).
    cbv zeta in *. destruct IH as (Hle & Hall & Hex).
    destruct (Z.gtb_spec (fst kv) a) as [Hgt|Hngt].
    + split; [lia|]. split.
      * intros kv' Hin. apply elem_of_cons in Hin as [->|Hin]; [exact Hle | apply Hall, Hin].
      * right. destruct Hex as [->|(kv' & Hin & E)].
        -- exists kv. split; [apply elem_of_cons; left; reflexivity | reflexivity].
        -- exists kv'. split; [apply elem_of_cons; right; exact Hin | exact E].
    + split; [lia|]. split.
      * intros kv' Hin. apply elem_of_cons in Hin as [->|Hin]; [lia | apply Hall, Hin].
      * destruct Hex as [->|(kv' & Hin & E)]; [left; reflexivity|].
        right. exists kv'. split; [apply elem_of_cons; right; exact Hin | exact E].
Qed.

(** [maxInt] is the largest key of the map, or 0 when no key is positive:
    it does not depend on the order of the range either. *)
Lemma maxInt_spec (x : gmap Z bool) :
  0 <= maxInt x
  /\ (forall k v, x !! k = Some v -> k <= maxInt x)
  /\ (maxInt x = 0 \/ is_Some (x !! maxInt x)).
Proof.
  unfold maxInt. destruct (foldl_max_spec (map_to_list x) 0) as (Hle & Hall & Hex).
  split; [exact Hle|]. split.
  - intros k v Hk. apply (Hall (k, v)). apply elem_of_map_to_list. exact Hk.
  - destruct Hex as [->|([k v] & Hin & E)]; [left; reflexivity|].
    right. apply elem_of_map_to_list in Hin. cbn [fst] in E. rewrite <- E. eauto.
Qed.

Lemma set_bit_in_range (rs : list Z) (v : Z) (on : bool) :
  (on = true -> 0 <= v < 32 * Z.of_nat (length rs)) ->
  exists rs', set_bit rs v on = Some rs'.
Proof.
  intros H. unfold set_bit. destruct on; cbn [negb]; [|eexists; reflexivity].
  specialize (H eq_refl). cbv zeta.
  rewrite Z.quot_div_nonneg, Z.rem_mod_nonneg by lia.
  pose proof (Z.mod_pos_bound v 32 ltac:(lia)).
  assert (0 <= v / 32) by (apply Z.div_pos; lia).
  assert (v / 32 < Z.of_nat (length rs)) by (apply Z.div_lt_upper_bound; lia).
  destruct (Z.ltb_spec (v mod 32) 0); [lia|].
  destruct (Z.ltb_spec (v / 32) 0); [lia|].
  destruct (Z.leb_spec (Z.of_nat (length rs)) (v / 32)); [lia|].
  eexists. reflexivity.
Qed.

Lemma set_bits_in_range (entries : list (Z * bool)) :
  forall rs,
    (forall v, (v, true) ∈ entries -> 0 <= v < 32 * Z.of_nat (length rs)) ->
    exists rs', set_bits rs entries = Some rs'.
Proof.
  induction entries as [|[v on] entries IH]; intros rs H.
  - eexists. reflexivity.
  - destruct (set_bit_in_range rs v on) as [rs1 E1].
    { intros ->. apply H. apply elem_of_cons. left. reflexivity. }
    cbn [set_bits]. rewrite E1.
    destruct (set_bit_spec _ _ _ _ E1) as (L1 & _ & _).
    apply IH. intros v' Hin. rewrite L1. apply H. apply elem_of_cons. right. exact Hin.
Qed.

(** [bitmap4Encode] returns on every map of non-negative ids except
    those whose largest key is a multiple of 32 and marked present. *)
Lemma bitmap4Encode_returns (b : gmap Z bool) :
  (forall k, present b k -> 0 <= k) ->
  (maxInt b mod 32 = 0 -> ~ present b (maxInt b)) ->
  exists rs, bitmap4Encode b = Some rs.
Proof.
  intros Hpos Hmax. unfold bitmap4Encode. apply set_bits_in_range.
  intros v Hin. apply elem_of_map_to_list in Hin.
  rewrite length_replicate.
  destruct (maxInt_spec b) as (H0 & Hle & _).
  specialize (Hle v true Hin). specialize (Hpos v Hin).
  split; [exact Hpos|].
  unfold size. cbv zeta.
  rewrite Z.quot_div_nonneg, Z.rem_mod_nonneg by lia.
  pose proof (Z.mod_pos_bound (maxInt b) 32 ltac:(lia)) as Hm.
  pose proof (Z.div_mod (maxInt b) 32 ltac:(lia)) as Hdm.
  assert (0 <= maxInt b / 32) by (apply Z.div_pos; lia).
  destruct (Z.gtb_spec (maxInt b mod 32) 0) as [Hgt|Hngt].
  - rewrite Z2Nat.id by lia. lia.
  - rewrite Z2Nat.id by lia.
    assert (Hz : maxInt b mod 32 = 0) by lia.
    assert (v <> maxInt b) by (intros ->; exact (Hmax Hz Hin)).
    lia.
Qed.

(** It panics on every map whose largest key is a multiple of 32 and
    marked present. *)
Lemma bitmap4Encode_panics_at_word_boundary (b : gmap Z bool) :
  present b (maxInt b) -> maxInt b mod 32 = 0 -> bitmap4Encode b = None.
Proof.
  intros Hp Hz. destruct (bitmap4Encode b) as [rs|] eqn:E; [|reflexivity].
  exfalso. unfold bitmap4Encode in E.
  destruct (set_bits_spec _ _ _ E) as (_ & R & _).
  rewrite length_replicate in R.
  specialize (R (maxInt b)). rewrite elem_of_map_to_list in R. specialize (R Hp).
  destruct (maxInt_spec b) as (H0 & _ & _).
  unfold size in R. cbv zeta in R.
  rewrite Z.quot_div_nonneg, Z.rem_mod_nonneg in R by lia.
  rewrite Hz in R. cbn [Z.gtb Z.compare] in R.
  pose proof (Z.div_mod (maxInt b) 32 ltac:(lia)) as Hdm.
  assert (0 <= maxInt b / 32) by (apply Z.div_pos; lia).
  rewrite Z2Nat.id in R by lia. lia.
Qed.

End BitmapRoundTrip.


Section BitmapWhereItReturns.
Import Bitmap.

(** A map with the keys of a decoded bitmap has non-negative keys and
    its largest key, if any, is one below a multiple of 32. *)
Lemma keys_of_decoded (nums : list Z) (b : gmap Z bool) :
  (forall k, is_Some (b !! k) <-> is_Some (bitmap4Decode nums !! k)) ->
  (forall k, present b k -> 0 <= k)
  /\ (maxInt b mod 32 = 0 -> ~ present b (maxInt b)).
Proof.
  intros Hkeys.
  assert (Hrange : forall k, is_Some (b !! k) <-> 0 <= k < 32 * Z.of_nat (length nums)).
  { intros k. rewrite Hkeys, bitmap4Decode_lookup.
    destruct (decide _) as [Hr|Hr]; split; intros H; try exact Hr; eauto.
    - destruct H as [? X]. discriminate X.
    - contradiction. }
  split.
  - intros k Hk. apply Hrange. unfold present in Hk. rewrite Hk. eauto.
  - intros Hz Hp.
    assert (Hin : 0 <= maxInt b < 32 * Z.of_nat (length nums)).
    { apply Hrange. unfold present in Hp. rewrite Hp. eauto. }
    destruct (maxInt_spec b) as (_ & Hle & _).
    assert (Hlast : is_Some (b !! (32 * Z.of_nat (length nums) - 1)))
      by (apply Hrange; lia).
    destruct Hlast as [v Hv]. specialize (Hle _ _ Hv).
    assert (E : maxInt b = 31 + (Z.of_nat (length nums) - 1) * 32) by lia.
    rewrite E, Z.mod_add in Hz by lia. discriminate Hz.
Qed.

Lemma lookup_marked (l : list Z) :
  forall (m : gmap Z bool) (k : Z),
    foldl (fun m a => <[a := true]> m) m l !! k
    = if bool_decide (k ∈ l) then Some true else m !! k.
Proof.
  induction l as [|a l IH]; intros m k; cbn [foldl].
  - rewrite bool_decide_eq_false_2; [reflexivity | apply not_elem_of_nil].
  - rewrite IH. destruct (bool_decide (k ∈ l)) eqn:E.
    + apply bool_decide_eq_true in E.
      rewrite bool_decide_eq_true_2; [reflexivity | apply elem_of_cons; right; exact E].
    + apply bool_decide_eq_false in E. destruct (decide (k = a)) as [->|Hne].
      * rewrite lookup_insert_eq.
        rewrite bool_decide_eq_true_2; [reflexivity | apply elem_of_cons; left; reflexivity].
      * rewrite lookup_insert_ne by congruence.
        rewrite bool_decide_eq_false_2; [reflexivity|].
        intros H. apply elem_of_cons in H as [H|H]; [congruence | contradiction].
Qed.


End BitmapWhereItReturns.


(** ** The client registry: CREATE_SESSION confirmation *)

Section Confirm41.
Import Clients.

(** C2 as stated fails for a confirmed client: a requested sequence id
    above the stored one by more than one is accepted and stored, and a
    requested sequence id 0 resets a non-zero stored one; neither fails
    with SEQ_MISORDERED. *)
Lemma Confirm41_accepts_jump_and_reset :
  Confirm41 {[7 := sample_client true 5]} 60 7 9 sample_creds
  = ({[7 := set_seqID (set_lastSeen (sample_client true 5) 60) 9]},
     Ok (set_seqID (set_lastSeen (sample_client true 5) 60) 9))
  /\ Confirm41 {[7 := sample_client true 5]} 60 7 0 sample_creds
  = ({[7 := set_seqID (set_lastSeen (sample_client true 5) 60) 0]},
     Ok (set_seqID (set_lastSeen (sample_client true 5) 60) 0)).
Proof.
  split.
  - unfold Confirm41. rewrite lookup_singleton_eq. simpl.
    rewrite insert_singleton_eq. reflexivity.
  - unfold Confirm41. rewrite lookup_singleton_eq. simpl.
    rewrite insert_singleton_eq. reflexivity.
Qed.

(** C2, amended.  For a stored client [c] under [id]:
    when [c] is confirmed, a requested sequence id 0 against a non-zero
    stored one resets the stored one to 0 and succeeds; otherwise a
    requested id below the stored one fails with SEQ_MISORDERED, an equal
    one is a replay that succeeds and changes nothing, and any greater
    one (not only the successor) is stored and succeeds.
    When [c] is not confirmed the call succeeds exactly when the
    requested id equals the stored one and the credentials are [Equal];
    it then confirms the client; a different id fails with
    STALE_CLIENTID and different credentials with CLID_INUSE. *)
Theorem Confirm41_cases (x : gmap Z Client) (now : Clock.Time)
    (id seq : Z) (creds : Auth.Creds) (c : Client)
    (Hc : x !! id = Some c) (Hseq : is_u32 seq) (Hstored : is_u32 (seqID c)) :
  (confirmed c = true ->
     (seq = 0 -> seqID c <> 0 ->
        Confirm41 x now id seq creds
        = (<[id := set_seqID (set_lastSeen c now) 0]> x,
           Ok (set_seqID (set_lastSeen c now) 0)))
     /\ (seq <> 0 -> seq < seqID c ->
        Confirm41 x now id seq creds = (x, Err Msg.NFS4ERR_SEQ_MISORDERED))
     /\ (seq = seqID c ->
        Confirm41 x now id seq creds = (x, Ok c))
     /\ (seqID c < seq ->
        Confirm41 x now id seq creds
        = (<[id := set_seqID (set_lastSeen c now) seq]> x,
           Ok (set_seqID (set_lastSeen c now) seq))))
  /\
  (confirmed c = false ->
     (seq <> seqID c ->
        Confirm41 x now id seq creds = (x, Err Msg.NFS4ERR_STALE_CLIENTID))
     /\ (seq = seqID c -> Auth.Equal (Creds c) creds = false ->
        Confirm41 x now id seq creds = (x, Err Msg.NFS4ERR_CLID_INUSE))
     /\ (seq = seqID c -> Auth.Equal (Creds c) creds = true ->
        Confirm41 x now id seq creds
        = (<[id := set_lastSeen (set_confirmed c true) now]> x,
           Ok (set_lastSeen (set_confirmed c true) now)))
     /\ ((exists r, snd (Confirm41 x now id seq creds) = Ok r) <->
         seq = seqID c /\ Auth.Equal (Creds c) creds = true)).
Proof.
  unfold is_u32 in *. unfold Confirm41. rewrite Hc. split; intros Hconf; rewrite Hconf.
  - split; [|split; [|split]].
    + intros -> Hnz. rewrite Z.eqb_refl.
      destruct (Z.eqb_spec (seqID c) 0); [contradiction | reflexivity].
    + intros Hnz Hlt.
      destruct (Z.eqb_spec seq 0); [contradiction|]. simpl.
      destruct (Z.ltb_spec seq (seqID c)); [reflexivity | lia].
    + intros ->.
      destruct (seqID c =? 0) eqn:E; simpl;
        rewrite Z.ltb_irrefl, Z.eqb_refl; reflexivity.
    + intros Hgt.
      destruct (Z.eqb_spec seq 0); [lia|]. simpl.
      destruct (Z.ltb_spec seq (seqID c)); [lia|].
      destruct (Z.eqb_spec (seqID c) seq); [lia | reflexivity].
  - split; [|split; [|split; [|split]]].
    + intros Hne. destruct (Z.eqb_spec (seqID c) seq); [congruence | reflexivity].
    + intros -> Heq. rewrite Z.eqb_refl, Heq. reflexivity.
    + intros -> Heq. rewrite Z.eqb_refl, Heq. reflexivity.
    + intros [r Hr]. destruct (Z.eqb_spec (seqID c) seq); simpl in Hr;
        [| discriminate Hr].
      split; [congruence|].
      destruct (Auth.Equal (Creds c) creds); [reflexivity | discriminate Hr].
    + intros [-> Heq]. rewrite Z.eqb_refl, Heq. simpl. eexists. reflexivity.
Qed.

Lemma Confirm41_cases_witness :
  Confirm41 {[7 := sample_client true 5]} 60 7 6 sample_creds
  = (<[7 := set_seqID (set_lastSeen (sample_client true 5) 60) 6]>
       {[7 := sample_client true 5]},
     Ok (set_seqID (set_lastSeen (sample_client true 5) 60) 6)).
Proof.
  refine (proj2 (proj2 (proj2 (proj1
    (Confirm41_cases {[7 := sample_client true 5]} 60 7 6 sample_creds
       (sample_client true 5) _ _ _) _))) _).
  - apply lookup_singleton_eq.
  - unfold is_u32. lia.
  - unfold is_u32. simpl. lia.
  - reflexivity.
  - simpl. lia.
Defined.

End Confirm41.

(** ** CLOSE *)

Section CloseOp.
Import Compound.

Lemma GetWorker_serves (w : Worker.Worker) (x : Compound) (v : Z) :
  serves w x ->
  Worker.GetWorker w (Creds x) v
  = Worker.mkWorker (Worker.Cache w) (Worker.Creds w) (Worker.SessionID w)
      (Worker.Files w) (Worker.ClosedFiles w) (Worker.inUse w + 1) false.
Proof.
  intros [Hd He]. unfold Worker.GetWorker, Worker.Use. rewrite He, Hd. reflexivity.
Qed.

(** C5 as stated fails: without a current filehandle a CLOSE of a file id
    recorded in [closed_files] answers NOFILEHANDLE; and a first CLOSE
    whose underlying file close fails answers the mapped error although
    the file has been removed and recorded as closed. *)
Lemma Close_replay_without_filehandle :
  (600 ∈ Worker.ClosedFiles sample_worker
   /\ close_file_id (sample_close 600) = 600
   /\ res_status (fst (fst (Close (sample_compound None) sample_worker 88
                               ∅ (sample_close 600))))
      = Msg.NFS4ERR_NOFILEHANDLE)
  /\
  (Worker.Files sample_worker !! 501 = Some sample_failing_file
   /\ close_file_id (sample_close 501) = 501
   /\ res_status (fst (fst (Close (sample_compound (Some (mkFileHandle [4; 5; 6] "/y")))
                               sample_worker 88 ∅ (sample_close 501))))
      = Msg.NFS4ERR_IO
   /\ res_data (fst (fst (Close (sample_compound (Some (mkFileHandle [4; 5; 6] "/y")))
                             sample_worker 88 ∅ (sample_close 501))))
      = []).
Proof.
  split; [split; [|split] | split; [|split; [|split]]].
  - unfold sample_worker; simpl. set_solver.
  - reflexivity.
  - reflexivity.
  - reflexivity.
  - reflexivity.
  - vm_compute. reflexivity.
  - vm_compute. reflexivity.
Qed.

Lemma IsRemovedFile_true (w : Worker.Worker) (id : Z) :
  Worker.IsRemovedFile w id = true <-> id ∈ Worker.ClosedFiles w.
Proof. unfold Worker.IsRemovedFile. apply bool_decide_eq_true. Qed.

Lemma IsRemovedFile_false (w : Worker.Worker) (id : Z) :
  Worker.IsRemovedFile w id = false <-> id ∉ Worker.ClosedFiles w.
Proof. unfold Worker.IsRemovedFile. apply bool_decide_eq_false. Qed.

Lemma Close_bad_seqid x w v cl args :
  Msg.SeqId (Msg.OpenStateId args) > 1 ->
  Close x w v cl args
  = (mkOpResult Msg.OP4_CLOSE Msg.NFS4ERR_BAD_SEQID [], w, cl).
Proof.
  intros H. unfold Close.
  destruct (Z.gtb_spec (Msg.SeqId (Msg.OpenStateId args)) 1); [reflexivity | lia].
Qed.

Lemma Close_no_filehandle x w v cl args :
  Msg.SeqId (Msg.OpenStateId args) <= 1 -> CurrentHandle x = None ->
  Close x w v cl args
  = (mkOpResult Msg.OP4_CLOSE Msg.NFS4ERR_NOFILEHANDLE [], w, cl).
Proof.
  intros H Hfh. unfold Close.
  destruct (Z.gtb_spec (Msg.SeqId (Msg.OpenStateId args)) 1); [lia|].
  rewrite Hfh. reflexivity.
Qed.

Lemma Close_replay x w v cl args :
  Msg.SeqId (Msg.OpenStateId args) <= 1 -> CurrentHandle x <> None ->
  serves w x ->
  close_file_id args ∈ Worker.ClosedFiles w ->
  exists w',
    Close x w v cl args = (close_ok args, w', cl)
    /\ same_tables w' w
    /\ Worker.inUse w' = Worker.inUse w
    /\ serves w' x.
Proof.
  intros H Hfh Hs Hin. unfold Close.
  destruct (Z.gtb_spec (Msg.SeqId (Msg.OpenStateId args)) 1); [lia|].
  destruct (CurrentHandle x) as [fh|]; [|contradiction].
  rewrite (GetWorker_serves w x v Hs).
  assert (Hrem : Worker.IsRemovedFile
            (Worker.mkWorker (Worker.Cache w) (Worker.Creds w) (Worker.SessionID w)
               (Worker.Files w) (Worker.ClosedFiles w) (Worker.inUse w + 1) false)
            (FileID (Msg.Other (Msg.OpenStateId args))) = true).
  { apply IsRemovedFile_true. exact Hin. }
  rewrite Hrem. eexists. split; [reflexivity|].
  unfold same_tables, serves; simpl. destruct Hs as [Hd He].
  repeat split; try reflexivity; try lia. exact He.
Qed.

Lemma Close_first x w v cl args f :
  Msg.SeqId (Msg.OpenStateId args) <= 1 -> CurrentHandle x <> None ->
  serves w x ->
  close_file_id args ∉ Worker.ClosedFiles w ->
  Worker.Files w !! close_file_id args = Some f ->
  exists r w',
    Close x w v cl args = (r, w', alter Clients.Done (Worker.Client f) cl)
    /\ Worker.Files w' = delete (close_file_id args) (Worker.Files w)
    /\ Worker.ClosedFiles w' = {[close_file_id args]} ∪ Worker.ClosedFiles w
    /\ Worker.Cache w' = delete (Worker.Handle f) (Worker.Cache w)
    /\ Worker.inUse w' = Worker.inUse w
    /\ serves w' x
    /\ res_status r = Msg.Err2Status (Worker.CloseResult f)
    /\ (Worker.CloseResult f = None -> r = close_ok args).
Proof.
  intros H Hfh Hs Hnin Hf. unfold Close.
  destruct (Z.gtb_spec (Msg.SeqId (Msg.OpenStateId args)) 1); [lia|].
  destruct (CurrentHandle x) as [fh|]; [|contradiction].
  rewrite (GetWorker_serves w x v Hs).
  assert (Hrem : Worker.IsRemovedFile
            (Worker.mkWorker (Worker.Cache w) (Worker.Creds w) (Worker.SessionID w)
               (Worker.Files w) (Worker.ClosedFiles w) (Worker.inUse w + 1) false)
            (FileID (Msg.Other (Msg.OpenStateId args))) = false).
  { apply IsRemovedFile_false. exact Hnin. }
  rewrite Hrem. unfold Worker.RemoveFile; simpl.
  unfold close_file_id in Hf. rewrite Hf.
  destruct Hs as [Hd He].
  destruct (Worker.CloseResult f) as [err|] eqn:Hcr.
  - eexists _, _. split; [reflexivity|]. unfold serves; simpl.
    repeat split; try reflexivity; try lia; try exact He. intros X; discriminate X.
  - eexists _, _. split; [reflexivity|]. unfold serves; simpl.
    repeat split; try reflexivity; try lia; try exact He.
Qed.

(** C5, amended.  A CLOSE whose state-id carries [seq_id > 1] fails with
    BAD_SEQID; with [seq_id <= 1] and no current filehandle it fails with
    NOFILEHANDLE; both leave the worker untouched.  With a current
    filehandle, on the worker serving the request: a CLOSE naming a file
    id in [closed_files] succeeds with [seq_id = 2] and leaves the
    open-file table, the closed set and the attribute cache as they
    were; a first CLOSE of an open file removes it from the open-file
    table, records it in [closed_files], drops the attribute-cache entry
    of its handle, and answers the status of the underlying file close
    ([seq_id = 2] when that close succeeds); a second CLOSE of the same
    file id then succeeds with [seq_id = 2]. *)
Theorem Close_cases (x : Compound) (w : Worker.Worker) (v : Z)
    (cl : gmap Z Clients.Client) (args : Msg.CLOSE4args) :
  (Msg.SeqId (Msg.OpenStateId args) > 1 ->
     Close x w v cl args
     = (mkOpResult Msg.OP4_CLOSE Msg.NFS4ERR_BAD_SEQID [], w, cl))
  /\ (Msg.SeqId (Msg.OpenStateId args) <= 1 -> CurrentHandle x = None ->
     Close x w v cl args
     = (mkOpResult Msg.OP4_CLOSE Msg.NFS4ERR_NOFILEHANDLE [], w, cl))
  /\ (Msg.SeqId (Msg.OpenStateId args) <= 1 -> CurrentHandle x <> None ->
     serves w x -> close_file_id args ∈ Worker.ClosedFiles w ->
     exists w', Close x w v cl args = (close_ok args, w', cl) /\ same_tables w' w)
  /\ (forall f,
     Msg.SeqId (Msg.OpenStateId args) <= 1 -> CurrentHandle x <> None ->
     serves w x -> close_file_id args ∉ Worker.ClosedFiles w ->
     Worker.Files w !! close_file_id args = Some f ->
     exists r w' cl',
       Close x w v cl args = (r, w', cl')
       /\ Worker.Files w' = delete (close_file_id args) (Worker.Files w)
       /\ Worker.ClosedFiles w' = {[close_file_id args]} ∪ Worker.ClosedFiles w
       /\ Worker.Cache w' = delete (Worker.Handle f) (Worker.Cache w)
       /\ res_status r = Msg.Err2Status (Worker.CloseResult f)
       /\ (Worker.CloseResult f = None -> r = close_ok args)
       /\ (forall v2, exists w'',
             Close x w' v2 cl' args = (close_ok args, w'', cl')
             /\ same_tables w'' w')).
Proof.
  split; [apply Close_bad_seqid|]. split; [apply Close_no_filehandle|].
  split.
  - intros H Hfh Hs Hin.
    destruct (Close_replay x w v cl args H Hfh Hs Hin) as (w' & E & Ht & _).
    exists w'. auto.
  - intros f H Hfh Hs Hnin Hf.
    destruct (Close_first x w v cl args f H Hfh Hs Hnin Hf)
      as (r & w' & E & HF & HC & HA & HU & Hs' & Hst & Hok).
    exists r, w', (alter Clients.Done (Worker.Client f) cl).
    repeat (split; [assumption|]).
    intros v2.
    assert (Hin : close_file_id args ∈ Worker.ClosedFiles w').
    { rewrite HC. apply elem_of_union_l, elem_of_singleton. reflexivity. }
    destruct (Close_replay x w' v2 (alter Clients.Done (Worker.Client f) cl)
                args H Hfh Hs' Hin) as (w'' & E2 & Ht & _).
    exists w''. auto.
Qed.

Lemma Close_cases_witness :
  exists r w' cl',
    Close (sample_compound (Some (mkFileHandle [1; 2; 3] "/x"))) sample_worker 88
          ∅ (sample_close 500) = (r, w', cl')
    /\ Worker.Files w' = delete (close_file_id (sample_close 500))
                                (Worker.Files sample_worker)
    /\ Worker.ClosedFiles w'
       = {[close_file_id (sample_close 500)]} ∪ Worker.ClosedFiles sample_worker
    /\ Worker.Cache w' = delete (Worker.Handle sample_file) (Worker.Cache sample_worker)
    /\ res_status r = Msg.Err2Status (Worker.CloseResult sample_file)
    /\ (Worker.CloseResult sample_file = None -> r = close_ok (sample_close 500))
    /\ (forall v2, exists w'',
          Close (sample_compound (Some (mkFileHandle [1; 2; 3] "/x"))) w' v2 cl'
                (sample_close 500) = (close_ok (sample_close 500), w'', cl')
          /\ same_tables w'' w').
Proof.
  refine (proj2 (proj2 (proj2
    (Close_cases (sample_compound (Some (mkFileHandle [1; 2; 3] "/x")))
       sample_worker 88 ∅ (sample_close 500)))) sample_file _ _ _ _ _).
  - simpl. lia.
  - simpl. discriminate.
  - split; reflexivity.
  - vm_compute. intros H. discriminate H.
  - reflexivity.
Defined.

End CloseOp.

(** ** The buffer and the encoder *)

Section BufferFacts.
Import Bufpool.

(** A write at a cursor inside the buffer replaces the bytes under it and
    extends the buffer when they do not fit. *)
Lemma Write_eq (b : Buf) (p : list Z) :
  (w b <= length (buf b))%nat ->
  Write b p
  = mkBuf (take (w b) (buf b) ++ p ++ drop (w b + length p) (buf b))
          (r b) (w b + length p).
Proof.
  intros Hw. unfold Write, Grow, copy.
  destruct (Nat.ltb_spec (length (buf b)) (w b + length p)) as [Hlt|Hge].
  - destruct (Nat.leb_spec (w b + length p) (length (buf b))) as [Hle|_]; [lia|].
    cbn [buf r w].
    rewrite drop_app_le by lia. rewrite take_app_le by lia.
    rewrite length_app, length_drop, length_replicate.
    rewrite (take_ge p) by lia.
    rewrite (drop_ge (drop _ _ ++ _)) by (rewrite length_app, length_drop, length_replicate; lia).
    rewrite (drop_ge (buf b)) by lia.
    f_equal. lia.
  - rewrite length_drop.
    rewrite (take_ge p) by lia.
    rewrite drop_drop. f_equal. lia.
Qed.

Lemma Write_w (b : Buf) (p : list Z) :
  (w b <= length (buf b))%nat ->
  (w (Write b p) <= length (buf (Write b p)))%nat
  /\ w (Write b p) = (w b + length p)%nat /\ r (Write b p) = r b.
Proof.
  intros Hw. rewrite (Write_eq b p Hw). cbn [buf r w].
  rewrite !length_app, length_take, length_drop. repeat split; lia.
Qed.

Lemma Write_Write (b : Buf) (p q : list Z) :
  (w b <= length (buf b))%nat ->
  Write (Write b p) q = Write b (p ++ q).
Proof.
  intros Hw. destruct (Write_w b p Hw) as (Hw' & _ & _).
  rewrite (Write_eq (Write b p) q Hw'). rewrite !(Write_eq b _ Hw). cbn [buf r w].
  rewrite length_app. f_equal; [|lia].
  assert (Hlen : length (take (w b) (buf b)) = w b) by (rewrite length_take; lia).
  rewrite (app_assoc (take (w b) (buf b)) p).
  rewrite take_app_length' by (rewrite length_app, Hlen; reflexivity).
  rewrite drop_app_ge by (rewrite length_app, Hlen; lia).
  rewrite length_app, Hlen. rewrite drop_drop.
  rewrite <- !app_assoc. do 3 f_equal. f_equal. lia.
Qed.

Lemma Write_nil (b : Buf) : (w b <= length (buf b))%nat -> Write b [] = b.
Proof.
  intros Hw. rewrite (Write_eq b [] Hw). simpl. rewrite Nat.add_0_r.
  rewrite take_drop. destruct b; reflexivity.
Qed.

End BufferFacts.

Section EncoderFacts.
Import Bufpool Xdr.

Lemma inside_Write (b : Buf) (p : list Z) : inside b -> inside (Write b p).
Proof. intros H. apply (Write_w b p H). Qed.

Lemma unread_Write (b : Buf) (p : list Z) : inside b -> unread b -> unread (Write b p).
Proof. unfold unread. intros H Hr. destruct (Write_w b p H) as (_ & _ & ->). exact Hr. Qed.

Lemma from_pool_inside (b : Buf) : from_pool b -> inside b /\ unread b.
Proof. unfold from_pool, inside, unread. intros [Hr Hw]. rewrite Hw. split; [lia | exact Hr]. Qed.

Lemma Bytes_Write (b : Buf) (p : list Z) :
  inside b -> unread b -> Bytes (Write b p) = Bytes b ++ p.
Proof.
  unfold inside, unread. intros Hw Hr. rewrite (Write_eq b p Hw).
  unfold Bytes. cbn [buf r w]. rewrite Hr, !drop_0.
  rewrite app_assoc.
  assert (Hlen : length (take (w b) (buf b) ++ p) = (w b + length p)%nat).
  { rewrite length_app, length_take. lia. }
  rewrite take_app_length' by (symmetry; exact Hlen). reflexivity.
Qed.

Lemma Uint32s_Write (v : list Z) (b : Buf) :
  inside b ->
  foldl (fun b x => Uint32 x b) b v = Write b (concat (map be32 v)).
Proof.
  revert b. induction v as [|x v IH]; intros b Hb; simpl.
  - symmetry. apply Write_nil. exact Hb.
  - rewrite IH by (apply inside_Write; exact Hb).
    unfold Uint32. apply Write_Write. exact Hb.
Qed.

Lemma padded_Write (v : list Z) (b : Buf) :
  inside b ->
  (if (0 <? Pad (length v))%nat
   then Write (Write b v) (replicate (Pad (length v)) 0) else Write b v)
  = Write b (v ++ replicate (Pad (length v)) 0).
Proof.
  intros Hb. destruct (Nat.ltb_spec 0 (Pad (length v))) as [Hp|Hp].
  - apply Write_Write. exact Hb.
  - replace (Pad (length v)) with 0%nat by lia. simpl. rewrite app_nil_r. reflexivity.
Qed.

(** Encoding a value appends its wire form at the write cursor. *)
Lemma Encode_Write (v : value) (b : Buf) :
  inside b -> Encode v b = Write b (wire v).
Proof.
  intros Hb. destruct v; simpl; try reflexivity.
  - unfold EncBytes, Uint32, wire_bytes.
    rewrite padded_Write by (apply inside_Write; exact Hb).
    apply Write_Write. exact Hb.
  - unfold EncBytes, Uint32, wire_bytes.
    rewrite padded_Write by (apply inside_Write; exact Hb).
    apply Write_Write. exact Hb.
  - unfold ByteArray. apply padded_Write. exact Hb.
  - unfold Uint32s. rewrite Uint32s_Write by (apply inside_Write; exact Hb).
    unfold Uint32. apply Write_Write. exact Hb.
Qed.

Lemma EncodeAll_Write (src : list value) (b : Buf) :
  inside b -> EncodeAll src b = Write b (wire_all src).
Proof.
  unfold EncodeAll, wire_all. revert b.
  induction src as [|v src IH]; intros b Hb; simpl.
  - symmetry. apply Write_nil. exact Hb.
  - rewrite Encode_Write by exact Hb.
    rewrite IH by (apply inside_Write; exact Hb).
    apply Write_Write. exact Hb.
Qed.

Lemma length_be32 (v : Z) : length (be32 v) = 4%nat.
Proof. reflexivity. Qed.

End EncoderFacts.

Section ReplyFacts.
Import Bufpool Compound.

Lemma WriteHeader_Write x out c st :
  inside out -> WriteHeader x out c st = Write out (wire_header x c st).
Proof. intros H. unfold WriteHeader, wire_header. apply EncodeAll_Write, H. Qed.

Lemma OperationResponse_Write out res :
  inside out -> OperationResponse out res = Write out (wire_result res).
Proof.
  intros H. unfold OperationResponse, wire_result.
  rewrite (EncodeAll_Write [_; _]) by exact H.
  rewrite EncodeAll_Write by (apply inside_Write; exact H).
  apply Write_Write. exact H.
Qed.

Lemma WriteHeaderAndSingleOperation_Write x out op st :
  inside out ->
  WriteHeaderAndSingleOperation x out op st
  = Write out (wire_header x 1 st ++ wire_result (mkOpResult op st [])).
Proof.
  intros H. unfold WriteHeaderAndSingleOperation.
  rewrite WriteHeader_Write by exact H.
  rewrite EncodeAll_Write by (apply inside_Write; exact H).
  rewrite Write_Write by exact H.
  unfold wire_result. cbn [res_op res_status res_data].
  change (Xdr.wire_all []) with (@nil Z). rewrite app_nil_r. reflexivity.
Qed.

(** The length of the header depends on neither the count nor the status. *)
Lemma length_wire_header x c st c' st' :
  length (wire_header x c st) = length (wire_header x c' st').
Proof.
  unfold wire_header, Xdr.wire_all, header_values.
  cbn [map concat Xdr.wire]. rewrite !length_app, !length_be32. reflexivity.
Qed.

(** Rewriting the header replaces the first bytes of the reply and keeps
    the rest. *)
Lemma RewriteHeader_Bytes x out c st c0 st0 rest :
  inside out -> unread out ->
  Bytes out = wire_header x c0 st0 ++ rest ->
  let out' := snd (SeekWrite (WriteHeader x (snd (SeekWrite out 0)) c st) (w out)) in
  Bytes out' = wire_header x c st ++ rest /\ inside out' /\ unread out'.
Proof.
  unfold inside, unread. intros Hw Hr HB. cbn zeta.
  set (h0 := wire_header x c0 st0) in *.
  set (h := wire_header x c st).
  assert (Hlen : length h = length h0) by apply length_wire_header.
  unfold Bytes in HB. rewrite Hr, drop_0 in HB.
  assert (Hwlen : w out = (length h0 + length rest)%nat).
  { rewrite <- length_app, <- HB, length_take. lia. }
  unfold SeekWrite. cbn [snd].
  rewrite WriteHeader_Write by (unfold inside; cbn [w buf]; lia).
  fold h. rewrite Write_eq by (cbn [w buf]; lia).
  cbn [snd buf r w]. rewrite take_0. cbn [app].
  unfold Bytes. cbn [buf r w]. rewrite Hr, drop_0.
  rewrite Nat.add_0_l.
  assert (Hrest : rest = take (length rest) (drop (length h) (buf out))).
  { rewrite Hlen. rewrite take_drop_commute, <- Hwlen, HB.
    rewrite drop_app_length. reflexivity. }
  split; [|split].
  - rewrite take_app_ge by lia.
    f_equal. rewrite Hrest. f_equal. lia.
  - unfold inside. cbn [buf r w]. rewrite length_app, length_drop. lia.
  - unfold unread. cbn [buf r w]. reflexivity.
Qed.

End ReplyFacts.

(** ** SEQUENCE: dead sessions *)

Section DeadSession.
Import Bufpool Compound.

Variable World : Type.
Variable handler : Z -> State World -> option (HandlerOut World).
Variable now : Clock.Time.

Lemma new_session_length (persist : bool) :
  length (Clients.new_session persist) = 16%nat.
Proof. reflexivity. Qed.

Lemma Bytes_single_reply x out op st :
  from_pool out ->
  Bytes (WriteHeaderAndSingleOperation x out op st)
  = wire_header x 1 st ++ wire_result (mkOpResult op st []).
Proof.
  intros Hp. destruct (from_pool_inside out Hp) as [Hi Hu].
  rewrite WriteHeaderAndSingleOperation_Write by exact Hi.
  rewrite Bytes_Write by assumption.
  destruct Hp as [Hr Hw]. unfold Bytes. rewrite Hr, Hw, take_0. reflexivity.
Qed.

Lemma GetSlot_set_lastSeen c t sid slot :
  Clients.GetSlot (Clients.set_lastSeen c t) sid slot = Clients.GetSlot c sid slot.
Proof. reflexivity. Qed.

Lemma GetSlot_no_session c sid slot :
  Clients.sessions c !! Clients.CacheIDFromSessionID sid = None ->
  Clients.GetSlot c sid slot = None.
Proof. intros H. unfold Clients.GetSlot. cbv zeta. rewrite H. reflexivity. Qed.

Lemma GetSlot_slot_too_high c sid slot session :
  Clients.sessions c !! Clients.CacheIDFromSessionID sid = Some session ->
  length session = 16%nat ->
  slot > Clients.MaxSlotID ->
  Clients.GetSlot c sid slot = None.
Proof.
  intros H Hlen Hslot. unfold Clients.GetSlot. cbv zeta. rewrite H, Hlen.
  unfold Clients.MaxSlotID in Hslot.
  destruct (Z.leb_spec (Z.of_nat 16) slot) as [_|Hlt]; [reflexivity | lia].
Qed.

(** C10: a SEQUENCE whose session id names no confirmed client, or a
    confirmed client without that session, or whose slot id exceeds 15,
    is answered with a one-operation DEADSESSION reply; the remaining
    operations are not executed (the filehandles, the world and the
    unread arguments are as the SEQUENCE arguments left them, whatever
    the handlers are), and the sessions of every client, with the
    sequence id and the cached data of every slot, are unchanged. *)
Theorem RunSequence_dead_session (s : State World) (out : Buf)
    (args : Msg.SEQUENCE4args) (rest : list Z)
    (Hout : from_pool out)
    (Hargs : DecSEQUENCE4args (st_in s) = Some (args, rest))
    (Hdead :
       (forall c, st_clients s
                    !! Clients.ClientIDFromSessionID (Msg.SessionID args) = Some c ->
                  Clients.confirmed c = false)
       \/ (exists c,
             st_clients s !! Clients.ClientIDFromSessionID (Msg.SessionID args) = Some c
             /\ Clients.confirmed c = true
             /\ Clients.sessions c
                  !! Clients.CacheIDFromSessionID (Msg.SessionID args) = None)
       \/ (exists c session,
             st_clients s !! Clients.ClientIDFromSessionID (Msg.SessionID args) = Some c
             /\ Clients.confirmed c = true
             /\ Clients.sessions c
                  !! Clients.CacheIDFromSessionID (Msg.SessionID args) = Some session
             /\ length session = 16%nat
             /\ Msg.SlotID args > Clients.MaxSlotID)) :
  exists cl' out',
    RunSequence handler now s out
    = Some (mkState (st_x s) cl' (st_world s) rest, out')
    /\ Bytes out' = dead_reply (st_x s)
    /\ (forall id, Clients.sessions <$> (cl' !! id)
                   = Clients.sessions <$> (st_clients s !! id)).
Proof.
  unfold RunSequence. rewrite Hargs. cbn [set_in st_x st_clients st_world st_in].
  set (cid := Clients.ClientIDFromSessionID (Msg.SessionID args)) in *.
  set (cache := Clients.CacheIDFromSessionID (Msg.SessionID args)) in *.
  assert (Htouch : forall c id,
             st_clients s !! cid = Some c ->
             Clients.sessions <$> (<[cid := Clients.set_lastSeen c now]> (st_clients s) !! id)
             = Clients.sessions <$> (st_clients s !! id)).
  { intros c id Hc. destruct (decide (cid = id)) as [<-|Hne].
    - rewrite lookup_insert_eq, Hc. reflexivity.
    - rewrite lookup_insert_ne by exact Hne. reflexivity. }
  unfold Clients.Get.
  destruct Hdead as [Hnone | [(c & Hc & Hconf & Hsess) | (c & session & Hc & Hconf & Hsess & Hlen & Hslot)]].
  - destruct (st_clients s !! cid) as [c|] eqn:Hc.
    + rewrite (Hnone c eq_refl). cbn [negb set_clients st_x st_world st_in].
      eexists _, _. split; [reflexivity|]. split; [|reflexivity].
      apply Bytes_single_reply, Hout.
    + cbn [set_clients st_x st_world st_in].
      eexists _, _. split; [reflexivity|]. split; [|reflexivity].
      apply Bytes_single_reply, Hout.
  - rewrite Hc, Hconf. cbn [negb].
    rewrite GetSlot_set_lastSeen, (GetSlot_no_session c _ _ Hsess).
    cbn [set_clients st_x st_clients st_world st_in].
    eexists _, _. split; [reflexivity|]. split.
    + apply Bytes_single_reply, Hout.
    + intros id. apply Htouch, Hc.
  - rewrite Hc, Hconf. cbn [negb].
    rewrite GetSlot_set_lastSeen, (GetSlot_slot_too_high c _ _ session Hsess Hlen Hslot).
    cbn [set_clients st_x st_clients st_world st_in].
    eexists _, _. split; [reflexivity|]. split.
    + apply Bytes_single_reply, Hout.
    + intros id. apply Htouch, Hc.
Qed.

End DeadSession.

(** ** COMPOUND: truncation at a fatal status *)

Section Truncation.
Import Bufpool Compound.

Variable World : Type.
Variable handler : Z -> State World -> option (HandlerOut World).
Variable now : Clock.Time.

Lemma exec_ops_S k (s sk : State World) rs :
  exec_ops handler (S k) s = Some (rs, sk) ->
  exists op rest r s' rs',
    Xdr.DecUint32 (st_in s) = Some (op, rest)
    /\ op_outcome handler op (set_in s rest) = Some (r, s')
    /\ exec_ops handler k s' = Some (rs', sk)
    /\ rs = r :: rs'.
Proof.
  cbn [exec_ops]. intros H.
  destruct (Xdr.DecUint32 (st_in s)) as [[op rest]|] eqn:Hd; [|discriminate H].
  destruct (op_outcome handler op (set_in s rest)) as [[r s']|] eqn:Ho; [|discriminate H].
  destruct (exec_ops handler k s') as [[rs' s'']|] eqn:He; [|discriminate H].
  injection H as <- <-. exists op, rest, r, s', rs'. auto.
Qed.

Lemma doOperation_outcome op (s s' : State World) r out :
  op_outcome handler op s = Some (r, s') ->
  inside out ->
  doOperation handler op s out = Some (res_status r, s', Write out (wire_result r)).
Proof.
  intros H Hi. unfold doOperation. rewrite H.
  rewrite OperationResponse_Write by exact Hi. reflexivity.
Qed.

(** The loop stops after the first fatal status. *)
Lemma loop_stops (pre : list OpResult) :
  forall (rk : OpResult) (s sk : State World) (n : nat) (last e : Z) (out : Buf),
    inside out ->
    fatal last = false ->
    first_fatal pre rk ->
    exec_ops handler (S (length pre)) s = Some (pre ++ [rk], sk) ->
    (length pre < n)%nat ->
    loop handler n last e s out
    = Some (res_status rk, e + Z.of_nat (S (length pre)), sk,
            Write out (concat (map wire_result (pre ++ [rk])))).
Proof.
  induction pre as [|r1 pre IH]; intros rk s sk n last e out Hi Hlast [Hpre Hrk] Hex Hn.
  - destruct (exec_ops_S _ _ _ _ Hex) as (op & rest & r & s' & rs' & Hd & Ho & Hex' & Hrs).
    cbn [exec_ops] in Hex'. injection Hex' as <- <-.
    simpl in Hrs. injection Hrs as <-.
    destruct n as [|n']; [simpl in Hn; lia|].
    cbn [loop]. rewrite Hlast. unfold Operation. rewrite Hd.
    rewrite (doOperation_outcome _ _ _ _ _ Ho Hi).
    simpl map. simpl concat. rewrite app_nil_r.
    replace (e + Z.of_nat 1) with (e + 1) by lia.
    destruct n' as [|n'']; cbn [loop]; [reflexivity|].
    rewrite Hrk. reflexivity.
  - destruct (exec_ops_S _ _ _ _ Hex) as (op & rest & r & s' & rs' & Hd & Ho & Hex' & Hrs).
    simpl in Hrs. injection Hrs as <- <-.
    destruct n as [|n']; [simpl in Hn; lia|].
    cbn [loop]. rewrite Hlast. unfold Operation. rewrite Hd.
    rewrite (doOperation_outcome _ _ _ _ _ Ho Hi).
    inversion Hpre as [|? ? Hr1 Hpre']; subst.
    rewrite (IH rk s' sk n' (res_status r1) (e + 1) _ (inside_Write _ _ Hi) Hr1
               (conj Hpre' Hrk) Hex') by (simpl in Hn; lia).
    rewrite Write_Write by exact Hi.
    replace (e + 1 + Z.of_nat (S (length pre)))
      with (e + Z.of_nat (S (length (r1 :: pre)))) by (simpl length; lia).
    reflexivity.
Qed.

Lemma loop_fatal_start n last e (s : State World) out :
  fatal last = true -> loop handler n last e s out = Some (last, e, s, out).
Proof. intros H. destruct n; cbn [loop]; [|rewrite H]; reflexivity. Qed.

Lemma fatal_not_ok st : fatal st = true -> (st =? Msg.NFS4_OK) = false.
Proof.
  intros H. destruct (Z.eqb_spec st Msg.NFS4_OK) as [->|]; [|reflexivity].
  vm_compute in H. discriminate H.
Qed.

Lemma RewriteHeaderIfNeeded_fatal x out c st c0 st0 rest :
  fatal st = true -> inside out -> unread out ->
  Bytes out = wire_header x c0 st0 ++ rest ->
  Bytes (RewriteHeaderIfNeeded x out c st) = wire_header x c st ++ rest.
Proof.
  intros Hf Hi Hu HB. unfold RewriteHeaderIfNeeded.
  rewrite (fatal_not_ok st Hf). cbn [andb].
  apply (RewriteHeader_Bytes x out c st c0 st0 rest Hi Hu HB).
Qed.

(** The loop of [Run] and of [RunSequence], entered after a first result
    [r0] written behind the provisional header. *)
Lemma run_loop_truncates (x : Compound) (s1 sk : State World) (out : Buf)
    (r0 : OpResult) (rs pre : list OpResult) (rk : OpResult) :
  from_pool out ->
  r0 :: rs = pre ++ [rk] ->
  first_fatal pre rk ->
  exec_ops handler (length rs) s1 = Some (rs, sk) ->
  Z.of_nat (length (r0 :: rs)) <= OpsCount x \/ rs = [] ->
  exists out',
    loop handler (Z.to_nat (OpsCount x - 1)) (res_status r0) 1 s1
         (Write (Write out (wire_header x (OpsCount x) Msg.NFS4_OK)) (wire_result r0))
    = Some (res_status rk, Z.of_nat (length (r0 :: rs)), sk, out')
    /\ Bytes (RewriteHeaderIfNeeded x out' (Z.of_nat (length (r0 :: rs))) (res_status rk))
       = wire_header x (Z.of_nat (length (r0 :: rs))) (res_status rk)
         ++ concat (map wire_result (r0 :: rs)).
Proof.
  intros Hp Hsplit [Hpre Hrk] Hex Hk.
  destruct (from_pool_inside out Hp) as [Hi Hu].
  assert (Hi1 : inside (Write out (wire_header x (OpsCount x) Msg.NFS4_OK)))
    by (apply inside_Write, Hi).
  assert (Hu1 : unread (Write out (wire_header x (OpsCount x) Msg.NFS4_OK)))
    by (apply unread_Write; assumption).
  assert (HB0 : Bytes out = []).
  { destruct Hp as [Hr Hw]. unfold Bytes. rewrite Hr, Hw, take_0. reflexivity. }
  destruct pre as [|p0 pre].
  - simpl in Hsplit. injection Hsplit as -> ->.
    cbn [length exec_ops] in Hex. injection Hex as <-.
    rewrite (loop_fatal_start _ _ _ _ _ Hrk).
    eexists. split; [reflexivity|].
    apply RewriteHeaderIfNeeded_fatal with (c0 := OpsCount x) (st0 := Msg.NFS4_OK).
    + exact Hrk.
    + apply inside_Write, Hi1.
    + apply unread_Write; assumption.
    + rewrite Bytes_Write by assumption. rewrite Bytes_Write by assumption.
      rewrite HB0. simpl concat. rewrite app_nil_r. reflexivity.
  - simpl in Hsplit. injection Hsplit as <- ->.
    inversion Hpre as [|? ? Hr0 Hpre']; subst.
    destruct Hk as [Hk|Hk]; [|destruct pre; discriminate Hk].
    rewrite length_app in Hex. simpl length in Hex.
    replace (length pre + 1)%nat with (S (length pre)) in Hex by lia.
    simpl length in Hk. rewrite length_app in Hk. simpl length in Hk.
    rewrite (loop_stops pre rk s1 sk _ (res_status r0) 1 _ (inside_Write _ _ Hi1) Hr0
               (conj Hpre' Hrk) Hex) by lia.
    replace (1 + Z.of_nat (S (length pre)))
      with (Z.of_nat (length (r0 :: pre ++ [rk])))
      by (simpl length; rewrite length_app; simpl length; lia).
    eexists. split; [reflexivity|].
    apply RewriteHeaderIfNeeded_fatal with (c0 := OpsCount x) (st0 := Msg.NFS4_OK).
    + exact Hrk.
    + apply inside_Write, inside_Write, Hi1.
    + apply unread_Write; [apply inside_Write, Hi1|]. apply unread_Write; assumption.
    + rewrite Write_Write by exact Hi1.
      rewrite Bytes_Write by assumption. rewrite Bytes_Write by assumption.
      rewrite HB0. reflexivity.
Qed.

Lemma Run_checks_passed (s : State World) out op rest :
  Xdr.DecUint32 (st_in s) = Some (op, rest) ->
  MinorVer (st_x s) <= 0
  \/ (Contains AllowedFirstOps41 op = true /\ op <> Msg.OP4_SEQUENCE
      /\ OpsCount (st_x s) <= 1) ->
  Run handler now s out = run_body handler (set_in s rest) op out.
Proof.
  intros Hd Hfirst. unfold Run. rewrite Hd. cbv zeta.
  cbn [set_in st_x].
  destruct (Z.gtb_spec (MinorVer (st_x s)) 0) as [Hv|Hv]; [|reflexivity].
  destruct Hfirst as [Hle | (Hall & Hne & Hone)]; [lia|].
  rewrite Hall. cbn [negb].
  destruct (Z.eqb_spec op Msg.OP4_SEQUENCE) as [E|_]; [contradiction|]. cbn [negb andb].
  destruct (Z.gtb_spec (OpsCount (st_x s)) 1); [lia|]. reflexivity.
Qed.

Lemma run_body_truncates (s sk : State World) out op rest pre rk :
  from_pool out ->
  Xdr.DecUint32 (st_in s) = Some (op, rest) ->
  first_fatal pre rk ->
  exec_ops handler (S (length pre)) s = Some (pre ++ [rk], sk) ->
  Z.of_nat (S (length pre)) <= OpsCount (st_x s) ->
  exists out',
    run_body handler (set_in s rest) op out = Some (sk, out')
    /\ Bytes out'
       = wire_header (st_x s) (Z.of_nat (S (length pre))) (res_status rk)
         ++ concat (map wire_result (pre ++ [rk])).
Proof.
  intros Hp Hd Hff Hex Hk.
  destruct (from_pool_inside out Hp) as [Hi Hu].
  destruct (exec_ops_S _ _ _ _ Hex) as (op' & rest' & r & s' & rs' & Hd' & Ho & Hex' & Hrs).
  rewrite Hd in Hd'. injection Hd' as <- <-.
  assert (Hlen : length (r :: rs') = S (length pre)).
  { rewrite <- Hrs, length_app. simpl. lia. }
  assert (Hlen' : length rs' = length pre) by (simpl in Hlen; lia).
  rewrite <- Hlen' in Hex'.
  destruct (run_loop_truncates (st_x s) s' sk out r rs' pre rk Hp (eq_sym Hrs) Hff Hex')
    as (out' & Hloop & HB).
  { left. rewrite Hlen. exact Hk. }
  unfold run_body. cbv zeta. cbn [set_in st_x].
  rewrite WriteHeader_Write by exact Hi.
  rewrite (doOperation_outcome _ _ _ _ _ Ho) by (apply inside_Write, Hi).
  rewrite Hlen in Hloop, HB. rewrite Hloop. eexists. split; [reflexivity|].
  rewrite HB, Hrs. reflexivity.
Qed.

Lemma check_slot_proceed slot args slot' :
  check_slot slot args = SeqProceed slot' ->
  slot' = Clients.mkSlot (Clients.SlotID slot) (Msg.SequenceID args)
            (Msg.CacheThis args && bool_decide (is_Some (Clients.Buf slot)))
            (Clients.Buf slot).
Proof.
  unfold check_slot. intros H.
  repeat match type of H with
         | (if ?b then _ else _) = _ => destruct b; try discriminate H
         end.
  injection H as <-. reflexivity.
Qed.

Lemma check_slot_proceed_buf slot args slot' :
  check_slot slot args = SeqProceed slot' ->
  Clients.ContainsData slot' = true ->
  exists sb, Clients.Buf slot' = Some sb.
Proof.
  intros H Hc. rewrite (check_slot_proceed _ _ _ H) in Hc |- *.
  cbn [Clients.ContainsData Clients.Buf] in *.
  apply andb_true_iff in Hc as [_ Hc]. apply bool_decide_eq_true in Hc.
  destruct Hc as [sb Hsb]. exists sb. exact Hsb.
Qed.

Lemma sequence_ok_not_fatal args : fatal (res_status (sequence_ok args)) = false.
Proof. reflexivity. Qed.

Lemma RunSequence_truncates (s sk : State World) out args rest c slot slot' pre rk :
  from_pool out ->
  DecSEQUENCE4args (st_in s) = Some (args, rest) ->
  st_clients s !! Clients.ClientIDFromSessionID (Msg.SessionID args) = Some c ->
  Clients.confirmed c = true ->
  Clients.GetSlot c (Msg.SessionID args) (Msg.SlotID args) = Some slot ->
  check_slot slot args = SeqProceed slot' ->
  first_fatal pre rk ->
  exec_ops handler (S (length pre))
    (mkState
       (set_session (st_x s) (Msg.SessionID args)
          (Clients.ClientIDFromSessionID (Msg.SessionID args),
           Clients.CacheIDFromSessionID (Msg.SessionID args), Msg.SlotID args))
       (Clients.store_slot
          (<[Clients.ClientIDFromSessionID (Msg.SessionID args)
             := Clients.set_lastSeen c now]> (st_clients s))
          (Clients.ClientIDFromSessionID (Msg.SessionID args))
          (Clients.CacheIDFromSessionID (Msg.SessionID args))
          (Msg.SlotID args) slot')
       (st_world s) rest)
  = Some (pre ++ [rk], sk) ->
  Z.of_nat (S (S (length pre))) <= OpsCount (st_x s) ->
  exists sk' out',
    RunSequence handler now s out = Some (sk', out')
    /\ Bytes out'
       = wire_header (st_x s) (Z.of_nat (S (S (length pre)))) (res_status rk)
         ++ concat (map wire_result (sequence_ok args :: pre ++ [rk]))
    /\ st_x sk' = st_x sk /\ st_world sk' = st_world sk /\ st_in sk' = st_in sk.
Proof.
  intros Hp Hargs Hc Hconf Hslot Hcheck [Hpre Hrk] Hex Hk.
  destruct (from_pool_inside out Hp) as [Hi Hu].
  set (cid := Clients.ClientIDFromSessionID (Msg.SessionID args)) in *.
  set (cache := Clients.CacheIDFromSessionID (Msg.SessionID args)) in *.
  set (x1 := set_session (st_x s) (Msg.SessionID args) (cid, cache, Msg.SlotID args)) in *.
  assert (Hlen : length (sequence_ok args :: pre ++ [rk]) = S (S (length pre))).
  { simpl. rewrite length_app. simpl. lia. }
  assert (Hex' : exec_ops handler (length (pre ++ [rk]))
            (mkState x1
               (Clients.store_slot (<[cid := Clients.set_lastSeen c now]> (st_clients s))
                  cid cache (Msg.SlotID args) slot')
               (st_world s) rest) = Some (pre ++ [rk], sk)).
  { rewrite length_app. simpl length.
    replace (length pre + 1)%nat with (S (length pre)) by lia. exact Hex. }
  destruct (run_loop_truncates x1 _ sk out (sequence_ok args) (pre ++ [rk])
              (sequence_ok args :: pre) rk Hp eq_refl
              (conj (Forall_cons_2 _ _ _ (sequence_ok_not_fatal args) Hpre) Hrk) Hex')
    as (out' & Hloop & HB).
  { left. rewrite Hlen. exact Hk. }
  rewrite Hlen in Hloop, HB.
  unfold RunSequence. rewrite Hargs. cbv zeta.
  cbn [set_in st_x st_clients st_world st_in]. fold cid cache.
  unfold Clients.Get. rewrite Hc, Hconf. cbn [negb].
  rewrite GetSlot_set_lastSeen, Hslot, Hcheck.
  cbn [set_clients st_x st_clients st_world st_in]. fold x1.
  rewrite WriteHeader_Write by exact Hi.
  rewrite OperationResponse_Write by (apply inside_Write, Hi).
  change (OpsCount x1) with (OpsCount (st_x s)) in Hloop |- *.
  change (wire_header x1) with (wire_header (st_x s)) in Hloop, HB |- *.
  fold (sequence_ok args).
  change (st_world (set_in s rest)) with (st_world s).
  change (st_in (set_in s rest)) with rest.
  change (res_status (sequence_ok args)) with Msg.NFS4_OK in Hloop.
  rewrite Hloop.
  destruct (Clients.ContainsData slot') eqn:Hcd.
  - destruct (check_slot_proceed_buf _ _ _ Hcheck Hcd) as [sb Hsb]. rewrite Hsb.
    eexists _, _. split; [reflexivity|]. split; [exact HB|].
    repeat split; reflexivity.
  - eexists _, _. split; [reflexivity|]. split; [exact HB|].
    repeat split; reflexivity.
Qed.

Lemma Run_sequence (s : State World) out rest :
  Xdr.DecUint32 (st_in s) = Some (Msg.OP4_SEQUENCE, rest) ->
  MinorVer (st_x s) > 0 ->
  Run handler now s out = RunSequence handler now (set_in s rest) out.
Proof.
  intros Hd Hv. unfold Run. rewrite Hd. cbv zeta. cbn [set_in st_x].
  destruct (Z.gtb_spec (MinorVer (st_x s)) 0) as [_|]; [|lia]. reflexivity.
Qed.

Lemma Run_not_in_session (s : State World) out op rest :
  from_pool out ->
  Xdr.DecUint32 (st_in s) = Some (op, rest) ->
  MinorVer (st_x s) > 0 ->
  Contains AllowedFirstOps41 op = false ->
  exists out',
    Run handler now s out = Some (set_in s rest, out')
    /\ Bytes out'
       = wire_header (st_x s) 1 Msg.NFS4ERR_OP_NOT_IN_SESSION
         ++ wire_result (mkOpResult op Msg.NFS4ERR_OP_NOT_IN_SESSION []).
Proof.
  intros Hp Hd Hv Hall. unfold Run. rewrite Hd. cbv zeta. cbn [set_in st_x].
  destruct (Z.gtb_spec (MinorVer (st_x s)) 0) as [_|]; [|lia].
  rewrite Hall. cbn [negb]. eexists. split; [reflexivity|].
  apply Bytes_single_reply, Hp.
Qed.

(** C4: when the k-th operation of a COMPOUND is the first to return a
    fatal status (k at most the announced count), the operations after it
    are not executed: the state is the one the k-th operation left, with
    the arguments of the later operations unread; the reply is the header
    with count k and that status, rewritten over the provisional one,
    followed by exactly the k results.  This holds on the sessionless
    path of [Run], and on the session path, where the accepted SEQUENCE is
    the first of the k results; a first operation that v4.1 does not
    allow as first is answered by a one-result reply with count 1 and
    OP_NOT_IN_SESSION, without being executed. *)
Theorem Run_fatal_truncation :
  (forall (s sk : State World) out op rest pre rk,
     from_pool out ->
     Xdr.DecUint32 (st_in s) = Some (op, rest) ->
     MinorVer (st_x s) <= 0
     \/ (Contains AllowedFirstOps41 op = true /\ op <> Msg.OP4_SEQUENCE
         /\ OpsCount (st_x s) <= 1) ->
     first_fatal pre rk ->
     exec_ops handler (S (length pre)) s = Some (pre ++ [rk], sk) ->
     Z.of_nat (S (length pre)) <= OpsCount (st_x s) ->
     exists out',
       Run handler now s out = Some (sk, out')
       /\ Bytes out'
          = wire_header (st_x s) (Z.of_nat (length (pre ++ [rk]))) (res_status rk)
            ++ concat (map wire_result (pre ++ [rk])))
  /\
  (forall (s sk : State World) out in1 args rest c slot slot' pre rk,
     from_pool out ->
     Xdr.DecUint32 (st_in s) = Some (Msg.OP4_SEQUENCE, in1) ->
     MinorVer (st_x s) > 0 ->
     DecSEQUENCE4args in1 = Some (args, rest) ->
     st_clients s !! Clients.ClientIDFromSessionID (Msg.SessionID args) = Some c ->
     Clients.confirmed c = true ->
     Clients.GetSlot c (Msg.SessionID args) (Msg.SlotID args) = Some slot ->
     check_slot slot args = SeqProceed slot' ->
     first_fatal pre rk ->
     exec_ops handler (S (length pre))
       (mkState
          (set_session (st_x s) (Msg.SessionID args)
             (Clients.ClientIDFromSessionID (Msg.SessionID args),
              Clients.CacheIDFromSessionID (Msg.SessionID args), Msg.SlotID args))
          (Clients.store_slot
             (<[Clients.ClientIDFromSessionID (Msg.SessionID args)
                := Clients.set_lastSeen c now]> (st_clients s))
             (Clients.ClientIDFromSessionID (Msg.SessionID args))
             (Clients.CacheIDFromSessionID (Msg.SessionID args))
             (Msg.SlotID args) slot')
          (st_world s) rest)
     = Some (pre ++ [rk], sk) ->
     Z.of_nat (S (S (length pre))) <= OpsCount (st_x s) ->
     exists sk' out',
       Run handler now s out = Some (sk', out')
       /\ Bytes out'
          = wire_header (st_x s)
              (Z.of_nat (length (sequence_ok args :: pre ++ [rk]))) (res_status rk)
            ++ concat (map wire_result (sequence_ok args :: pre ++ [rk]))
       /\ st_x sk' = st_x sk /\ st_world sk' = st_world sk /\ st_in sk' = st_in sk)
  /\
  (forall (s : State World) out op rest,
     from_pool out ->
     Xdr.DecUint32 (st_in s) = Some (op, rest) ->
     MinorVer (st_x s) > 0 ->
     Contains AllowedFirstOps41 op = false ->
     exists out',
       Run handler now s out = Some (set_in s rest, out')
       /\ Bytes out'
          = wire_header (st_x s) 1 Msg.NFS4ERR_OP_NOT_IN_SESSION
            ++ wire_result (mkOpResult op Msg.NFS4ERR_OP_NOT_IN_SESSION [])
       /\ fatal Msg.NFS4ERR_OP_NOT_IN_SESSION = true).
Proof.
  split; [|split].
  - intros s sk out op rest pre rk Hp Hd Hfirst Hff Hex Hk.
    rewrite (Run_checks_passed s out op rest Hd Hfirst).
    replace (length (pre ++ [rk])) with (S (length pre))
      by (rewrite length_app; simpl; lia).
    apply run_body_truncates; assumption.
  - intros s sk out in1 args rest c slot slot' pre rk Hp Hd Hv Hargs Hc Hconf Hslot
           Hcheck Hff Hex Hk.
    rewrite (Run_sequence s out in1 Hd Hv).
    replace (length (sequence_ok args :: pre ++ [rk])) with (S (S (length pre)))
      by (simpl; rewrite length_app; simpl; lia).
    apply (RunSequence_truncates (set_in s in1) sk out args rest c slot slot' pre rk);
      assumption.
  - intros s out op rest Hp Hd Hv Hall.
    destruct (Run_not_in_session s out op rest Hp Hd Hv Hall) as (out' & E & HB).
    exists out'. repeat split; assumption || reflexivity.
Qed.

End Truncation.

Lemma Run_fatal_truncation_witness :
  exists out',
    Compound.Run Compound.counting_handler 0 Compound.sample_request Bufpool.fresh
    = Some (Compound.mkState (Compound.st_x Compound.sample_request) ∅ 1%nat
              (Xdr.be32 Msg.OP4_GETFH), out')
    /\ Bufpool.Bytes out'
       = Compound.wire_header (Compound.st_x Compound.sample_request) 2
           Msg.NFS4ERR_SERVERFAULT
         ++ concat (map Compound.wire_result
                      [Compound.mkOpResult Msg.OP4_PUTROOTFH Msg.NFS4_OK [];
                       Compound.mkOpResult Msg.OP4_LOCK Msg.NFS4ERR_SERVERFAULT []]).
Proof.
  refine (proj1 (Run_fatal_truncation nat Compound.counting_handler 0)
            Compound.sample_request _ Bufpool.fresh Msg.OP4_PUTROOTFH
            (Xdr.be32 Msg.OP4_LOCK ++ Xdr.be32 Msg.OP4_GETFH)
            [Compound.mkOpResult Msg.OP4_PUTROOTFH Msg.NFS4_OK []]
            (Compound.mkOpResult Msg.OP4_LOCK Msg.NFS4ERR_SERVERFAULT [])
            _ _ _ _ _ _).
  - split; reflexivity.
  - reflexivity.
  - left. simpl. lia.
  - split; [repeat constructor | reflexivity].
  - reflexivity.
  - simpl. lia.
Defined.

(** ** SEQUENCE: witnesses and the uncached retry *)

Lemma RunSequence_dead_session_witness :
  exists cl' out',
    Compound.RunSequence Compound.counting_handler 60
      (Compound.sample_session_request {[7 := Compound.sample_session_client false]} 2
         (Compound.sample_sequence_args 1 16 ++ Xdr.be32 Msg.OP4_REMOVE))
      Bufpool.fresh
    = Some (Compound.mkState
              (Compound.st_x (Compound.sample_session_request ∅ 2 []))
              cl' 0%nat (Xdr.be32 Msg.OP4_REMOVE), out')
    /\ Bufpool.Bytes out'
       = Compound.dead_reply (Compound.st_x (Compound.sample_session_request ∅ 2 []))
    /\ (forall id, Clients.sessions <$> (cl' !! id)
                   = Clients.sessions
                       <$> (({[7 := Compound.sample_session_client false]}
                              : gmap Z Clients.Client) !! id)).
Proof.
  refine (RunSequence_dead_session nat Compound.counting_handler 60
            (Compound.sample_session_request {[7 := Compound.sample_session_client false]} 2
               (Compound.sample_sequence_args 1 16 ++ Xdr.be32 Msg.OP4_REMOVE))
            Bufpool.fresh
            (Msg.mkSEQUENCE4args Compound.sample_session_id 1 16 0 false)
            (Xdr.be32 Msg.OP4_REMOVE) _ _ _).
  - split; reflexivity.
  - reflexivity.
  - right. right.
    exists (Compound.sample_session_client false), (Clients.new_session false).
    repeat split; reflexivity.
Defined.

Section UncachedRetry.
Import Bufpool Compound.

(** With no reply buffer in the slot, a SEQUENCE repeating the slot's
    sequence id is answered with RETRY_UNCACHED_REP. *)
Lemma check_slot_retry_uncached slot args :
  Clients.SequenceID slot = Msg.SequenceID args ->
  Clients.ContainsData slot = false ->
  Clients.Buf slot = None ->
  check_slot slot args = SeqReply Msg.NFS4ERR_RETRY_UNCACHED_REP.
Proof.
  intros Hs Hc Hb. unfold check_slot. rewrite Hs, Hc, Hb, Z.eqb_refl. reflexivity.
Qed.

(** With a reply buffer but no cached data, it is accepted again. *)
Lemma check_slot_reexecutes slot args sb :
  Clients.SequenceID slot = Msg.SequenceID args ->
  Clients.ContainsData slot = false ->
  Clients.Buf slot = Some sb ->
  check_slot slot args
  = SeqProceed (Clients.mkSlot (Clients.SlotID slot) (Msg.SequenceID args)
                  (Msg.CacheThis args && true) (Some sb)).
Proof.
  intros Hs Hc Hb. unfold check_slot. rewrite Hs, Hc, Hb, Z.eqb_refl. reflexivity.
Qed.

(** C3: on a persistent session (every slot owns a reply buffer), a
    SEQUENCE without [cache_this] followed by REMOVE is executed; its
    retransmission with the same sequence id finds the slot's sequence id
    equal and no cached data, and yet is executed a second time: REMOVE
    runs again and the reply is the two-operation reply, not the
    one-operation RETRY_UNCACHED_REP reply. *)
Theorem RunSequence_reexecutes_uncached_retry :
  match Run counting_handler 60
          (sample_session_request {[7 := sample_session_client true]} 2
             sample_sequence_remove) fresh with
  | None => False
  | Some (s1, out1) =>
      st_world s1 = 1%nat
      /\ (exists c session slot,
            st_clients s1 !! 7 = Some c
            /\ Clients.sessions c !! 9 = Some session
            /\ session !! 0%nat = Some slot
            /\ Clients.SequenceID slot = 1
            /\ Clients.ContainsData slot = false)
      /\ match Run counting_handler 60
                (sample_session_request (st_clients s1) 2 sample_sequence_remove)
                fresh with
         | None => False
         | Some (s2, out2) =>
             st_world s2 = 1%nat
             /\ Bytes out2
                = wire_header (st_x s2) 2 Msg.NFS4_OK
                  ++ wire_result (sequence_ok
                                    (Msg.mkSEQUENCE4args sample_session_id 1 0 0 false))
                  ++ wire_result (mkOpResult Msg.OP4_REMOVE Msg.NFS4_OK [])
             /\ Bytes out2
                <> wire_header (st_x s2) 1 Msg.NFS4ERR_RETRY_UNCACHED_REP
                   ++ wire_result (mkOpResult Msg.OP4_SEQUENCE
                                     Msg.NFS4ERR_RETRY_UNCACHED_REP [])
         end
  end.
Proof.
  vm_compute. split; [reflexivity|]. split.
  - eexists _, _, _. repeat split; reflexivity.
  - split; [reflexivity|]. split; [reflexivity|]. intros H. discriminate H.
Qed.

End UncachedRetry.

(** * Further properties of the code *)

(** ** The attribute bitmap codec as a pair *)

Section BitmapCodec.
Import Bitmap.

Lemma lor_u32 (a b : Z) : is_u32 a -> is_u32 b -> is_u32 (Z.lor a b).
Proof.
  unfold is_u32. intros [Ha Ha'] [Hb Hb']. split; [apply Z.lor_nonneg; lia|].
  destruct (Z.eq_dec (Z.lor a b) 0) as [->|Hne]; [lia|].
  assert (Hpos : 0 < Z.lor a b) by (pose proof (proj2 (Z.lor_nonneg a b) (conj Ha Hb)); lia).
  apply Z.log2_lt_pow2; [exact Hpos|].
  rewrite Z.log2_lor by lia.
  destruct (Z.eq_dec a 0) as [->|Hna], (Z.eq_dec b 0) as [->|Hnb];
    cbn [Z.log2 Z.max Z.compare]; try lia.
  - rewrite Z.max_r by apply Z.log2_nonneg. apply Z.log2_lt_pow2; lia.
  - rewrite Z.max_l by apply Z.log2_nonneg. apply Z.log2_lt_pow2; lia.
  - apply Z.max_lub_lt; apply Z.log2_lt_pow2; lia.
Qed.

Lemma set_bit_u32 (rs rs' : list Z) (v : Z) (on : bool) :
  Forall is_u32 rs -> set_bit rs v on = Some rs' -> Forall is_u32 rs'.
Proof.
  intros Hrs. unfold set_bit. destruct on; cbn [negb]; [|intros [= <-]; exact Hrs].
  cbv zeta. destruct (Z.rem v 32 <? 0); [discriminate|].
  destruct ((Z.quot v 32 <? 0) || (Z.of_nat (length rs) <=? Z.quot v 32)); [discriminate|].
  intros [= <-]. apply Forall_insert; [exact Hrs|].
  apply lor_u32; [|apply u32_range].
  destruct (rs !! Z.to_nat (Z.quot v 32)) as [z|] eqn:E; cbn [default from_option].
  - unfold id. exact (proj1 (Forall_lookup _ _) Hrs _ _ E).
  - unfold is_u32. lia.
Qed.

Lemma set_bits_u32 (entries : list (Z * bool)) :
  forall rs rs', Forall is_u32 rs -> set_bits rs entries = Some rs' -> Forall is_u32 rs'.
Proof.
  induction entries as [|[v on] entries IH]; intros rs rs' Hrs H.
  - injection H as <-. exact Hrs.
  - cbn [set_bits] in H. destruct (set_bit rs v on) as [rs1|] eqn:E1; [|discriminate H].
    apply (IH rs1 rs'); [exact (set_bit_u32 _ _ _ _ Hrs E1) | exact H].
Qed.

Lemma zeros_u32 (n : nat) : Forall is_u32 (replicate n 0).
Proof. apply Forall_replicate. unfold is_u32. lia. Qed.

(** Two bitmaps of the same length that agree on every bit are the same
    words. *)
Lemma getbit_ext (a : list Z) :
  forall b, length a = length b -> Forall is_u32 a -> Forall is_u32 b ->
    (forall k, 0 <= k -> getbit a k = getbit b k) -> a = b.
Proof.
  intros b Hlen Ha Hb Hbits. apply list_eq. intros i.
  destruct (a !! i) as [x|] eqn:Ex.
  - assert (Hi : (i < length b)%nat) by (rewrite <- Hlen; eapply lookup_lt_Some, Ex).
    destruct (lookup_lt_is_Some_2 b i Hi) as [y Ey]. rewrite Ey. f_equal.
    pose proof (proj1 (Forall_lookup _ _) Ha _ _ Ex) as Hx.
    pose proof (proj1 (Forall_lookup _ _) Hb _ _ Ey) as Hy.
    unfold is_u32 in Hx, Hy.
    apply Z.bits_inj'. intros j Hj.
    destruct (Z.lt_ge_cases j 32) as [Hlt|Hge].
    + specialize (Hbits (32 * Z.of_nat i + j) ltac:(lia)). unfold getbit in Hbits.
      replace ((32 * Z.of_nat i + j) / 32) with (Z.of_nat i) in Hbits.
      2:{ rewrite Z.mul_comm, Z.div_add_l by lia. rewrite (Z.div_small j 32) by lia. lia. }
      replace ((32 * Z.of_nat i + j) mod 32) with j in Hbits.
      2:{ rewrite Z.add_comm, Z.mul_comm, Z.mod_add by lia. rewrite Z.mod_small by lia.
          reflexivity. }
      rewrite Nat2Z.id, Ex, Ey in Hbits. exact Hbits.
    + assert (Hp : 2 ^ 32 <= 2 ^ j) by (apply Z.pow_le_mono_r; lia).
      rewrite !Z.bits_above_log2; try reflexivity; try lia.
      * destruct (Z.eq_dec y 0) as [->|]; [cbn; lia|]. apply Z.log2_lt_pow2; lia.
      * destruct (Z.eq_dec x 0) as [->|]; [cbn; lia|]. apply Z.log2_lt_pow2; lia.
  - symmetry. apply lookup_ge_None. rewrite <- Hlen. apply lookup_ge_None. exact Ex.
Qed.

Lemma getbit_beyond (rs : list Z) (k : Z) :
  32 * Z.of_nat (length rs) <= k -> getbit rs k = false.
Proof.
  intros Hk. unfold getbit.
  assert (Z.of_nat (length rs) <= k / 32) by (apply Z.div_le_lower_bound; lia).
  rewrite (proj2 (lookup_ge_None rs (Z.to_nat (k / 32)))) by lia.
  apply Z.testbit_0_l.
Qed.

(** The largest key of a decoded bitmap of [n > 0] words is [32 n - 1]. *)
Lemma maxInt_bitmap4Decode (nums : list Z) :
  nums <> [] -> maxInt (bitmap4Decode nums) = 32 * Z.of_nat (length nums) - 1.
Proof.
  intros Hne. assert (Hn : (0 < length nums)%nat) by (destruct nums; [congruence | cbn; lia]).
  destruct (maxInt_spec (bitmap4Decode nums)) as (H0 & Hle & Hex).
  assert (Hlast : is_Some (bitmap4Decode nums !! (32 * Z.of_nat (length nums) - 1))).
  { rewrite bitmap4Decode_lookup. destruct (decide _) as [|N]; [eauto | lia]. }
  destruct Hlast as [v Hv]. specialize (Hle _ _ Hv).
  destruct Hex as [E|[v' Hv']]; [lia|].
  rewrite bitmap4Decode_lookup in Hv'. destruct (decide _) as [Hr|]; [lia | discriminate Hv'].
Qed.

End BitmapCodec.

Section BitmapCodecTheorems.
Import Bitmap.

(** Decoding what [bitmap4Encode] returned: the result has [size] words,
    each a 32-bit word, and the decoded map marks as present exactly the
    ids the encoded map marks. *)
Theorem bitmap4Decode_Encode (b : gmap Z bool) (rs : list Z)
    (Henc : bitmap4Encode b = Some rs) :
  length rs = Z.to_nat (size b)
  /\ Forall is_u32 rs
  /\ (forall k, present (bitmap4Decode rs) k <-> present b k)
  /\ (forall k, is_Some (bitmap4Decode rs !! k) <-> 0 <= k < 32 * size b).
Proof.
  pose proof Henc as H. unfold bitmap4Encode in H.
  destruct (set_bits_spec _ _ _ H) as (L & _ & _). rewrite length_replicate in L.
  split; [exact L|]. split; [exact (set_bits_u32 _ _ _ (zeros_u32 _) H)|].
  split; [exact (bitmap4_round_trip b rs Henc)|].
  intros k. rewrite bitmap4Decode_lookup, L.
  assert (Hs : 0 <= size b).
  { unfold size. cbv zeta. destruct (maxInt_spec b) as (H0 & _ & _).
    rewrite Z.quot_div_nonneg by lia.
    assert (0 <= maxInt b / 32) by (apply Z.div_pos; lia).
    destruct (Z.rem (maxInt b) 32 >? 0); lia. }
  rewrite Z2Nat.id by exact Hs.
  destruct (decide (0 <= k < 32 * size b)) as [Hk|Hk].
  - split; [intros _; exact Hk | eauto].
  - split; [intros [? X]; discriminate X | intros X; contradiction].
Qed.

Lemma bitmap4Decode_Encode_witness :
  length [0; 2] = Z.to_nat (size {[33 := true]})
  /\ Forall is_u32 [0; 2]
  /\ (forall k, present (bitmap4Decode [0; 2]) k <-> present {[33 := true]} k)
  /\ (forall k, is_Some (bitmap4Decode [0; 2] !! k) <-> 0 <= k < 32 * size {[33 := true]}).
Proof. apply (bitmap4Decode_Encode {[33 := true]} [0; 2]). vm_compute. reflexivity. Defined.

(** Encoding what [bitmap4Decode] produced gives back the words: the
    encoder never panics on a decoded bitmap. *)
Theorem bitmap4Encode_Decode (nums : list Z) (Hnums : Forall is_u32 nums) :
  bitmap4Encode (bitmap4Decode nums) = Some nums.
Proof.
  destruct (decide (nums = [])) as [->|Hne]; [vm_compute; reflexivity|].
  pose proof (maxInt_bitmap4Decode nums Hne) as Hmax.
  assert (Hn : (0 < length nums)%nat) by (destruct nums; [congruence | cbn; lia]).
  destruct (bitmap4Encode_returns (bitmap4Decode nums)) as [rs Hrs].
  { intros k Hk. unfold present in Hk. rewrite bitmap4Decode_lookup in Hk.
    destruct (decide _) as [Hr|]; [lia | discriminate Hk]. }
  { rewrite Hmax. intros Hz. exfalso.
    replace (32 * Z.of_nat (length nums) - 1)
      with (31 + (Z.of_nat (length nums) - 1) * 32) in Hz by lia.
    rewrite Z.mod_add in Hz by lia. discriminate Hz. }
  rewrite Hrs. f_equal.
  pose proof Hrs as H. unfold bitmap4Encode in H.
  destruct (set_bits_spec _ _ _ H) as (L & _ & B). rewrite length_replicate in L.
  assert (Hsize : size (bitmap4Decode nums) = Z.of_nat (length nums)).
  { unfold size. cbv zeta. rewrite Hmax.
    rewrite Z.quot_div_nonneg, Z.rem_mod_nonneg by lia.
    replace (32 * Z.of_nat (length nums) - 1)
      with (31 + (Z.of_nat (length nums) - 1) * 32) by lia.
    rewrite Z.mod_add, Z.div_add by lia.
    change (31 mod 32) with 31. change (31 / 32) with 0. change (31 >? 0) with true.
    cbv iota. lia. }
  rewrite Hsize, Nat2Z.id in L.
  apply getbit_ext; [exact L | exact (set_bits_u32 _ _ _ (zeros_u32 _) H) | exact Hnums |].
  intros k Hk. rewrite B, getbit_zeros by exact Hk. cbn [orb].
  destruct (marks (map_to_list (bitmap4Decode nums)) k) eqn:Em.
  - apply marks_true, elem_of_map_to_list in Em. rewrite bitmap4Decode_lookup in Em.
    destruct (decide _); [congruence | discriminate Em].
  - destruct (getbit nums k) eqn:Eg; [|reflexivity].
    rewrite <- Em. apply marks_true, elem_of_map_to_list.
    rewrite bitmap4Decode_lookup.
    destruct (decide (0 <= k < 32 * Z.of_nat (length nums))) as [|N]; [congruence|].
    rewrite getbit_beyond in Eg by lia. discriminate Eg.
Qed.

Lemma bitmap4Encode_Decode_witness :
  bitmap4Encode (bitmap4Decode [1048858; 11575866]) = Some [1048858; 11575866].
Proof.
  apply (bitmap4Encode_Decode [1048858; 11575866]).
  repeat constructor; unfold is_u32; lia.
Defined.

(** Go ranges over the map in an unspecified order; neither loop of
    [bitmap4Encode] depends on it. *)
Theorem bitmap4Encode_any_order (x : gmap Z bool) (entries : list (Z * bool))
    (Hperm : entries ≡ₚ map_to_list x) :
  foldl (fun m kv => if fst kv >? m then fst kv else m) 0 entries = maxInt x
  /\ set_bits (replicate (Z.to_nat (size x)) 0) entries = bitmap4Encode x.
Proof.
  split; [|apply set_bits_Permutation, Hperm].
  unfold maxInt.
  destruct (foldl_max_spec entries 0) as (A1 & A2 & A3).
  destruct (foldl_max_spec (map_to_list x) 0) as (B1 & B2 & B3).
  cbv zeta in *.
  set (m1 := foldl _ 0 entries) in *. set (m2 := foldl _ 0 (map_to_list x)) in *.
  assert (m1 <= m2).
  { destruct A3 as [->|(kv & Hin & <-)]; [exact B1|]. apply B2. rewrite <- Hperm. exact Hin. }
  assert (m2 <= m1).
  { destruct B3 as [->|(kv & Hin & <-)]; [exact A1|]. apply A2. rewrite Hperm. exact Hin. }
  lia.
Qed.

Lemma bitmap4Encode_any_order_witness :
  foldl (fun m kv => if fst kv >? m then fst kv else m) 0
        [(33, true); (1, true); (4, false)]
  = maxInt {[1 := true; 4 := false; 33 := true]}
  /\ set_bits (replicate (Z.to_nat (size {[1 := true; 4 := false; 33 := true]})) 0)
              [(33, true); (1, true); (4, false)]
     = bitmap4Encode {[1 := true; 4 := false; 33 := true]}.
Proof.
  apply (bitmap4Encode_any_order {[1 := true; 4 := false; 33 := true]}
           [(33, true); (1, true); (4, false)]).
  vm_compute. apply perm_skip, perm_swap.
Defined.

(** [bitmap4Encode] returns exactly on the maps whose present ids are
    non-negative and whose largest key is not both a multiple of 32 and
    present; on every other map it panics. *)
Theorem bitmap4Encode_returns_iff (b : gmap Z bool) :
  is_Some (bitmap4Encode b)
  <-> (forall k, present b k -> 0 <= k)
      /\ (maxInt b mod 32 = 0 -> ~ present b (maxInt b)).
Proof.
  split.
  - intros [rs H]. split.
    + intros k Hk. unfold bitmap4Encode in H.
      destruct (set_bits_spec _ _ _ H) as (_ & R & _).
      apply (R k). apply elem_of_map_to_list. exact Hk.
    + intros Hz Hp. rewrite (bitmap4Encode_panics_at_word_boundary b Hp Hz) in H.
      discriminate H.
  - intros [Hpos Hmax]. destruct (bitmap4Encode_returns b Hpos Hmax) as [rs ->]. eauto.
Qed.

End BitmapCodecTheorems.

(** ** The file-id codec, read the other way *)

(** [FileID] does not look at the third word of a state-id [other], and
    [FileOther] of the id it returns restores the first two words. *)
Theorem FileOther_FileID (o : Other3)
    (H0 : is_u32 (other0 o)) (H1 : is_u32 (other1 o)) :
  FileOther (FileID o) (other2 o) = o
  /\ FileID o = other0 o * 2 ^ 32 + other1 o
  /\ (forall seq, FileID (mkOther (other0 o) (other1 o) seq) = FileID o).
Proof.
  unfold is_u32 in *.
  assert (Hid : FileID o = other0 o * 2 ^ 32 + other1 o).
  { unfold FileID. rewrite (u64_id (other0 o)) by (unfold is_u64; lia).
    rewrite (u64_id (other1 o)) by (unfold is_u64; lia).
    rewrite Z.shiftl_mul_pow2 by lia.
    rewrite (u64_id (other0 o * 2 ^ 32)) by (unfold is_u64; lia).
    apply u64_id. unfold is_u64. lia. }
  split; [|split; [exact Hid | reflexivity]].
  unfold FileOther. rewrite Hid. destruct o as [a b c]; cbn [other0 other1 other2] in *.
  f_equal.
  - rewrite Z.shiftr_div_pow2 by lia.
    rewrite Z.div_add_l by lia. rewrite (Z.div_small b) by lia.
    rewrite Z.add_0_r. apply u32_id. unfold is_u32. lia.
  - unfold u32. rewrite Z.add_comm, Z.mod_add by lia. apply Z.mod_small. lia.
Qed.

Lemma FileOther_FileID_witness :
  FileOther (FileID (mkOther 19088743 2309737967 9)) 9 = mkOther 19088743 2309737967 9
  /\ FileID (mkOther 19088743 2309737967 9) = 19088743 * 2 ^ 32 + 2309737967
  /\ (forall seq, FileID (mkOther 19088743 2309737967 seq)
                  = FileID (mkOther 19088743 2309737967 9)).
Proof.
  apply (FileOther_FileID (mkOther 19088743 2309737967 9)); unfold is_u32; simpl; lia.
Defined.

(** ** The clock *)

(** [MustIncrement] never moves more than one second away from the
    clock, and its result is later than [prev] exactly when the clock is
    ahead of [prev] or less than one second behind it. *)
Theorem MustIncrement_later_iff (c : Clock.Clock) (prev : Clock.Time) :
  Clock.now c <= Clock.MustIncrement c prev <= Clock.now c + Clock.Second
  /\ (prev < Clock.MustIncrement c prev
      <-> prev < Clock.now c \/ (Clock.now c < prev < Clock.now c + Clock.Second))
  /\ (Clock.Since c (Clock.MustIncrement c prev) = 0
      \/ Clock.Since c (Clock.MustIncrement c prev) = - Clock.Second).
Proof.
  unfold Clock.MustIncrement, Clock.Since, Clock.Second. cbv zeta.
  destruct (Z.ltb_spec (Clock.now c) prev); repeat split; try lia.
Qed.

(** ** The XDR decoder reads back what the encoder wrote *)

Section DecoderFacts.
Import Decoder.

Lemma be32_bytes (v : Z) : Forall is_byte (Xdr.be32 v).
Proof.
  unfold Xdr.be32, is_byte.
  repeat (apply Forall_cons; split; [apply Z.mod_pos_bound; lia|]). apply Forall_nil. trivial.
Qed.

Lemma Uint32_be32 (v : Z) (rest : list Z) :
  is_u32 v -> Uint32 (Xdr.be32 v ++ rest) = Some (v, rest).
Proof.
  unfold is_u32. intros Hv. unfold Uint32, Xdr.be32. cbn [app Xdr.DecUint32].
  f_equal. f_equal.
  rewrite !Z.shiftr_div_pow2, !Z.shiftl_mul_pow2 by lia.
  change (2 ^ 24) with 16777216. change (2 ^ 16) with 65536. change (2 ^ 8) with 256.
  change (2 ^ 32) with 4294967296 in Hv.
  Z.to_euclidean_division_equations. lia.
Qed.

Lemma BigEndianUint64_be64 (v : Z) :
  is_u64 v -> Clients.BigEndianUint64 (Xdr.be64 v) = v.
Proof.
  unfold is_u64. intros Hv. unfold Clients.BigEndianUint64, Xdr.be64, Xdr.be32.
  cbn [app take foldl].
  rewrite !Z.shiftr_div_pow2 by lia.
  change (2 ^ 24) with 16777216. change (2 ^ 16) with 65536. change (2 ^ 8) with 256.
  change (2 ^ 32) with 4294967296. change (2 ^ 64) with 18446744073709551616 in Hv.
  Z.to_euclidean_division_equations. lia.
Qed.

Lemma ReadFull_app (p rest : list Z) :
  ReadFull (length p) (p ++ rest) = Some (p, rest).
Proof.
  unfold ReadFull. rewrite length_app.
  destruct (Nat.ltb_spec (length p + length rest) (length p)) as [H|_]; [lia|].
  rewrite take_app_length, drop_app_length. reflexivity.
Qed.

Lemma ReadFull_short (n : nat) (inb : list Z) :
  (length inb < n)%nat -> ReadFull n inb = None.
Proof.
  intros H. unfold ReadFull. destruct (Nat.ltb_spec (length inb) n); [reflexivity | lia].
Qed.

Lemma Uint64_be64 (v : Z) (rest : list Z) :
  is_u64 v -> Uint64 (Xdr.be64 v ++ rest) = Some (v, rest).
Proof.
  intros Hv. unfold Uint64.
  change 8%nat with (length (Xdr.be64 v)). rewrite ReadFull_app.
  rewrite BigEndianUint64_be64 by exact Hv. reflexivity.
Qed.

Lemma Bytes_wire_bytes (s rest : list Z) :
  is_u32 (Z.of_nat (length s)) ->
  Bytes (Xdr.wire_bytes s ++ rest) = Some (s, rest).
Proof.
  intros Hlen. unfold Bytes, Xdr.wire_bytes.
  rewrite u32_id by exact Hlen. rewrite <- app_assoc, Uint32_be32 by exact Hlen.
  cbv zeta. rewrite Nat2Z.id.
  replace (length s + Xdr.Pad (length s))%nat
    with (length (s ++ replicate (Xdr.Pad (length s)) 0))
    by (rewrite length_app, length_replicate; reflexivity).
  rewrite ReadFull_app. rewrite take_app_length. reflexivity.
Qed.

Lemma ByteArray_wire (s rest : list Z) :
  ByteArray (length s) (s ++ replicate (Xdr.Pad (length s)) 0 ++ rest) = Some (s, rest).
Proof.
  unfold ByteArray. rewrite ReadFull_app.
  destruct (0 <? Xdr.Pad (length s))%nat eqn:E.
  - rewrite <- (length_replicate (Xdr.Pad (length s)) 0) at 1.
    rewrite ReadFull_app. reflexivity.
  - apply Nat.ltb_ge in E. assert (Xdr.Pad (length s) = 0%nat) as -> by lia. reflexivity.
Qed.

Lemma Uint32s_loop_wire (vs : list Z) :
  forall rest, Forall is_u32 vs ->
    Uint32s_loop (length vs) (concat (map Xdr.be32 vs) ++ rest) = Some (vs, rest).
Proof.
  induction vs as [|v vs IH]; intros rest H; [reflexivity|].
  apply Forall_cons in H as [Hv Hvs].
  cbn [length map concat Uint32s_loop]. rewrite <- app_assoc.
  rewrite Uint32_be32 by exact Hv. rewrite IH by exact Hvs. reflexivity.
Qed.

Lemma Decode_wire (v : Xdr.value) (rest : list Z) :
  in_range v -> Decode (target_of v) (Xdr.wire v ++ rest) = Some (v, rest).
Proof.
  destruct v as [z|z|z|s|b|s|s|s]; cbn [in_range target_of Decode Xdr.wire]; intros H.
  - rewrite u32_id by exact H. rewrite Uint32_be32 by exact H. reflexivity.
  - rewrite Uint32_be32 by exact H. reflexivity.
  - rewrite Uint64_be64 by exact H. reflexivity.
  - unfold String. rewrite Bytes_wire_bytes by apply H. reflexivity.
  - unfold Bool. rewrite Uint32_be32 by (destruct b; unfold is_u32; lia).
    destruct b; reflexivity.
  - rewrite Bytes_wire_bytes by apply H. reflexivity.
  - destruct H as [_ H16]. rewrite <- app_assoc, <- H16, ByteArray_wire. reflexivity.
  - destruct H as [Hs Hlen]. unfold Uint32s.
    rewrite u32_id by exact Hlen. rewrite <- app_assoc, Uint32_be32 by exact Hlen.
    rewrite Nat2Z.id, Uint32s_loop_wire by exact Hs. reflexivity.
Qed.

End DecoderFacts.

Section DecoderTheorems.
Import Decoder.

Lemma DecodeAll_wire_all (vs : list Xdr.value) :
  forall rest, Forall in_range vs ->
    DecodeAll (map target_of vs) (Xdr.wire_all vs ++ rest) = Some (vs, rest).
Proof.
  induction vs as [|v vs IH]; intros rest H; [reflexivity|].
  apply Forall_cons in H as [Hv Hvs].
  unfold Xdr.wire_all in *. cbn [map concat DecodeAll]. rewrite <- app_assoc.
  rewrite Decode_wire by exact Hv. rewrite IH by exact Hvs. reflexivity.
Qed.

(** Round trip through the encoder and a pooled buffer: decoding the
    bytes [EncodeAll] wrote, into targets of the same types, yields the
    encoded values and consumes exactly those bytes. *)
Theorem DecodeAll_EncodeAll (vs : list Xdr.value) (b : Bufpool.Buf) (rest : list Z)
    (Hb : Bufpool.from_pool b) (Hvs : Forall in_range vs) :
  Bufpool.Bytes (Xdr.EncodeAll vs b) = Xdr.wire_all vs
  /\ DecodeAll (map target_of vs) (Bufpool.Bytes (Xdr.EncodeAll vs b) ++ rest)
     = Some (vs, rest).
Proof.
  destruct (from_pool_inside b Hb) as [Hin Hun].
  assert (E : Bufpool.Bytes (Xdr.EncodeAll vs b) = Xdr.wire_all vs).
  { rewrite EncodeAll_Write, Bytes_Write by assumption.
    destruct Hb as [Hr Hw]. unfold Bufpool.Bytes. rewrite Hr, Hw. reflexivity. }
  split; [exact E|]. rewrite E. apply DecodeAll_wire_all, Hvs.
Qed.

Lemma DecodeAll_EncodeAll_witness :
  Bufpool.Bytes
    (Xdr.EncodeAll [Xdr.VUint32 7; Xdr.VString [104; 105]; Xdr.VBool true;
                    Xdr.VUint64 (2 ^ 40 + 5); Xdr.VUint32s [1; 2 ^ 31]] Bufpool.fresh)
  = Xdr.wire_all [Xdr.VUint32 7; Xdr.VString [104; 105]; Xdr.VBool true;
                  Xdr.VUint64 (2 ^ 40 + 5); Xdr.VUint32s [1; 2 ^ 31]]
  /\ DecodeAll (map target_of [Xdr.VUint32 7; Xdr.VString [104; 105]; Xdr.VBool true;
                               Xdr.VUint64 (2 ^ 40 + 5); Xdr.VUint32s [1; 2 ^ 31]])
       (Bufpool.Bytes
          (Xdr.EncodeAll [Xdr.VUint32 7; Xdr.VString [104; 105]; Xdr.VBool true;
                          Xdr.VUint64 (2 ^ 40 + 5); Xdr.VUint32s [1; 2 ^ 31]]
             Bufpool.fresh) ++ [9])
     = Some ([Xdr.VUint32 7; Xdr.VString [104; 105]; Xdr.VBool true;
              Xdr.VUint64 (2 ^ 40 + 5); Xdr.VUint32s [1; 2 ^ 31]], [9]).
Proof.
  apply (DecodeAll_EncodeAll _ Bufpool.fresh [9]).
  - split; reflexivity.
  - repeat constructor; unfold is_u32, is_u64, is_byte; simpl; lia.
Defined.

(** An [int] travels as its low 32 bits and comes back non-negative: only
    the ints in the range of [uint32] survive the round trip. *)
Theorem Decode_int (z : Z) (rest : list Z) :
  Decode TInt (Xdr.wire (Xdr.VInt z) ++ rest) = Some (Xdr.VInt (u32 z), rest)
  /\ (Decode TInt (Xdr.wire (Xdr.VInt z) ++ rest) = Some (Xdr.VInt z, rest)
      <-> is_u32 z).
Proof.
  assert (E : Decode TInt (Xdr.wire (Xdr.VInt z) ++ rest) = Some (Xdr.VInt (u32 z), rest)).
  { cbn [Decode Xdr.wire]. rewrite Uint32_be32 by apply u32_range. reflexivity. }
  split; [exact E|]. rewrite E. split.
  - intros [= H]. rewrite <- H. apply u32_range.
  - intros H. rewrite u32_id by exact H. reflexivity.
Qed.

Lemma Uint32_short (inb : list Z) : (length inb < 4)%nat -> Uint32 inb = None.
Proof.
  intros H. destruct inb as [|a [|b [|c [|d inb]]]]; try reflexivity. cbn in H. lia.
Qed.

Lemma Uint32_rest (inb rest : list Z) (v : Z) :
  Uint32 inb = Some (v, rest) -> length inb = (4 + length rest)%nat.
Proof.
  destruct inb as [|a [|b [|c [|d inb]]]]; try discriminate.
  intros [= _ <-]. reflexivity.
Qed.

Lemma Uint32s_loop_short (n : nat) :
  forall inb, (length inb < 4 * n)%nat -> Uint32s_loop n inb = None.
Proof.
  induction n as [|n IH]; intros inb H; [lia|].
  cbn [Uint32s_loop]. destruct (Uint32 inb) as [[v rest]|] eqn:E; [|reflexivity].
  apply Uint32_rest in E. rewrite IH by lia. reflexivity.
Qed.

Lemma length_wire_Uint32s (vs : list Z) :
  length (concat (map Xdr.be32 vs)) = (4 * length vs)%nat.
Proof. induction vs as [|v vs IH]; [reflexivity|]. cbn [map concat length]. rewrite length_app, IH. cbn. lia. Qed.

Lemma Decode_wire_prefix (v : Xdr.value) (k : nat)
    (Hv : in_range v) (Hk : (k < length (Xdr.wire v))%nat) :
  Decode (target_of v) (take k (Xdr.wire v)) = None.
Proof.
  assert (Hword : forall z rest, (k < 4)%nat -> Uint32 (take k (Xdr.be32 z ++ rest)) = None).
  { intros z rest H4. apply Uint32_short. rewrite length_take. lia. }
  assert (Hpre : forall z rest, (4 <= k)%nat ->
            take k (Xdr.be32 z ++ rest) = Xdr.be32 z ++ take (k - 4) rest).
  { intros z rest H4. rewrite take_app. rewrite take_ge by (rewrite length_be32; lia).
    rewrite length_be32. reflexivity. }
  assert (Hbytes : forall s, is_u32 (Z.of_nat (length s)) ->
            (k < length (Xdr.wire_bytes s))%nat -> Bytes (take k (Xdr.wire_bytes s)) = None).
  { intros s Hlen Hks. unfold Bytes, Xdr.wire_bytes in *.
    rewrite u32_id in * by exact Hlen.
    destruct (Nat.lt_ge_cases k 4) as [H4|H4]; [rewrite Hword by exact H4; reflexivity|].
    rewrite Hpre by exact H4. rewrite Uint32_be32 by exact Hlen. cbv zeta.
    rewrite Nat2Z.id. rewrite ReadFull_short; [reflexivity|].
    rewrite !length_app, length_be32, length_replicate in Hks.
    rewrite length_take, length_app, length_replicate. lia. }
  destruct v as [z|z|z|s|b|s|s|s]; cbn [in_range target_of Decode Xdr.wire] in *.
  - rewrite <- (app_nil_r (Xdr.be32 _)), Hword; [reflexivity | rewrite length_be32 in Hk; lia].
  - rewrite <- (app_nil_r (Xdr.be32 _)), Hword; [reflexivity | rewrite length_be32 in Hk; lia].
  - unfold Uint64. rewrite ReadFull_short; [reflexivity|].
    rewrite length_take. change (length (Xdr.be64 z)) with 8%nat in *. lia.
  - unfold String. rewrite Hbytes; [reflexivity | apply Hv | exact Hk].
  - unfold Bool. rewrite <- (app_nil_r (Xdr.be32 _)), Hword;
      [reflexivity | rewrite length_be32 in Hk; lia].
  - rewrite Hbytes; [reflexivity | apply Hv | exact Hk].
  - destruct Hv as [_ H16]. unfold ByteArray. rewrite ReadFull_short; [reflexivity|].
    rewrite length_take. rewrite length_app, length_replicate, H16 in Hk.
    rewrite length_app, length_replicate, H16. change (Xdr.Pad 16) with 0%nat in *. lia.
  - destruct Hv as [Hs Hlen]. unfold Uint32s. rewrite u32_id in * by exact Hlen.
    destruct (Nat.lt_ge_cases k 4) as [H4|H4]; [rewrite Hword by exact H4; reflexivity|].
    rewrite Hpre by exact H4. rewrite Uint32_be32 by exact Hlen.
    rewrite Nat2Z.id, Uint32s_loop_short; [reflexivity|].
    rewrite length_app, length_be32, length_wire_Uint32s in Hk.
    rewrite length_take, length_wire_Uint32s. lia.
Qed.

Lemma DecodeAll_wire_prefix (vs : list Xdr.value) :
  forall k, Forall in_range vs -> (k < length (Xdr.wire_all vs))%nat ->
    DecodeAll (map target_of vs) (take k (Xdr.wire_all vs)) = None.
Proof.
  induction vs as [|v vs IH]; intros k H Hk; [cbn in Hk; lia|].
  apply Forall_cons in H as [Hv Hvs].
  unfold Xdr.wire_all in *. cbn [map concat DecodeAll] in *.
  rewrite length_app in Hk. rewrite take_app.
  destruct (Nat.lt_ge_cases k (length (Xdr.wire v))) as [Hlt|Hge].
  - replace (k - length (Xdr.wire v))%nat with 0%nat by lia.
    rewrite take_0, app_nil_r. rewrite Decode_wire_prefix by assumption. reflexivity.
  - rewrite take_ge by exact Hge. rewrite Decode_wire by exact Hv.
    rewrite IH by (try assumption; lia). reflexivity.
Qed.

(** A truncated encoding is never taken for a value: on every proper
    prefix of the bytes of a sequence of values, [DecodeAll] into their
    types fails. *)
Theorem DecodeAll_truncated (vs : list Xdr.value) (k : nat)
    (Hvs : Forall in_range vs) (Hk : (k < length (Xdr.wire_all vs))%nat) :
  DecodeAll (map target_of vs) (take k (Xdr.wire_all vs)) = None.
Proof. exact (DecodeAll_wire_prefix vs k Hvs Hk). Qed.

Lemma DecodeAll_truncated_witness :
  DecodeAll (map target_of [Xdr.VUint32 7; Xdr.VString [104; 105; 33]])
            (take 11 (Xdr.wire_all [Xdr.VUint32 7; Xdr.VString [104; 105; 33]])) = None.
Proof.
  apply (DecodeAll_truncated [Xdr.VUint32 7; Xdr.VString [104; 105; 33]] 11).
  - repeat constructor; unfold is_u32, is_byte; simpl; lia.
  - simpl. lia.
Defined.

End DecoderTheorems.

(** ** Authentication *)

Section AuthenticateFacts.
Import Authenticate.

Lemma string_of_bytes_of_string (s : string) : string_of_bytes (bytes_of_string s) = s.
Proof.
  unfold string_of_bytes, bytes_of_string. rewrite map_map.
  rewrite (map_ext _ (fun a => a)).
  - rewrite map_id. apply String.string_of_list_ascii_of_string.
  - intros a. rewrite N2Z.id. apply Ascii.ascii_N_embedding.
Qed.

Lemma length_bytes_of_string (s : string) :
  length (bytes_of_string s) = String.length s.
Proof.
  unfold bytes_of_string. rewrite length_map.
  induction s as [|a s IH]; [reflexivity | cbn; rewrite IH; reflexivity].
Qed.

Lemma bytes_of_string_bytes (s : string) : Forall Decoder.is_byte (bytes_of_string s).
Proof.
  unfold bytes_of_string. apply Forall_map, Forall_forall. intros a _.
  unfold Decoder.is_byte. cbn. pose proof (Ascii.N_ascii_bounded a). lia.
Qed.

(** [Creds.Decode] is [DecodeAll] into the five fields. *)
Lemma Decode_as_DecodeAll (inb : list Z) :
  Decode inb
  = match Decoder.DecodeAll
            [Decoder.TUint32; Decoder.TString; Decoder.TUint32; Decoder.TUint32;
             Decoder.TUint32s] inb with
    | Some ([Xdr.VUint32 e; Xdr.VString h; Xdr.VUint32 u; Xdr.VUint32 g; Xdr.VUint32s gs],
            rest) => Some (Auth.mkCreds e (string_of_bytes h) u g gs, rest)
    | _ => None
    end.
Proof.
  unfold Decode. cbn [Decoder.DecodeAll Decoder.Decode Decoder.with_value].
  destruct (Decoder.Uint32 inb) as [[e in1]|]; [|reflexivity].
  unfold Decoder.with_value at 1.
  destruct (Decoder.String in1) as [[h in2]|]; [|reflexivity].
  unfold Decoder.with_value at 1.
  destruct (Decoder.Uint32 in2) as [[u in3]|]; [|reflexivity].
  unfold Decoder.with_value at 1.
  destruct (Decoder.Uint32 in3) as [[g in4]|]; [|reflexivity].
  unfold Decoder.with_value at 1. unfold Decoder.Uint32s.
  destruct (Decoder.Uint32 in4) as [[n in5]|]; [|reflexivity].
  destruct (Decoder.Uint32s_loop (Z.to_nat n) in5) as [[gs in6]|]; reflexivity.
Qed.

Lemma body_in_range (c : Auth.Creds) :
  creds_in_range c ->
  Forall Decoder.in_range
    [Xdr.VUint32 (Auth.ExpirationValue c);
     Xdr.VString (bytes_of_string (Auth.Hostname c));
     Xdr.VUint32 (Auth.UID c); Xdr.VUint32 (Auth.GID c);
     Xdr.VUint32s (Auth.AdditionalGroups c)].
Proof.
  intros (He & Hu & Hg & Hgs & Hn & Hh).
  repeat (apply Forall_cons; split); try apply Forall_nil; cbn [Decoder.in_range];
    try assumption; try (split; assumption).
  split; [apply bytes_of_string_bytes | rewrite length_bytes_of_string; exact Hh].
Qed.

Lemma Decode_body (c : Auth.Creds) (rest : list Z) :
  creds_in_range c -> Decode (body_of c ++ rest) = Some (c, rest).
Proof.
  intros Hc. rewrite Decode_as_DecodeAll. unfold body_of.
  pose proof (DecodeAll_wire_all _ rest (body_in_range c Hc)) as E.
  cbn [map Decoder.target_of] in E. rewrite E.
  rewrite string_of_bytes_of_string. destruct c; reflexivity.
Qed.

Lemma Decode_body_prefix (c : Auth.Creds) (k : nat) :
  creds_in_range c -> (k < length (body_of c))%nat -> Decode (take k (body_of c)) = None.
Proof.
  intros Hc Hk. rewrite Decode_as_DecodeAll. unfold body_of in *.
  pose proof (DecodeAll_wire_prefix _ k (body_in_range c Hc) Hk) as E.
  cbn [map Decoder.target_of] in E. rewrite E. reflexivity.
Qed.

(** [Authenticate] denies every flavor below AUTH_UNIX with TOOWEAK,
    whatever the body.  Every other flavor is read as AUTH_UNIX: a body
    that starts with the encoding of a credential tuple yields that tuple
    and the AUTH_UNIX reply verifier with an empty body, bytes after it
    and the request verifier being ignored; a body cut short yields the
    decoder's error. *)
Theorem Authenticate_cases (cred verf : Msg.Auth) (c : Auth.Creds)
    (Hc : creds_in_range c) :
  (Msg.Flavor cred < Msg.AUTH_FLAVOR_UNIX ->
     Authenticate cred verf = AuthError AUTH_TOOWEAK)
  /\ (forall extra,
        Msg.AUTH_FLAVOR_UNIX <= Msg.Flavor cred ->
        Msg.Body cred = body_of c ++ extra ->
        Authenticate cred verf = Accepted (Msg.mkAuth Msg.AUTH_FLAVOR_UNIX []) c)
  /\ (forall k,
        Msg.AUTH_FLAVOR_UNIX <= Msg.Flavor cred ->
        (k < length (body_of c))%nat ->
        Msg.Body cred = take k (body_of c) ->
        Authenticate cred verf = DecodeError).
Proof.
  unfold Authenticate. split; [|split].
  - intros H. destruct (Z.ltb_spec (Msg.Flavor cred) Msg.AUTH_FLAVOR_UNIX); [reflexivity | lia].
  - intros extra H ->.
    destruct (Z.ltb_spec (Msg.Flavor cred) Msg.AUTH_FLAVOR_UNIX); [lia|].
    rewrite Decode_body by exact Hc. reflexivity.
  - intros k H Hk ->.
    destruct (Z.ltb_spec (Msg.Flavor cred) Msg.AUTH_FLAVOR_UNIX); [lia|].
    rewrite Decode_body_prefix by assumption. reflexivity.
Qed.

Lemma Authenticate_cases_witness :
  Authenticate (Msg.mkAuth 3 (body_of Clients.sample_creds ++ [1; 2]))
               (Msg.mkAuth 0 [])
  = Accepted (Msg.mkAuth Msg.AUTH_FLAVOR_UNIX []) Clients.sample_creds.
Proof.
  refine (proj1 (proj2 (Authenticate_cases
            (Msg.mkAuth 3 (body_of Clients.sample_creds ++ [1; 2]))
            (Msg.mkAuth 0 []) Clients.sample_creds _)) [1; 2] _ _).
  - unfold creds_in_range, is_u32. simpl.
    repeat split; try lia. repeat constructor; lia.
  - unfold Msg.AUTH_FLAVOR_UNIX. simpl. lia.
  - reflexivity.
Defined.

End AuthenticateFacts.

(** ** The pooled buffer as a reader and as a copy source *)

Section BufReaderFacts.
Import Bufpool BufReader.

Lemma length_Bytes (b : Buf) : well_formed b -> length (Bytes b) = Len b.
Proof.
  intros [Hr Hw]. unfold Bytes, Len. rewrite length_drop, length_take. lia.
Qed.

Lemma Read_spec (b : Buf) (n : nat) :
  well_formed b ->
  let '(bs, k, b') := Read b n in
  k = Nat.min n (Len b) /\ bs = take k (Bytes b) /\ Bytes b' = drop k (Bytes b)
  /\ well_formed b' /\ buf b' = buf b /\ w b' = w b.
Proof.
  intros Hwf. pose proof (length_Bytes b Hwf) as HL. destruct Hwf as [Hr Hw].
  unfold Read. cbv beta iota zeta. rewrite HL.
  split; [reflexivity|]. split; [reflexivity|]. split.
  - unfold Bytes. cbn [buf r w]. rewrite drop_drop. reflexivity.
  - split; [|split; reflexivity]. unfold well_formed, Len. cbn [buf r w]. lia.
Qed.

Lemma Copy_Write (b other : Buf) :
  well_formed b -> inside other -> Copy b other = Write other (Bytes b).
Proof.
  intros Hwf Hin. pose proof (length_Bytes b Hwf) as HL. unfold inside in Hin.
  rewrite Write_eq by exact Hin. rewrite HL.
  unfold Copy, Allocate, Grow, Commit, copy. cbv zeta.
  destruct (Nat.ltb_spec (length (buf other)) (w other + Len b)) as [Hg|Hg].
  - destruct (Nat.leb_spec (w other + Len b) (length (buf other))) as [|_]; [lia|].
    cbn [buf r w].
    set (grown := buf other ++ replicate (w other + Len b - length (buf other)) 0).
    assert (Hgl : length grown = (w other + Len b)%nat)
      by (unfold grown; rewrite length_app, length_replicate; lia).
    assert (HT : length (take (Len b) (drop (w other) grown)) = Len b)
      by (rewrite length_take, length_drop; lia).
    rewrite HT, HL. rewrite Nat.min_id.
    rewrite (take_ge (Bytes b)) by lia.
    rewrite (drop_ge (take _ _)) by lia. rewrite app_nil_r.
    rewrite (drop_ge grown) by lia. rewrite (drop_ge (buf other)) by lia.
    unfold grown. rewrite take_app_le by lia. reflexivity.
  - cbn [buf r w].
    assert (HT : length (take (Len b) (drop (w other) (buf other))) = Len b)
      by (rewrite length_take, length_drop; lia).
    rewrite HT, HL. rewrite Nat.min_id.
    rewrite (take_ge (Bytes b)) by lia.
    rewrite (drop_ge (take _ _)) by lia. rewrite app_nil_r. reflexivity.
Qed.

Lemma ReadFull_enough (want : nat) (b : Buf) (fuel : nat) :
  well_formed b -> (want <= Len b)%nat ->
  ReadFull (S fuel) b [] want
  = Some (take want (Bytes b), mkBuf (buf b) (r b + want) (w b)).
Proof.
  intros Hwf Hle. pose proof (length_Bytes b Hwf) as HL.
  cbn [ReadFull length]. destruct (Nat.leb_spec want 0) as [H0|H0].
  - assert (want = 0)%nat as -> by lia. rewrite take_0, Nat.add_0_r. destruct b; reflexivity.
  - unfold Read. cbv beta iota zeta. rewrite HL, Nat.sub_0_r, Nat.min_l by lia.
    cbn [app]. destruct fuel; cbn [ReadFull]; rewrite length_take, HL, Nat.min_l by lia;
      rewrite Nat.leb_refl; reflexivity.
Qed.

Lemma ReadFull_stuck (fuel : nat) :
  forall (b : Buf) (got : list Z) (want : nat),
    well_formed b -> (length got + Len b < want)%nat ->
    ReadFull fuel b got want = None.
Proof.
  induction fuel as [|fuel IH]; intros b got want Hwf Hlt.
  - cbn [ReadFull]. destruct (Nat.leb_spec want (length got)); [lia | reflexivity].
  - cbn [ReadFull]. destruct (Nat.leb_spec want (length got)); [lia|].
    pose proof (Read_spec b (want - length got) Hwf) as HR.
    destruct (Read b (want - length got)) as [[bs k] b'].
    destruct HR as (Hk & Hbs & HB & Hwf' & _ & _).
    pose proof (length_Bytes b Hwf) as HL. pose proof (length_Bytes b' Hwf') as HL'.
    apply IH; [exact Hwf'|].
    rewrite length_app, Hbs, length_take, HL, <- HL', HB, length_drop, HL. lia.
Qed.

Lemma Bytes_Write_wf (b : Buf) (p : list Z) :
  well_formed b -> Bytes (Write b p) = Bytes b ++ p /\ well_formed (Write b p).
Proof.
  intros [Hr Hw]. rewrite Write_eq by exact Hw. unfold Bytes, well_formed. cbn [buf r w].
  assert (HT : length (take (w b) (buf b)) = w b) by (rewrite length_take; lia).
  split.
  - rewrite app_assoc, take_app_le by (rewrite length_app, HT; lia).
    rewrite take_ge by (rewrite length_app, HT; lia).
    rewrite drop_app_le by lia. reflexivity.
  - rewrite !length_app, HT, length_drop. lia.
Qed.

Lemma Bytes_Copy (b other : Buf) :
  well_formed b -> well_formed other ->
  Bytes (Copy b other) = Bytes other ++ Bytes b /\ well_formed (Copy b other).
Proof.
  intros Hb Hother. rewrite Copy_Write by (try assumption; apply Hother).
  apply Bytes_Write_wf, Hother.
Qed.

(** [Copy] appends the unread bytes of its receiver to the target and
    leaves everything the target held in place. *)
Theorem Copy_appends (b other : Buf)
    (Hb : well_formed b) (Hother : well_formed other) :
  Bytes (Copy b other) = Bytes other ++ Bytes b
  /\ Len (Copy b other) = (Len other + Len b)%nat
  /\ r (Copy b other) = r other
  /\ well_formed (Copy b other).
Proof.
  pose proof (length_Bytes b Hb) as HL.
  rewrite Copy_Write by (try assumption; apply Hother).
  destruct (Bytes_Write_wf other (Bytes b) Hother) as [HB Hwf].
  split; [exact HB|]. split; [|split; [|exact Hwf]].
  - destruct (Write_w other (Bytes b) (proj2 Hother)) as (_ & Hw & Hr).
    unfold Len. rewrite Hw, Hr, HL. destruct Hother. unfold Len. lia.
  - apply (Write_w other (Bytes b) (proj2 Hother)).
Qed.

Lemma Copy_appends_witness :
  Bytes (Copy (mkBuf [9; 1; 2; 3; 9] 1 4) (mkBuf [7; 8; 0] 0 2))
  = Bytes (mkBuf [7; 8; 0] 0 2) ++ Bytes (mkBuf [9; 1; 2; 3; 9] 1 4)
  /\ Len (Copy (mkBuf [9; 1; 2; 3; 9] 1 4) (mkBuf [7; 8; 0] 0 2))
     = Nat.add (Len (mkBuf [7; 8; 0] 0 2)) (Len (mkBuf [9; 1; 2; 3; 9] 1 4))
  /\ r (Copy (mkBuf [9; 1; 2; 3; 9] 1 4) (mkBuf [7; 8; 0] 0 2)) = r (mkBuf [7; 8; 0] 0 2)
  /\ well_formed (Copy (mkBuf [9; 1; 2; 3; 9] 1 4) (mkBuf [7; 8; 0] 0 2)).
Proof.
  apply (Copy_appends (mkBuf [9; 1; 2; 3; 9] 1 4) (mkBuf [7; 8; 0] 0 2));
    unfold well_formed; simpl; lia.
Defined.

(** [Buf.Read] never reports the end of the input.  So [io.ReadFull] on a
    buffer returns the next [want] bytes when that many are unread, and
    otherwise never returns: no number of iterations ends its loop. *)
Theorem ReadFull_on_Buf (b : Buf) (want : nat) (Hb : well_formed b) :
  ((want <= Len b)%nat ->
     forall fuel,
       ReadFull (S fuel) b [] want
       = Some (take want (Bytes b), mkBuf (buf b) (r b + want) (w b))
       /\ Bytes (mkBuf (buf b) (r b + want) (w b)) = drop want (Bytes b))
  /\ ((Len b < want)%nat -> forall fuel, ReadFull fuel b [] want = None)
  /\ (Len b = 0%nat -> forall n, Read b n = ([], 0%nat, b)).
Proof.
  split; [|split].
  - intros Hle fuel. split; [apply ReadFull_enough; assumption|].
    unfold Bytes. cbn [buf r w]. rewrite drop_drop. reflexivity.
  - intros Hlt fuel. apply ReadFull_stuck; [exact Hb | cbn [length]; lia].
  - intros H0 n. pose proof (length_Bytes b Hb) as HL. unfold Read. cbv zeta.
    rewrite HL, H0, Nat.min_0_r, take_0, Nat.add_0_r. destruct b; reflexivity.
Qed.

Lemma ReadFull_on_Buf_witness :
  ReadFull 1000 (mkBuf [0; 0; 0; 53; 0; 0] 4 6) [] 4 = None.
Proof.
  refine (proj1 (proj2 (ReadFull_on_Buf (mkBuf [0; 0; 0; 53; 0; 0] 4 6) 4 _)) _ 1000%nat);
    unfold well_formed, Len; simpl; lia.
Defined.

End BufReaderFacts.

(** ** SEQUENCE: replays and rejected sequence ids *)

Section SequenceSlots.
Import Bufpool Compound.

Variable World : Type.
Variable handler : Z -> State World -> option (HandlerOut World).
Variable now : Clock.Time.

Lemma Bytes_from_pool (out : Buf) : from_pool out -> Bytes out = [].
Proof. intros [Hr Hw]. unfold Bytes. rewrite Hr, Hw, take_0. reflexivity. Qed.

Lemma from_pool_well_formed (out : Buf) : from_pool out -> BufReader.well_formed out.
Proof. intros [Hr Hw]. unfold BufReader.well_formed. rewrite Hr, Hw. lia. Qed.

(** What [RunSequence] does up to the tests on the slot. *)
Lemma RunSequence_on_slot (s : State World) out args rest c slot :
  DecSEQUENCE4args (st_in s) = Some (args, rest) ->
  st_clients s !! Clients.ClientIDFromSessionID (Msg.SessionID args) = Some c ->
  Clients.confirmed c = true ->
  Clients.GetSlot c (Msg.SessionID args) (Msg.SlotID args) = Some slot ->
  forall status cached,
    check_slot slot args = SeqReply status
    \/ check_slot slot args = SeqReplay (Some cached) ->
    RunSequence handler now s out
    = Some (mkState (st_x s)
              (<[Clients.ClientIDFromSessionID (Msg.SessionID args)
                 := Clients.set_lastSeen c now]> (st_clients s))
              (st_world s) rest,
            match check_slot slot args with
            | SeqReplay _ => Copy cached out
            | _ => WriteHeaderAndSingleOperation (st_x s) out Msg.OP4_SEQUENCE status
            end).
Proof.
  intros Hargs Hc Hconf Hslot status cached Hcheck.
  unfold RunSequence. rewrite Hargs. cbv zeta.
  cbn [set_in st_x st_clients st_world st_in].
  unfold Clients.Get. rewrite Hc, Hconf. cbn [negb].
  rewrite GetSlot_set_lastSeen, Hslot.
  destruct Hcheck as [-> | ->]; reflexivity.
Qed.

(** A retransmitted SEQUENCE whose reply is cached on the slot is answered
    with the bytes of the slot buffer; no operation runs (whatever the
    handlers are, the filehandles, the world and the slot are untouched). *)
Theorem RunSequence_replay (s : State World) (out : Buf)
    (args : Msg.SEQUENCE4args) (rest : list Z) (c : Clients.Client)
    (slot : Clients.Slot) (cached : Buf)
    (Hout : from_pool out)
    (Hargs : DecSEQUENCE4args (st_in s) = Some (args, rest))
    (Hc : st_clients s !! Clients.ClientIDFromSessionID (Msg.SessionID args) = Some c)
    (Hconf : Clients.confirmed c = true)
    (Hslot : Clients.GetSlot c (Msg.SessionID args) (Msg.SlotID args) = Some slot)
    (Hseq : Clients.SequenceID slot = Msg.SequenceID args)
    (Hdata : Clients.ContainsData slot = true)
    (Hbuf : Clients.Buf slot = Some cached)
    (Hcached : BufReader.well_formed cached) :
  exists out',
    RunSequence handler now s out
    = Some (mkState (st_x s)
              (<[Clients.ClientIDFromSessionID (Msg.SessionID args)
                 := Clients.set_lastSeen c now]> (st_clients s))
              (st_world s) rest, out')
    /\ Bytes out' = Bytes cached
    /\ Clients.GetSlot (Clients.set_lastSeen c now) (Msg.SessionID args) (Msg.SlotID args)
       = Some slot.
Proof.
  assert (Hcheck : check_slot slot args = SeqReplay (Some cached)).
  { unfold check_slot. rewrite Hseq, Z.eqb_refl, Hdata, Hbuf. reflexivity. }
  rewrite (RunSequence_on_slot s out args rest c slot Hargs Hc Hconf Hslot
             Msg.NFS4_OK cached (or_intror Hcheck)).
  rewrite Hcheck. eexists. split; [reflexivity|]. split.
  - destruct (Bytes_Copy cached out Hcached (from_pool_well_formed out Hout)) as (HB & _).
    rewrite HB, (Bytes_from_pool out Hout). reflexivity.
  - rewrite GetSlot_set_lastSeen. exact Hslot.
Qed.

(** A SEQUENCE whose sequence id is neither the slot's nor its successor
    is answered SEQ_MISORDERED, and one that repeats the slot's sequence
    id on a slot without a buffer is answered RETRY_UNCACHED_REP: a
    one-operation reply, no operation run, the slot unchanged. *)
Theorem RunSequence_rejected (s : State World) (out : Buf)
    (args : Msg.SEQUENCE4args) (rest : list Z) (c : Clients.Client)
    (slot : Clients.Slot)
    (Hout : from_pool out)
    (Hargs : DecSEQUENCE4args (st_in s) = Some (args, rest))
    (Hc : st_clients s !! Clients.ClientIDFromSessionID (Msg.SessionID args) = Some c)
    (Hconf : Clients.confirmed c = true)
    (Hslot : Clients.GetSlot c (Msg.SessionID args) (Msg.SlotID args) = Some slot) :
  let reply status out' :=
    RunSequence handler now s out
    = Some (mkState (st_x s)
              (<[Clients.ClientIDFromSessionID (Msg.SessionID args)
                 := Clients.set_lastSeen c now]> (st_clients s))
              (st_world s) rest, out')
    /\ Bytes out' = wire_header (st_x s) 1 status
                    ++ wire_result (mkOpResult Msg.OP4_SEQUENCE status []) in
  (Clients.SequenceID slot <> Msg.SequenceID args ->
   u32 (Clients.SequenceID slot + 1) <> Msg.SequenceID args ->
   exists out', reply Msg.NFS4ERR_SEQ_MISORDERED out')
  /\ (Clients.SequenceID slot = Msg.SequenceID args ->
      Clients.Buf slot = None -> Clients.ContainsData slot = false ->
      exists out', reply Msg.NFS4ERR_RETRY_UNCACHED_REP out').
Proof.
  cbv zeta. split.
  - intros Hne Hnext.
    assert (Hcheck : check_slot slot args = SeqReply Msg.NFS4ERR_SEQ_MISORDERED).
    { unfold check_slot.
      destruct (Z.eqb_spec (Clients.SequenceID slot) (Msg.SequenceID args)); [contradiction|].
      destruct (Z.eqb_spec (u32 (Clients.SequenceID slot + 1)) (Msg.SequenceID args));
        [contradiction|]. reflexivity. }
    rewrite (RunSequence_on_slot s out args rest c slot Hargs Hc Hconf Hslot
               Msg.NFS4ERR_SEQ_MISORDERED out (or_introl Hcheck)).
    rewrite Hcheck. eexists. split; [reflexivity|]. apply Bytes_single_reply, Hout.
  - intros Hseq Hbuf Hdata.
    pose proof (check_slot_retry_uncached slot args Hseq Hdata Hbuf) as Hcheck.
    rewrite (RunSequence_on_slot s out args rest c slot Hargs Hc Hconf Hslot
               Msg.NFS4ERR_RETRY_UNCACHED_REP out (or_introl Hcheck)).
    rewrite Hcheck. eexists. split; [reflexivity|]. apply Bytes_single_reply, Hout.
Qed.

End SequenceSlots.
Section SlotCache.
Import Bufpool Compound.

Variable World : Type.
Variable handler : Z -> State World -> option (HandlerOut World).
Variable now : Clock.Time.

Lemma doOperation_wf op (s s' : State World) out out' st :
  doOperation handler op s out = Some (st, s', out') ->
  inside out -> unread out -> inside out' /\ unread out'.
Proof.
  unfold doOperation. destruct (op_outcome handler op s) as [[r s1]|]; [|discriminate].
  intros [= _ _ <-] Hi Hu. rewrite OperationResponse_Write by exact Hi.
  split; [apply inside_Write, Hi | apply unread_Write; assumption].
Qed.

Lemma loop_wf (n : nat) :
  forall last e (s s' : State World) out out' st k,
    loop handler n last e s out = Some (st, k, s', out') ->
    inside out -> unread out -> inside out' /\ unread out'.
Proof.
  induction n as [|n IH]; intros last e s s' out out' st k H Hi Hu.
  - injection H as _ _ _ <-. split; assumption.
  - cbn [loop] in H. destruct (fatal last).
    + injection H as _ _ _ <-. split; assumption.
    + unfold Operation in H. destruct (Xdr.DecUint32 (st_in s)) as [[op rest]|]; [|discriminate H].
      destruct (doOperation handler op (set_in s rest) out) as [[[st1 s1] out1]|] eqn:E;
        [|discriminate H].
      destruct (doOperation_wf _ _ _ _ _ _ E Hi Hu) as [Hi1 Hu1].
      exact (IH _ _ _ _ _ _ _ _ H Hi1 Hu1).
Qed.

Lemma RewriteHeaderIfNeeded_wf x out c st :
  inside out -> unread out ->
  inside (RewriteHeaderIfNeeded x out c st) /\ unread (RewriteHeaderIfNeeded x out c st).
Proof.
  intros Hi Hu. unfold RewriteHeaderIfNeeded.
  destruct ((st =? Msg.NFS4_OK) && (c =? OpsCount x)); [split; assumption|].
  unfold SeekWrite. cbn [fst snd].
  rewrite WriteHeader_Write by (unfold inside; cbn [buf w]; lia).
  rewrite Write_eq by (cbn [buf w]; lia).
  unfold inside, unread in *. cbn [buf r w].
  split; [|exact Hu]. rewrite take_0. cbn [app]. rewrite length_app, length_drop. lia.
Qed.

Lemma inside_unread_well_formed (b : Buf) : inside b -> unread b -> BufReader.well_formed b.
Proof. unfold inside, unread, BufReader.well_formed. intros Hi ->. lia. Qed.

(** The slot read back after a store through the slot pointer. *)
Lemma GetSlot_store_slot (cl : gmap Z Clients.Client) cid sid slotid c session slot' :
  cl !! cid = Some c ->
  Clients.sessions c !! Clients.CacheIDFromSessionID sid = Some session ->
  0 <= slotid < Z.of_nat (length session) ->
  exists c',
    Clients.store_slot cl cid (Clients.CacheIDFromSessionID sid) slotid slot' !! cid = Some c'
    /\ Clients.confirmed c' = Clients.confirmed c
    /\ Clients.GetSlot c' sid slotid = Some slot'.
Proof.
  intros Hc Hs Hr. unfold Clients.store_slot. rewrite Hc, Hs.
  eexists. split; [apply lookup_insert_eq|]. split; [reflexivity|].
  unfold Clients.GetSlot. cbn [Clients.sessions Clients.set_sessions]. cbv zeta.
  rewrite lookup_insert_eq, length_insert.
  destruct (Z.leb_spec (Z.of_nat (length session)) slotid); [lia|].
  apply list_lookup_insert_eq. lia.
Qed.

End SlotCache.
Section SlotCacheTheorem.
Import Bufpool Compound.

Variable World : Type.
Variable handler : Z -> State World -> option (HandlerOut World).
Variable now : Clock.Time.

(** The reply to an accepted SEQUENCE with [cache_this] on a slot that
    owns a buffer is appended to that buffer, which is never reset: the
    buffer then holds what it held before followed by the reply.  A
    retransmission of the request is answered with the whole buffer, so
    with exactly the reply only if the buffer was empty before. *)
Theorem RunSequence_caches (s s2 : State World) (out out2 : Buf)
    (args : Msg.SEQUENCE4args) (rest : list Z) (c : Clients.Client)
    (slot : Clients.Slot) (sb : Buf) (st k : Z)
    (Hout : from_pool out)
    (Hargs : DecSEQUENCE4args (st_in s) = Some (args, rest))
    (Hc : st_clients s !! Clients.ClientIDFromSessionID (Msg.SessionID args) = Some c)
    (Hconf : Clients.confirmed c = true)
    (Hslot : Clients.GetSlot c (Msg.SessionID args) (Msg.SlotID args) = Some slot)
    (Hne : Clients.SequenceID slot <> Msg.SequenceID args)
    (Hnext : u32 (Clients.SequenceID slot + 1) = Msg.SequenceID args)
    (Hcache : Msg.CacheThis args = true)
    (Hbuf : Clients.Buf slot = Some sb)
    (Hsb : BufReader.well_formed sb)
    (Hloop :
       loop handler (Z.to_nat (OpsCount (st_x s) - 1)) Msg.NFS4_OK 1
         (mkState
            (set_session (st_x s) (Msg.SessionID args)
               (Clients.ClientIDFromSessionID (Msg.SessionID args),
                Clients.CacheIDFromSessionID (Msg.SessionID args), Msg.SlotID args))
            (Clients.store_slot
               (<[Clients.ClientIDFromSessionID (Msg.SessionID args)
                  := Clients.set_lastSeen c now]> (st_clients s))
               (Clients.ClientIDFromSessionID (Msg.SessionID args))
               (Clients.CacheIDFromSessionID (Msg.SessionID args))
               (Msg.SlotID args)
               (Clients.mkSlot (Clients.SlotID slot) (Msg.SequenceID args) true (Some sb)))
            (st_world s) rest)
         (Write (Write out (wire_header (st_x s) (OpsCount (st_x s)) Msg.NFS4_OK))
                (wire_result (sequence_ok args)))
       = Some (st, k, s2, out2)) :
  exists out3 sb',
    RunSequence handler now s out
    = Some (set_clients s2
              (Clients.store_slot (st_clients s2)
                 (Clients.ClientIDFromSessionID (Msg.SessionID args))
                 (Clients.CacheIDFromSessionID (Msg.SessionID args))
                 (Msg.SlotID args)
                 (Clients.mkSlot (Clients.SlotID slot) (Msg.SequenceID args) true
                    (Some sb'))),
            out3)
    /\ Bytes sb' = Bytes sb ++ Bytes out3
    /\ (forall c2 session2 (s' : State World) out' rest' now',
          st_clients s2 !! Clients.ClientIDFromSessionID (Msg.SessionID args) = Some c2 ->
          Clients.confirmed c2 = true ->
          Clients.sessions c2 !! Clients.CacheIDFromSessionID (Msg.SessionID args)
          = Some session2 ->
          0 <= Msg.SlotID args < Z.of_nat (length session2) ->
          from_pool out' ->
          DecSEQUENCE4args (st_in s') = Some (args, rest') ->
          st_clients s'
          = Clients.store_slot (st_clients s2)
              (Clients.ClientIDFromSessionID (Msg.SessionID args))
              (Clients.CacheIDFromSessionID (Msg.SessionID args))
              (Msg.SlotID args)
              (Clients.mkSlot (Clients.SlotID slot) (Msg.SequenceID args) true (Some sb')) ->
          exists cl' o,
            RunSequence handler now' s' out'
            = Some (mkState (st_x s') cl' (st_world s') rest', o)
            /\ Bytes o = Bytes sb ++ Bytes out3).
Proof.
  destruct (from_pool_inside out Hout) as [Hi Hu].
  set (cid := Clients.ClientIDFromSessionID (Msg.SessionID args)) in *.
  set (cache := Clients.CacheIDFromSessionID (Msg.SessionID args)) in *.
  set (x1 := set_session (st_x s) (Msg.SessionID args) (cid, cache, Msg.SlotID args)) in *.
  set (slot1 := Clients.mkSlot (Clients.SlotID slot) (Msg.SequenceID args) true (Some sb)) in *.
  assert (Hcheck : check_slot slot args = SeqProceed slot1).
  { unfold check_slot.
    destruct (Z.eqb_spec (Clients.SequenceID slot) (Msg.SequenceID args)); [contradiction|].
    destruct (Z.eqb_spec (u32 (Clients.SequenceID slot + 1)) (Msg.SequenceID args));
      [|contradiction].
    cbn [andb negb]. rewrite Hcache, Hbuf.
    rewrite bool_decide_eq_true_2 by eauto. reflexivity. }
  assert (Hwf1 : inside (Write (Write out (wire_header (st_x s) (OpsCount (st_x s)) Msg.NFS4_OK))
                           (wire_result (sequence_ok args)))
                 /\ unread (Write (Write out (wire_header (st_x s) (OpsCount (st_x s)) Msg.NFS4_OK))
                              (wire_result (sequence_ok args)))).
  { split; [apply inside_Write, inside_Write, Hi|].
    apply unread_Write; [apply inside_Write, Hi | apply unread_Write; assumption]. }
  destruct (loop_wf World handler _ _ _ _ _ _ _ _ _ Hloop (proj1 Hwf1) (proj2 Hwf1))
    as [Hi2 Hu2].
  destruct (RewriteHeaderIfNeeded_wf x1 out2 k st Hi2 Hu2) as [Hi3 Hu3].
  pose proof (inside_unread_well_formed _ Hi3 Hu3) as Hwf3.
  destruct (Bytes_Copy (RewriteHeaderIfNeeded x1 out2 k st) sb Hwf3 Hsb) as (HB & Hwf').
  exists (RewriteHeaderIfNeeded x1 out2 k st),
         (Copy (RewriteHeaderIfNeeded x1 out2 k st) sb).
  split; [|split; [exact HB|]].
  - unfold RunSequence. rewrite Hargs. cbv zeta.
    cbn [set_in st_x st_clients st_world st_in]. fold cid cache.
    unfold Clients.Get. rewrite Hc, Hconf. cbn [negb].
    rewrite GetSlot_set_lastSeen, Hslot, Hcheck.
    cbn [set_clients st_x st_clients st_world st_in]. fold x1.
    rewrite WriteHeader_Write by exact Hi.
    rewrite OperationResponse_Write by (apply inside_Write, Hi).
    change (OpsCount x1) with (OpsCount (st_x s)).
    change (wire_header x1) with (wire_header (st_x s)).
    fold (sequence_ok args).
    change (st_world (set_in s rest)) with (st_world s).
    change (st_in (set_in s rest)) with rest.
    rewrite Hloop. reflexivity.
  - intros c2 session2 s' out' rest' now' Hc2 Hconf2 Hs2 Hr Hout' Hargs' Hcl.
    destruct (GetSlot_store_slot (st_clients s2) cid (Msg.SessionID args) (Msg.SlotID args)
                c2 session2
                (Clients.mkSlot (Clients.SlotID slot) (Msg.SequenceID args) true
                   (Some (Copy (RewriteHeaderIfNeeded x1 out2 k st) sb)))
                Hc2 Hs2 Hr) as (c3 & Hc3 & Hconf3 & Hslot3).
    fold cache in Hc3. rewrite <- Hcl in Hc3.
    set (sb' := Copy (RewriteHeaderIfNeeded x1 out2 k st) sb) in *.
    set (slot3 := Clients.mkSlot (Clients.SlotID slot) (Msg.SequenceID args) true (Some sb'))
      in *.
    assert (Hcheck3 : check_slot slot3 args = SeqReplay (Some sb')).
    { unfold check_slot, slot3. cbn [Clients.SequenceID Clients.ContainsData Clients.Buf].
      rewrite Z.eqb_refl. reflexivity. }
    rewrite (RunSequence_on_slot World handler now' s' out' args rest' c3 slot3 Hargs' Hc3
               (eq_trans Hconf3 Hconf2) Hslot3 Msg.NFS4_OK sb' (or_intror Hcheck3)).
    rewrite Hcheck3. eexists _, _. split; [reflexivity|].
    destruct (Bytes_Copy sb' out' Hwf' (from_pool_well_formed out' Hout')) as (HB' & _).
    rewrite HB', (Bytes_from_pool out' Hout'). exact HB.
Qed.

End SlotCacheTheorem.

Section SlotCacheExamples.
Import Bufpool Compound SlotSamples.

Lemma RunSequence_replay_witness :
  exists out',
    RunSequence counting_handler 60
      (sample_session_request {[7 := sample_cached_client]} 2
         (sample_sequence_args 1 0 ++ Xdr.be32 Msg.OP4_REMOVE)) fresh
    = Some (mkState (st_x (sample_session_request ∅ 2 []))
              (<[7 := Clients.set_lastSeen sample_cached_client 60]>
                 {[7 := sample_cached_client]})
              0%nat (Xdr.be32 Msg.OP4_REMOVE), out')
    /\ Bytes out' = [11; 22; 33; 44]
    /\ Clients.GetSlot (Clients.set_lastSeen sample_cached_client 60) sample_session_id 0
       = Some (Clients.mkSlot 0 1 true (Some sample_cached_reply)).
Proof.
  refine (RunSequence_replay nat counting_handler 60
           (sample_session_request {[7 := sample_cached_client]} 2
              (sample_sequence_args 1 0 ++ Xdr.be32 Msg.OP4_REMOVE))
           fresh (Msg.mkSEQUENCE4args sample_session_id 1 0 0 false)
           (Xdr.be32 Msg.OP4_REMOVE) sample_cached_client
           (Clients.mkSlot 0 1 true (Some sample_cached_reply)) sample_cached_reply
           _ _ _ _ _ _ _ _ _);
    try reflexivity.
  - split; reflexivity.
  - unfold BufReader.well_formed. simpl. lia.
Defined.

Lemma RunSequence_rejected_witness :
  exists out',
    RunSequence counting_handler 60
      (sample_session_request {[7 := sample_session_client false]} 2
         (sample_sequence_args 5 0 ++ Xdr.be32 Msg.OP4_REMOVE)) fresh
    = Some (mkState (st_x (sample_session_request ∅ 2 []))
              (<[7 := Clients.set_lastSeen (sample_session_client false) 60]>
                 {[7 := sample_session_client false]})
              0%nat (Xdr.be32 Msg.OP4_REMOVE), out')
    /\ Bytes out'
       = wire_header (st_x (sample_session_request ∅ 2 [])) 1 Msg.NFS4ERR_SEQ_MISORDERED
         ++ wire_result (mkOpResult Msg.OP4_SEQUENCE Msg.NFS4ERR_SEQ_MISORDERED []).
Proof.
  refine (proj1 (RunSequence_rejected nat counting_handler 60
           (sample_session_request {[7 := sample_session_client false]} 2
              (sample_sequence_args 5 0 ++ Xdr.be32 Msg.OP4_REMOVE))
           fresh (Msg.mkSEQUENCE4args sample_session_id 5 0 0 false)
           (Xdr.be32 Msg.OP4_REMOVE) (sample_session_client false)
           (Clients.mkSlot 0 0 false None) _ _ _ _ _) _ _); try reflexivity.
  - split; reflexivity.
  - simpl. lia.
  - vm_compute. intros H; discriminate H.
Defined.

Lemma RunSequence_caches_witness :
  exists s3 out3 sb',
    RunSequence counting_handler 60
      (sample_session_request {[7 := sample_session_client true]} 2
         (sample_sequence_args_cached 1 0 ++ Xdr.be32 Msg.OP4_REMOVE)) fresh
    = Some (s3, out3)
    /\ (exists c session,
          st_clients s3 !! 7 = Some c /\ Clients.sessions c !! 9 = Some session
          /\ session !! 0%nat = Some (Clients.mkSlot 0 1 true (Some sb')))
    /\ Bytes sb' = Bytes fresh ++ Bytes out3.
Proof.
  pose (args := Msg.mkSEQUENCE4args sample_session_id 1 0 0 true).
  pose (req := sample_session_request {[7 := sample_session_client true]} 2
                 (sample_sequence_args_cached 1 0 ++ Xdr.be32 Msg.OP4_REMOVE)).
  pose (s2 := mkState (set_session (st_x req) sample_session_id (7, 9, 0))
                (Clients.store_slot
                   (<[7 := Clients.set_lastSeen (sample_session_client true) 60]>
                      {[7 := sample_session_client true]})
                   7 9 0 (Clients.mkSlot 0 1 true (Some fresh)))
                1%nat []).
  pose (out2 := Write (Write (Write fresh (wire_header (st_x req) 2 Msg.NFS4_OK))
                         (wire_result (sequence_ok args)))
                  (wire_result (mkOpResult Msg.OP4_REMOVE Msg.NFS4_OK []))).
  destruct (RunSequence_caches nat counting_handler 60 req s2 fresh out2 args
              (Xdr.be32 Msg.OP4_REMOVE) (sample_session_client true)
              (Clients.mkSlot 0 0 false (Some fresh)) fresh Msg.NFS4_OK 2)
    as (out3 & sb' & Hrun & HB & _).
  - split; reflexivity.
  - reflexivity.
  - reflexivity.
  - reflexivity.
  - reflexivity.
  - simpl. lia.
  - reflexivity.
  - reflexivity.
  - reflexivity.
  - unfold BufReader.well_formed. simpl. lia.
  - vm_compute. reflexivity.
  - eexists _, out3, sb'. split; [exact Hrun|]. split; [|exact HB].
    eexists _, _. split; [|split]; vm_compute; reflexivity.
Defined.
End SlotCacheExamples.

(** ** COMPOUND: requests that run to the end *)

Section Completion.
Import Bufpool Compound.

Variable World : Type.
Variable handler : Z -> State World -> option (HandlerOut World).
Variable now : Clock.Time.

Lemma last_cons_default (l : list OpResult) :
  forall a d1 d2, List.last (a :: l) d1 = List.last (a :: l) d2.
Proof.
  induction l as [|b l IHl]; intros a d1 d2; [reflexivity|].
  change (List.last (a :: b :: l) d1) with (List.last (b :: l) d1).
  change (List.last (a :: b :: l) d2) with (List.last (b :: l) d2). apply IHl.
Qed.

Lemma loop_completes (rs : list OpResult) :
  forall (s sk : State World) (last e : Z) (out : Buf),
    inside out ->
    fatal last = false ->
    Forall (fun r => fatal (res_status r) = false) (removelast rs) ->
    exec_ops handler (length rs) s = Some (rs, sk) ->
    loop handler (length rs) last e s out
    = Some (res_status (List.last rs (mkOpResult 0 last [])),
            e + Z.of_nat (length rs), sk,
            Write out (concat (map wire_result rs))).
Proof.
  induction rs as [|r rs IH]; intros s sk last e out Hi Hlast Hnf Hex.
  - cbn [length exec_ops] in Hex. injection Hex as <-.
    cbn [length loop map concat]. rewrite Write_nil by exact Hi.
    rewrite Z.add_0_r. reflexivity.
  - cbn [length] in Hex.
    destruct (exec_ops_S _ _ _ _ _ _ Hex) as (op & rest & r' & s' & rs' & Hd & Ho & Hex' & Hrs).
    injection Hrs as <- <-.
    cbn [length loop]. rewrite Hlast. unfold Operation. rewrite Hd.
    rewrite (doOperation_outcome _ _ _ _ _ _ _ Ho Hi).
    destruct rs as [|r1 rs].
    + cbn [length exec_ops] in Hex'. injection Hex' as <-.
      cbn [loop length map concat]. rewrite app_nil_r.
      replace (e + Z.of_nat 1) with (e + 1) by lia. reflexivity.
    + change (removelast (r :: r1 :: rs)) with (r :: removelast (r1 :: rs)) in Hnf.
      apply Forall_cons in Hnf as [Hr Hnf].
      rewrite (IH s' sk (res_status r) (e + 1) _ (inside_Write _ _ Hi) Hr Hnf Hex').
      rewrite Write_Write by exact Hi.
      replace (e + 1 + Z.of_nat (length (r1 :: rs)))
        with (e + Z.of_nat (S (length (r1 :: rs)))) by lia.
      change (List.last (r :: r1 :: rs) (mkOpResult 0 last []))
        with (List.last (r1 :: rs) (mkOpResult 0 last [])).
      rewrite (last_cons_default rs r1 (mkOpResult 0 last [])
                 (mkOpResult 0 (res_status r) [])).
      reflexivity.
Qed.

Lemma RewriteHeaderIfNeeded_Bytes x out c st rest :
  inside out -> unread out ->
  Bytes out = wire_header x (OpsCount x) Msg.NFS4_OK ++ rest ->
  Bytes (RewriteHeaderIfNeeded x out c st) = wire_header x c st ++ rest.
Proof.
  intros Hi Hu HB. unfold RewriteHeaderIfNeeded.
  destruct (Z.eqb_spec st Msg.NFS4_OK) as [->|Hst]; cbn [andb].
  - destruct (Z.eqb_spec c (OpsCount x)) as [->|Hc]; [exact HB|].
    apply (RewriteHeader_Bytes x out c Msg.NFS4_OK (OpsCount x) Msg.NFS4_OK rest Hi Hu HB).
  - apply (RewriteHeader_Bytes x out c st (OpsCount x) Msg.NFS4_OK rest Hi Hu HB).
Qed.

(** Only the statuses of [FatalStatuses] end a COMPOUND early.  When none
    of the operations but possibly the last returns one of them, [Run]
    executes the first operation and [OpsCount - 1] more, and replies
    with the count of the operations run, the status of the last one
    (whatever the statuses before it were) and all the results. *)
Theorem Run_completes (s sk : State World) (out : Buf) (op : Z) (rest : list Z)
    (r0 : OpResult) (rs : list OpResult)
    (Hout : from_pool out)
    (Hop : Xdr.DecUint32 (st_in s) = Some (op, rest))
    (Hfirst : MinorVer (st_x s) <= 0
              \/ (Contains AllowedFirstOps41 op = true /\ op <> Msg.OP4_SEQUENCE
                  /\ OpsCount (st_x s) <= 1))
    (Hex : exec_ops handler (S (length rs)) s = Some (r0 :: rs, sk))
    (Hcount : length rs = Z.to_nat (OpsCount (st_x s) - 1))
    (Hnf : Forall (fun r => fatal (res_status r) = false) (removelast (r0 :: rs))) :
  exists out',
    Run handler now s out = Some (sk, out')
    /\ Bytes out'
       = wire_header (st_x s) (Z.of_nat (length (r0 :: rs)))
           (res_status (List.last rs r0))
         ++ concat (map wire_result (r0 :: rs)).
Proof.
  destruct (from_pool_inside out Hout) as [Hi Hu].
  rewrite (Run_checks_passed _ _ _ s out op rest Hop Hfirst).
  destruct (exec_ops_S _ _ _ _ _ _ Hex) as (op' & rest' & r & s' & rs' & Hd & Ho & Hex' & Hrs).
  rewrite Hop in Hd. injection Hd as <- <-. injection Hrs as <- <-.
  unfold run_body. cbv zeta. cbn [set_in st_x].
  rewrite WriteHeader_Write by exact Hi.
  rewrite (doOperation_outcome _ _ _ _ _ _ _ Ho) by (apply inside_Write, Hi).
  rewrite <- Hcount.
  assert (Hi1 : inside (Write (Write out (wire_header (st_x s) (OpsCount (st_x s)) Msg.NFS4_OK))
                          (wire_result r0))) by (apply inside_Write, inside_Write, Hi).
  assert (Hu1 : unread (Write (Write out (wire_header (st_x s) (OpsCount (st_x s)) Msg.NFS4_OK))
                          (wire_result r0))).
  { apply unread_Write; [apply inside_Write, Hi|]. apply unread_Write; assumption. }
  assert (Hloop : loop handler (length rs) (res_status r0) 1 s'
                    (Write (Write out (wire_header (st_x s) (OpsCount (st_x s)) Msg.NFS4_OK))
                       (wire_result r0))
                  = Some (res_status (List.last rs r0), 1 + Z.of_nat (length rs), sk,
                          Write (Write (Write out (wire_header (st_x s) (OpsCount (st_x s))
                                                     Msg.NFS4_OK))
                                   (wire_result r0))
                            (concat (map wire_result rs)))).
  { destruct rs as [|r1 rs].
    - cbn [length exec_ops] in Hex'. injection Hex' as <-.
      cbn [length loop List.last map concat]. rewrite Write_nil by exact Hi1. reflexivity.
    - change (removelast (r0 :: r1 :: rs)) with (r0 :: removelast (r1 :: rs)) in Hnf.
      apply Forall_cons in Hnf as [Hr Hnf].
      rewrite (loop_completes (r1 :: rs) s' sk (res_status r0) 1 _ Hi1 Hr Hnf Hex').
      rewrite (last_cons_default rs r1 (mkOpResult 0 (res_status r0) []) r0).
      reflexivity. }
  rewrite Hloop. eexists. split; [reflexivity|].
  replace (1 + Z.of_nat (length rs)) with (Z.of_nat (length (r0 :: rs)))
    by (cbn [length]; lia).
  apply RewriteHeaderIfNeeded_Bytes.
  - apply inside_Write, Hi1.
  - apply unread_Write; assumption.
  - rewrite Bytes_Write by assumption. rewrite Bytes_Write by (try apply inside_Write; try apply unread_Write; assumption).
    rewrite Bytes_Write by assumption.
    rewrite (Bytes_from_pool out Hout). cbn [app map concat]. rewrite <- app_assoc.
    reflexivity.
Qed.

(** In a v4.1 request, an operation other than SEQUENCE that may come
    first must be the only one: with more operations announced the reply
    is a single NOT_ONLY_OP result and nothing runs. *)
Theorem Run_not_only_op (s : State World) (out : Buf) (op : Z) (rest : list Z)
    (Hout : from_pool out)
    (Hop : Xdr.DecUint32 (st_in s) = Some (op, rest))
    (Hminor : MinorVer (st_x s) > 0)
    (Hallowed : Contains AllowedFirstOps41 op = true)
    (Hne : op <> Msg.OP4_SEQUENCE)
    (Hcount : OpsCount (st_x s) > 1) :
  exists out',
    Run handler now s out = Some (set_in s rest, out')
    /\ Bytes out'
       = wire_header (st_x s) 1 Msg.NFS4ERR_NOT_ONLY_OP
         ++ wire_result (mkOpResult op Msg.NFS4ERR_NOT_ONLY_OP [])
    /\ fatal Msg.NFS4ERR_NOT_ONLY_OP = false.
Proof.
  unfold Run. rewrite Hop. cbv zeta. cbn [set_in st_x].
  destruct (Z.gtb_spec (MinorVer (st_x s)) 0) as [_|Hv]; [|lia].
  rewrite Hallowed. cbn [negb].
  destruct (Z.eqb_spec op Msg.OP4_SEQUENCE) as [E|_]; [contradiction|]. cbn [negb andb].
  destruct (Z.gtb_spec (OpsCount (st_x s)) 1) as [_|Hc]; [|lia].
  eexists. split; [reflexivity|]. split; [|reflexivity].
  apply Bytes_single_reply, Hout.
Qed.

Lemma Contains_In (l : list Z) (v : Z) : Contains l v = true <-> In v l.
Proof.
  unfold Contains. rewrite existsb_exists. split.
  - intros (x & Hin & E). apply Z.eqb_eq in E. subst x. exact Hin.
  - intros Hin. exists v. split; [exact Hin | apply Z.eqb_refl].
Qed.

(** An operation [doOperation] has no case for is answered with NOTSUPP,
    SERVERFAULT or OP_ILLEGAL, nothing else happens, and each of the
    three is in [FatalStatuses]: such an operation always ends the
    COMPOUND.  The implemented, the optional and the required operations
    are pairwise different. *)
Theorem unimplemented_op_is_fatal (op : Z) (s : State World)
    (Hop : Contains ImplementedOps op = false) :
  (exists st,
     op_outcome handler op s = Some (mkOpResult op st [], s)
     /\ fatal st = true
     /\ st = (if Contains NotImplementedOptionalOps op then Msg.NFS4ERR_NOTSUPP
              else if Contains NotImplementedRequiredOps op then Msg.NFS4ERR_SERVERFAULT
              else Msg.NFS4ERR_OP_ILLEGAL))
  /\ (forall o, Contains ImplementedOps o = true ->
                Contains NotImplementedOptionalOps o = false
                /\ Contains NotImplementedRequiredOps o = false)
  /\ (forall o, Contains NotImplementedOptionalOps o = true ->
                Contains NotImplementedRequiredOps o = false)
  /\ (forall out rest,
        from_pool out -> Xdr.DecUint32 (st_in s) = Some (op, rest) ->
        MinorVer (st_x s) <= 0 ->
        exists st out',
          Run handler now s out = Some (set_in s rest, out')
          /\ fatal st = true
          /\ Bytes out' = wire_header (st_x s) 1 st ++ wire_result (mkOpResult op st [])).
Proof.
  assert (Hout : forall s0 : State World, exists st,
             op_outcome handler op s0 = Some (mkOpResult op st [], s0)
             /\ fatal st = true
             /\ st = (if Contains NotImplementedOptionalOps op then Msg.NFS4ERR_NOTSUPP
                      else if Contains NotImplementedRequiredOps op
                           then Msg.NFS4ERR_SERVERFAULT
                           else Msg.NFS4ERR_OP_ILLEGAL)).
  { intros s0. unfold op_outcome. rewrite Hop.
    destruct (Contains NotImplementedOptionalOps op);
      [eexists; repeat split; reflexivity|].
    destruct (Contains NotImplementedRequiredOps op); eexists; repeat split; reflexivity. }
  split; [apply Hout|]. split; [|split].
  - intros o Ho. apply Contains_In in Ho.
    repeat (destruct Ho as [<-|Ho]; [split; reflexivity|]). destruct Ho.
  - intros o Ho. apply Contains_In in Ho.
    repeat (destruct Ho as [<-|Ho]; [reflexivity|]). destruct Ho.
  - intros out rest Hp Hd Hminor.
    destruct (from_pool_inside out Hp) as [Hi Hu].
    destruct (Hout (set_in s rest)) as (st & Ho & Hf & _).
    rewrite (Run_checks_passed _ _ _ s out op rest Hd (or_introl Hminor)).
    unfold run_body. cbv zeta. cbn [set_in st_x].
    rewrite WriteHeader_Write by exact Hi.
    rewrite (doOperation_outcome _ _ _ _ _ _ _ Ho) by (apply inside_Write, Hi).
    cbn [res_status]. rewrite (loop_fatal_start _ _ _ _ _ _ _ Hf).
    exists st. eexists. split; [reflexivity|]. split; [exact Hf|].
    apply RewriteHeaderIfNeeded_Bytes.
    + apply inside_Write, inside_Write, Hi.
    + apply unread_Write; [apply inside_Write, Hi|]. apply unread_Write; assumption.
    + rewrite Bytes_Write by (try apply inside_Write; try apply unread_Write; assumption).
      rewrite Bytes_Write by assumption.
      rewrite (Bytes_from_pool out Hp). reflexivity.
Qed.

End Completion.

Section CompletionExamples.
Import Bufpool Compound.

Lemma Run_completes_witness :
  exists out',
    Run RequestSamples.noent_handler 0 RequestSamples.sample_lookup_request fresh
    = Some (mkState (st_x RequestSamples.sample_lookup_request) ∅ 3%nat [], out')
    /\ Bytes out'
       = wire_header (st_x RequestSamples.sample_lookup_request) 3 Msg.NFS4_OK
         ++ concat (map wire_result
                      [mkOpResult Msg.OP4_PUTROOTFH Msg.NFS4_OK [];
                       mkOpResult Msg.OP4_LOOKUP Msg.NFS4ERR_NOENT [];
                       mkOpResult Msg.OP4_GETFH Msg.NFS4_OK []]).
Proof.
  refine (Run_completes nat RequestSamples.noent_handler 0
            RequestSamples.sample_lookup_request _ fresh Msg.OP4_PUTROOTFH
            (Xdr.be32 Msg.OP4_LOOKUP ++ Xdr.be32 Msg.OP4_GETFH)
            (mkOpResult Msg.OP4_PUTROOTFH Msg.NFS4_OK [])
            [mkOpResult Msg.OP4_LOOKUP Msg.NFS4ERR_NOENT [];
             mkOpResult Msg.OP4_GETFH Msg.NFS4_OK []] _ _ _ _ _ _).
  - split; reflexivity.
  - reflexivity.
  - left. simpl. lia.
  - vm_compute. reflexivity.
  - reflexivity.
  - repeat constructor.
Defined.

Lemma Run_not_only_op_witness :
  exists out',
    Run counting_handler 0 RequestSamples.sample_exchange_request fresh
    = Some (set_in RequestSamples.sample_exchange_request (Xdr.be32 Msg.OP4_PUTROOTFH), out')
    /\ Bytes out'
       = wire_header (st_x RequestSamples.sample_exchange_request) 1 Msg.NFS4ERR_NOT_ONLY_OP
         ++ wire_result (mkOpResult Msg.OP4_EXCHANGE_ID Msg.NFS4ERR_NOT_ONLY_OP [])
    /\ fatal Msg.NFS4ERR_NOT_ONLY_OP = false.
Proof.
  refine (Run_not_only_op nat counting_handler 0 RequestSamples.sample_exchange_request
            fresh Msg.OP4_EXCHANGE_ID (Xdr.be32 Msg.OP4_PUTROOTFH) _ _ _ _ _ _).
  - split; reflexivity.
  - reflexivity.
  - simpl. lia.
  - reflexivity.
  - unfold Msg.OP4_EXCHANGE_ID, Msg.OP4_SEQUENCE. lia.
  - simpl. lia.
Defined.

Lemma unimplemented_op_is_fatal_witness :
  exists st out',
    Run counting_handler 0 RequestSamples.sample_open_confirm_request fresh
    = Some (set_in RequestSamples.sample_open_confirm_request
              (Xdr.be32 Msg.OP4_PUTROOTFH), out')
    /\ fatal st = true
    /\ Bytes out'
       = wire_header (st_x RequestSamples.sample_open_confirm_request) 1 st
         ++ wire_result (mkOpResult 20 st []).
Proof.
  refine (proj2 (proj2 (proj2 (unimplemented_op_is_fatal nat counting_handler 0 20
            RequestSamples.sample_open_confirm_request _))) fresh
            (Xdr.be32 Msg.OP4_PUTROOTFH) _ _ _).
  - reflexivity.
  - split; reflexivity.
  - reflexivity.
  - simpl. lia.
Defined.

End CompletionExamples.

(** ** The client registry: SETCLIENTID and EXCHANGE_ID *)

Section RegistryAdd.
Import Clients Registry.

Lemma bytes_Equal_true (a b : list Z) : bytes_Equal a b = true <-> a = b.
Proof. unfold bytes_Equal. apply bool_decide_eq_true. Qed.

Lemma bytes_Equal_false (a b : list Z) : bytes_Equal a b = false <-> a <> b.
Proof. unfold bytes_Equal. apply bool_decide_eq_false. Qed.

Lemma collect_prev_None (client : Client) (entries : list (Z * Client)) :
  forall prev,
    collect_prev entries client prev = None
    <-> exists id c, (id, c) ∈ entries /\ confirmed c = true /\ Name c = Name client
                     /\ Auth.Equal (Creds c) (Creds client) = false.
Proof.
  induction entries as [|[id stored] entries IH]; intros prev; cbn [collect_prev].
  - split; [discriminate|]. intros (i & c & Hin & _). apply elem_of_nil in Hin. destruct Hin.
  - destruct (confirmed stored) eqn:Hconf; cbn [negb].
    2:{ rewrite IH. split; intros (i & c & Hin & H).
        - exists i, c. split; [apply elem_of_cons; right; exact Hin | exact H].
        - apply elem_of_cons in Hin as [[= -> ->]|Hin]; [destruct H; congruence|].
          exists i, c. split; assumption. }
    destruct (bytes_Equal (Name stored) (Name client)) eqn:Hname; cbn [negb].
    2:{ apply bytes_Equal_false in Hname. rewrite IH. split; intros (i & c & Hin & H).
        - exists i, c. split; [apply elem_of_cons; right; exact Hin | exact H].
        - apply elem_of_cons in Hin as [[= -> ->]|Hin]; [destruct H as (_ & H & _); congruence|].
          exists i, c. split; assumption. }
    apply bytes_Equal_true in Hname.
    destruct (Auth.Equal (Creds stored) (Creds client)) eqn:Heq; cbn [negb].
    + rewrite IH. split; intros (i & c & Hin & H).
      * exists i, c. split; [apply elem_of_cons; right; exact Hin | exact H].
      * apply elem_of_cons in Hin as [[= -> ->]|Hin]; [destruct H as (_ & _ & H); congruence|].
        exists i, c. split; assumption.
    + split; [intros _|reflexivity]. exists id, stored.
      split; [apply elem_of_cons; left; reflexivity | auto].
Qed.

Lemma collect_prev_Some (client : Client) (entries : list (Z * Client)) :
  forall prev prev',
    NoDup (entries.*1) ->
    collect_prev entries client prev = Some prev' ->
    forall id c,
      prev' !! id = Some c
      <-> ((id, c) ∈ entries /\ confirmed c = true /\ Name c = Name client)
          \/ (prev !! id = Some c
              /\ forall c', (id, c') ∈ entries ->
                            ~ (confirmed c' = true /\ Name c' = Name client)).
Proof.
  induction entries as [|[i stored] entries IH]; intros prev prev' Hnd H id c;
    cbn [collect_prev] in H.
  - injection H as <-. split.
    + intros Hp. right. split; [exact Hp|]. intros c' Hin. apply elem_of_nil in Hin. destruct Hin.
    + intros [(Hin & _)|(Hp & _)]; [apply elem_of_nil in Hin; destruct Hin | exact Hp].
  - cbn [fmap list_fmap fst] in Hnd. apply NoDup_cons in Hnd as [Hi Hnd].
    assert (Hfresh : forall c', (i, c') ∉ entries).
    { intros c' Hin. apply Hi. apply list_elem_of_fmap. exists (i, c'). split; [reflexivity | exact Hin]. }
    assert (Hskip : ~ (confirmed stored = true /\ Name stored = Name client) ->
              collect_prev entries client prev = Some prev' ->
              prev' !! id = Some c
              <-> ((id, c) ∈ (i, stored) :: entries /\ confirmed c = true /\ Name c = Name client)
                  \/ (prev !! id = Some c
                      /\ forall c', (id, c') ∈ (i, stored) :: entries ->
                                    ~ (confirmed c' = true /\ Name c' = Name client))).
    { intros Hno H'. rewrite (IH prev prev' Hnd H' id c). split.
      - intros [(Hin & Hs)|(Hp & Hn)].
        + left. split; [apply elem_of_cons; right; exact Hin | exact Hs].
        + right. split; [exact Hp|]. intros c' Hin.
          apply elem_of_cons in Hin as [[= -> ->]|Hin]; [exact Hno | apply Hn, Hin].
      - intros [(Hin & Hs)|(Hp & Hn)].
        + apply elem_of_cons in Hin as [[= -> ->]|Hin]; [contradiction|].
          left. split; assumption.
        + right. split; [exact Hp|]. intros c' Hin. apply Hn. apply elem_of_cons. right. exact Hin. }
    destruct (confirmed stored) eqn:Hconf; cbn [negb] in H.
    2:{ apply Hskip; [intros [X _]; discriminate X | exact H]. }
    destruct (bytes_Equal (Name stored) (Name client)) eqn:Hname; cbn [negb] in H.
    2:{ apply bytes_Equal_false in Hname. apply Hskip; [intros [_ X]; contradiction | exact H]. }
    apply bytes_Equal_true in Hname.
    destruct (Auth.Equal (Creds stored) (Creds client)) eqn:Heq; cbn [negb] in H;
      [|discriminate H].
    rewrite (IH _ prev' Hnd H id c). split.
    + intros [(Hin & Hs)|(Hp & Hn)].
      * left. split; [apply elem_of_cons; right; exact Hin | exact Hs].
      * destruct (decide (i = id)) as [->|Hne].
        -- rewrite lookup_insert_eq in Hp. injection Hp as ->.
           left. split; [apply elem_of_cons; left; reflexivity | auto].
        -- rewrite lookup_insert_ne in Hp by exact Hne.
           right. split; [exact Hp|]. intros c' Hin.
           apply elem_of_cons in Hin as [[= E _]|Hin]; [congruence | apply Hn, Hin].
    + intros [(Hin & Hs)|(Hp & Hn)].
      * apply elem_of_cons in Hin as [[= -> ->]|Hin].
        -- right. split; [apply lookup_insert_eq|]. intros c' Hin. exfalso. exact (Hfresh c' Hin).
        -- left. split; assumption.
      * destruct (decide (i = id)) as [->|Hne].
        -- exfalso. apply (Hn stored); [apply elem_of_cons; left; reflexivity | auto].
        -- right. split; [rewrite lookup_insert_ne by exact Hne; exact Hp|].
           intros c' Hin. apply Hn. apply elem_of_cons. right. exact Hin.
Qed.

Lemma collect_prev_map (x : gmap Z Client) (client : Client) (prev : gmap Z Client) :
  collect_prev (map_to_list x) client ∅ = Some prev ->
  forall id c,
    prev !! id = Some c
    <-> x !! id = Some c /\ confirmed c = true /\ Name c = Name client.
Proof.
  intros H id c.
  rewrite (collect_prev_Some client _ ∅ prev (NoDup_fst_map_to_list x) H id c).
  rewrite elem_of_map_to_list. split.
  - intros [Hs|(He & _)]; [exact Hs | rewrite lookup_empty in He; discriminate He].
  - intros Hs. left. exact Hs.
Qed.

Lemma find_update_Some (prev : gmap Z Client) (client : Client) pid stored :
  find_update prev client = Some (pid, stored) ->
  prev !! pid = Some stored /\ Verifier stored = Verifier client /\ confirmed stored = true.
Proof.
  unfold find_update. intros H. apply find_some in H as [Hin Hp].
  apply list_elem_of_In, elem_of_map_to_list in Hin. cbn [snd] in Hp.
  apply negb_true_iff, orb_false_iff in Hp as [Hv Hc].
  apply negb_false_iff in Hv, Hc. apply Z.eqb_eq in Hv. auto.
Qed.

Lemma find_update_None (prev : gmap Z Client) (client : Client) :
  find_update prev client = None ->
  forall pid c, prev !! pid = Some c ->
                ~ (Verifier c = Verifier client /\ confirmed c = true).
Proof.
  unfold find_update. intros H pid c Hp [Hv Hc].
  pose proof (find_none _ _ H (pid, c)) as Hn. cbn [snd] in Hn.
  rewrite Hv, Z.eqb_refl, Hc in Hn. cbn in Hn.
  discriminate Hn. apply list_elem_of_In, elem_of_map_to_list. exact Hp.
Qed.

(** A confirmed client with the name of the request and other
    credentials. *)
Lemma Add_in_use (x : gmap Z Client) now client id confirm :
  (exists i c, x !! i = Some c /\ confirmed c = true /\ Name c = Name client
               /\ Auth.Equal (Creds c) (Creds client) = false)
  <-> Add x now client id confirm = (x, Err Msg.NFS4ERR_CLID_INUSE).
Proof.
  unfold Add.
  destruct (collect_prev (map_to_list x) client ∅) as [prev|] eqn:E.
  - split.
    + intros (i & c & Hc & H). exfalso.
      assert (N : collect_prev (map_to_list x) client ∅ = None).
      { apply collect_prev_None. exists i, c. split; [apply elem_of_map_to_list, Hc | exact H]. }
      congruence.
    + destruct (find_update prev client) as [[pid stored]|]; cbv zeta; intros [= _ H]; discriminate H.
  - split; [reflexivity|]. intros _.
    apply collect_prev_None in E as (i & c & Hin & H).
    exists i, c. split; [apply elem_of_map_to_list, Hin | exact H].
Qed.

Lemma Add_update (x : gmap Z Client) now client id confirm pid c :
  name_keyed x ->
  (forall i a, x !! i = Some a -> confirmed a = true -> Name a = Name client ->
               Auth.Equal (Creds a) (Creds client) = true) ->
  x !! pid = Some c -> confirmed c = true -> Name c = Name client ->
  Verifier c = Verifier client ->
  Add x now client id confirm
  = (<[pid := set_lastSeen (set_seqID (set_confirmValue c confirm) (u32 (seqID c + 1))) now]> x,
     Ok (pid, confirm, u32 (seqID c + 1))).
Proof.
  intros Hkey Hok Hc Hconf Hname Hver. unfold Add.
  destruct (collect_prev (map_to_list x) client ∅) as [prev|] eqn:E.
  2:{ apply collect_prev_None in E as (i & a & Hin & H1 & H2 & H3).
      apply elem_of_map_to_list in Hin. rewrite (Hok i a Hin H1 H2) in H3. discriminate H3. }
  pose proof (collect_prev_map x client prev E) as Hprev.
  destruct (find_update prev client) as [[pid' stored]|] eqn:F.
  - apply find_update_Some in F as (Hp & Hv & Hcf).
    apply Hprev in Hp as (Hx & _ & Hn).
    destruct (decide (pid' = pid)) as [->|Hne].
    + rewrite Hc in Hx. injection Hx as <-. reflexivity.
    + exfalso. destruct (Hkey pid' pid stored c Hne Hx Hc) as [Hdiff _]; congruence.
  - exfalso. apply (find_update_None prev client F pid c); [|auto].
    apply Hprev. auto.
Qed.

Lemma Add_new (x : gmap Z Client) now client id confirm :
  (forall i a, x !! i = Some a -> confirmed a = true -> Name a = Name client ->
               Auth.Equal (Creds a) (Creds client) = true
               /\ Verifier a <> Verifier client) ->
  Add x now client id confirm
  = (<[id := mkClient (Name client) (Verifier client) (Creds client) id now
               (confirmed client) confirm 1 (busy client) (sessions client)]>
       (filter (fun e => kept_by_Add client e = true) x),
     Ok (id, confirm, 1)).
Proof.
  intros Hok. unfold Add.
  destruct (collect_prev (map_to_list x) client ∅) as [prev|] eqn:E.
  2:{ apply collect_prev_None in E as (i & a & Hin & H1 & H2 & H3).
      apply elem_of_map_to_list in Hin. destruct (Hok i a Hin H1 H2) as [H4 _].
      rewrite H4 in H3. discriminate H3. }
  pose proof (collect_prev_map x client prev E) as Hprev.
  destruct (find_update prev client) as [[pid' stored]|] eqn:F; [|reflexivity].
  exfalso. apply find_update_Some in F as (Hp & Hv & Hcf).
  apply Hprev in Hp as (Hx & _ & Hn). destruct (Hok pid' stored Hx Hcf Hn) as [_ Hd].
  contradiction.
Qed.

End RegistryAdd.

Section RegistryInvariant.
Import Clients Registry.

Lemma name_keyed_refine (x x' : gmap Z Client) :
  name_keyed x ->
  (forall i b, x' !! i = Some b ->
     exists a, x !! i = Some a /\ Name b = Name a /\ Verifier b = Verifier a
               /\ (confirmed a = true -> confirmed b = true)) ->
  name_keyed x'.
Proof.
  intros Hkey Href i j a b Hne Ha Hb Hname.
  destruct (Href i a Ha) as (a0 & Ha0 & Hna & Hva & Hca).
  destruct (Href j b Hb) as (b0 & Hb0 & Hnb & Hvb & Hcb).
  destruct (Hkey i j a0 b0 Hne Ha0 Hb0) as [Hv Hc]; [congruence|].
  split; [congruence|]. destruct Hc as [Hc|Hc]; [left; apply Hca, Hc | right; apply Hcb, Hc].
Qed.

Lemma refine_insert (x : gmap Z Client) k c c' :
  x !! k = Some c -> Name c' = Name c -> Verifier c' = Verifier c ->
  (confirmed c = true -> confirmed c' = true) ->
  forall i b, <[k := c']> x !! i = Some b ->
    exists a, x !! i = Some a /\ Name b = Name a /\ Verifier b = Verifier a
              /\ (confirmed a = true -> confirmed b = true).
Proof.
  intros Hk Hn Hv Hc i b Hi. destruct (decide (k = i)) as [->|Hne].
  - rewrite lookup_insert_eq in Hi. injection Hi as <-. exists c. auto.
  - rewrite lookup_insert_ne in Hi by exact Hne. exists b. auto.
Qed.

Lemma refine_id (x : gmap Z Client) :
  forall i b, x !! i = Some b ->
    exists a, x !! i = Some a /\ Name b = Name a /\ Verifier b = Verifier a
              /\ (confirmed a = true -> confirmed b = true).
Proof. intros i b Hi. exists b. auto. Qed.

Lemma foldl_delete_lookup (ks : list Z) :
  forall (x : gmap Z Client) i,
    foldl (fun m index => delete index m) x ks !! i
    = if decide (i ∈ ks) then None else x !! i.
Proof.
  induction ks as [|k ks IH]; intros x i; cbn [foldl].
  - destruct (decide (i ∈ [])) as [H|_]; [apply elem_of_nil in H; destruct H | reflexivity].
  - rewrite IH. destruct (decide (i ∈ ks)) as [Hin|Hnin].
    + destruct (decide (i ∈ k :: ks)) as [_|N]; [reflexivity|].
      exfalso. apply N. apply elem_of_cons. right. exact Hin.
    + destruct (decide (k = i)) as [->|Hne].
      * rewrite lookup_delete_eq. destruct (decide (i ∈ i :: ks)) as [_|N]; [reflexivity|].
        exfalso. apply N. apply elem_of_cons. left. reflexivity.
      * rewrite lookup_delete_ne by exact Hne.
        destruct (decide (i ∈ k :: ks)) as [H|_]; [|reflexivity].
        apply elem_of_cons in H as [->|H]; [congruence | contradiction].
Qed.

Lemma Add_name_keyed (x : gmap Z Client) now client id confirm :
  name_keyed x -> name_keyed (fst (Add x now client id confirm)).
Proof.
  intros Hkey. unfold Add.
  destruct (collect_prev (map_to_list x) client ∅) as [prev|] eqn:E; [|exact Hkey].
  pose proof (collect_prev_map x client prev E) as Hprev.
  destruct (find_update prev client) as [[pid stored]|] eqn:F; cbv zeta; cbn [fst].
  - apply find_update_Some in F as (Hp & _ & _). apply Hprev in Hp as (Hx & _ & _).
    apply (name_keyed_refine x); [exact Hkey|].
    apply (refine_insert x pid stored); auto.
  - pose proof (find_update_None prev client F) as Hnone.
    intros i j a b Hne Ha Hb Hname.
    assert (Hold : forall k c, k <> id ->
              <[id := mkClient (Name client) (Verifier client) (Creds client) id now
                        (confirmed client) confirm 1 (busy client) (sessions client)]>
                (filter (fun e => kept_by_Add client e = true) x) !! k = Some c ->
              x !! k = Some c
              /\ (Name c = Name client ->
                  confirmed c = true /\ Verifier c <> Verifier client)).
    { intros k c Hk Hl. rewrite lookup_insert_ne in Hl by congruence.
      apply map_lookup_filter_Some in Hl as [Hl Hkept]. split; [exact Hl|].
      intros Hn. unfold kept_by_Add in Hkept. cbn [snd] in Hkept.
      rewrite (proj2 (bytes_Equal_true _ _) Hn) in Hkept. cbn [negb] in Hkept.
      rewrite orb_false_r in Hkept. split; [exact Hkept|].
      intros Hv. apply (Hnone k c); [apply Hprev; auto | auto]. }
    destruct (decide (i = id)) as [->|Hi], (decide (j = id)) as [->|Hj].
    + contradiction.
    + rewrite lookup_insert_eq in Ha. injection Ha as <-. cbn [Name Verifier confirmed] in *.
      destruct (Hold j b Hj Hb) as [_ Hb']. destruct (Hb' (eq_sym Hname)) as [Hc Hv].
      split; [congruence | right; exact Hc].
    + rewrite lookup_insert_eq in Hb. injection Hb as <-. cbn [Name Verifier confirmed] in *.
      destruct (Hold i a Hi Ha) as [_ Ha']. destruct (Ha' Hname) as [Hc Hv].
      split; [exact Hv | left; exact Hc].
    + destruct (Hold i a Hi Ha) as [Ha' _]. destruct (Hold j b Hj Hb) as [Hb' _].
      exact (Hkey i j a b Hne Ha' Hb' Hname).
Qed.

Lemma find_In_map_to_list (x : gmap Z Client) f k c :
  List.find f (map_to_list x) = Some (k, c) -> x !! k = Some c.
Proof.
  intros H. apply find_some in H as [Hin _].
  apply list_elem_of_In, elem_of_map_to_list in Hin. exact Hin.
Qed.

(** The registry keeps clients of the same name apart by their
    verifiers, with at most one of them unconfirmed, whatever is done
    to it. *)
Theorem registry_name_keyed (x : gmap Z Client) (now : Clock.Time) (Hx : name_keyed x) :
  name_keyed (∅ : gmap Z Client)
  /\ (forall client id confirm, name_keyed (fst (Add x now client id confirm)))
  /\ (forall id confirm creds, name_keyed (fst (Confirm x now id confirm creds)))
  /\ (forall id seq creds, name_keyed (fst (Confirm41 x now id seq creds)))
  /\ (forall id, name_keyed (fst (Get x now id)))
  /\ (forall name verifier creds, name_keyed (fst (GetByName x now name verifier creds)))
  /\ (forall id, name_keyed (fst (RemoveClient x id)))
  /\ (forall expiration, name_keyed (fst (RemoveExpiredClients x now expiration))).
Proof.
  split; [intros i j a b _ Ha; rewrite lookup_empty in Ha; discriminate Ha|].
  split; [intros; apply Add_name_keyed, Hx|].
  split; [|split; [|split; [|split; [|split]]]].
  - intros id confirm creds. unfold Confirm.
    destruct (x !! id) as [c|] eqn:Hc; [|exact Hx].
    destruct (negb (confirmValue c =? confirm)); [exact Hx|].
    destruct (negb (Auth.Equal (Creds c) creds)); [exact Hx|]. cbn [fst].
    apply (name_keyed_refine x); [exact Hx|]. apply (refine_insert x id c); auto.
  - intros id seq creds. unfold Confirm41.
    destruct (x !! id) as [c|] eqn:Hc; [|exact Hx].
    destruct (confirmed c) eqn:Hconf.
    + destruct ((seq =? 0) && negb (seqID c =? 0)).
      { cbn [fst]. apply (name_keyed_refine x); [exact Hx|]. apply (refine_insert x id c); auto. }
      destruct (seq <? seqID c); [exact Hx|].
      destruct (seqID c =? seq); [exact Hx|].
      cbn [fst]. apply (name_keyed_refine x); [exact Hx|]. apply (refine_insert x id c); auto.
    + destruct (negb (seqID c =? seq)); [exact Hx|].
      destruct (negb (Auth.Equal (Creds c) creds)); [exact Hx|]. cbn [fst].
      apply (name_keyed_refine x); [exact Hx|]. apply (refine_insert x id c); auto.
  - intros id. unfold Get. destruct (x !! id) as [c|] eqn:Hc; [|exact Hx].
    destruct (negb (confirmed c)); [exact Hx|]. cbn [fst].
    apply (name_keyed_refine x); [exact Hx|]. apply (refine_insert x id c); auto.
  - intros name verifier creds. unfold GetByName.
    destruct (List.find _ (map_to_list x)) as [[k c]|] eqn:F; [|exact Hx]. cbn [fst].
    apply find_In_map_to_list in F.
    apply (name_keyed_refine x); [exact Hx|]. apply (refine_insert x k c); auto.
  - intros id. unfold RemoveClient. destruct (x !! id) as [c|] eqn:Hc; [|exact Hx].
    destruct (negb (confirmed c)); [exact Hx|].
    destruct (busy c >? 0); [exact Hx|]. cbn [fst].
    apply (name_keyed_refine x); [exact Hx|]. intros i b Hi.
    apply lookup_delete_Some in Hi as [_ Hi]. exists b. auto.
  - intros expiration. unfold RemoveExpiredClients. cbv zeta. cbn [fst].
    apply (name_keyed_refine x); [exact Hx|]. intros i b Hi.
    rewrite foldl_delete_lookup in Hi. destruct (decide _); [discriminate Hi|].
    exists b. auto.
Qed.

End RegistryInvariant.

Section RegistryTheorems.
Import Clients Registry.

(** The three outcomes of [Clients.Add] on a registry that is keyed by
    name and verifier: CLID_INUSE exactly when a confirmed client of that
    name has other credentials (nothing changes); otherwise the confirmed
    client with the same name and verifier is renewed (new confirm value,
    sequence id plus one, last-seen time) and its id returned; and when
    there is none, a new unconfirmed record with sequence id 1 is stored
    under the new id and every other unconfirmed record of that name is
    dropped. *)
Theorem Add_cases (x : gmap Z Client) (now : Clock.Time) (client : Client)
    (id confirm : Z) (Hkey : name_keyed x) :
  let in_use :=
    exists i c, x !! i = Some c /\ confirmed c = true /\ Name c = Name client
                /\ Auth.Equal (Creds c) (Creds client) = false in
  (in_use <-> Add x now client id confirm = (x, Err Msg.NFS4ERR_CLID_INUSE))
  /\ (forall pid c,
        ~ in_use -> x !! pid = Some c -> confirmed c = true ->
        Name c = Name client -> Verifier c = Verifier client ->
        Add x now client id confirm
        = (<[pid := set_lastSeen (set_seqID (set_confirmValue c confirm)
                                    (u32 (seqID c + 1))) now]> x,
           Ok (pid, confirm, u32 (seqID c + 1))))
  /\ (~ in_use ->
      (forall i a, x !! i = Some a -> confirmed a = true -> Name a = Name client ->
                   Verifier a <> Verifier client) ->
      exists x',
        Add x now client id confirm = (x', Ok (id, confirm, 1))
        /\ x' !! id = Some (mkClient (Name client) (Verifier client) (Creds client) id now
                              (confirmed client) confirm 1 (busy client) (sessions client))
        /\ (forall k a, k <> id ->
              x' !! k = Some a
              <-> x !! k = Some a /\ (confirmed a = true \/ Name a <> Name client))).
Proof.
  cbv zeta.
  assert (Hok : ~ (exists i c, x !! i = Some c /\ confirmed c = true /\ Name c = Name client
                               /\ Auth.Equal (Creds c) (Creds client) = false) ->
                forall i a, x !! i = Some a -> confirmed a = true -> Name a = Name client ->
                            Auth.Equal (Creds a) (Creds client) = true).
  { intros Hno i a Ha Hc Hn.
    destruct (Auth.Equal (Creds a) (Creds client)) eqn:E; [reflexivity|].
    exfalso. apply Hno. exists i, a. auto. }
  split; [apply Add_in_use|]. split.
  - intros pid c Hno Hc Hconf Hname Hver.
    apply (Add_update x now client id confirm pid c Hkey (Hok Hno) Hc Hconf Hname Hver).
  - intros Hno Hver.
    rewrite (Add_new x now client id confirm).
    2:{ intros i a Ha Hc Hn. split; [apply (Hok Hno i a Ha Hc Hn) | apply (Hver i a Ha Hc Hn)]. }
    eexists. split; [reflexivity|]. split; [apply lookup_insert_eq|].
    intros k a Hk. rewrite lookup_insert_ne by congruence.
    rewrite map_lookup_filter_Some. unfold kept_by_Add. cbn [snd].
    split; intros [Ha H]; (split; [exact Ha|]).
    + apply orb_true_iff in H as [H|H]; [left; exact H|].
      right. apply negb_true_iff, bytes_Equal_false in H. exact H.
    + destruct H as [->|H]; [reflexivity|].
      apply bytes_Equal_false in H. rewrite H. apply orb_true_r.
Qed.

Lemma name_keyed_singleton (k : Z) (c : Client) : name_keyed {[k := c]}.
Proof.
  intros i j a b Hne Ha Hb _.
  apply lookup_singleton_Some in Ha as [<- _]. apply lookup_singleton_Some in Hb as [<- _].
  contradiction.
Qed.

End RegistryTheorems.

Lemma Add_cases_witness :
  Registry.Add {[7 := Clients.sample_client true 5]} 60
    (Registry.request_client [99] 1 Clients.sample_creds) 8 1234
  = (<[7 := Clients.set_lastSeen
              (Clients.set_seqID
                 (Registry.set_confirmValue (Clients.sample_client true 5) 1234)
                 (u32 (5 + 1))) 60]> {[7 := Clients.sample_client true 5]},
     Ok (7, 1234, u32 (5 + 1))).
Proof.
  refine (proj1 (proj2 (Add_cases {[7 := Clients.sample_client true 5]} 60
            (Registry.request_client [99] 1 Clients.sample_creds) 8 1234
            (name_keyed_singleton 7 _))) 7 (Clients.sample_client true 5) _ _ _ _ _);
    try reflexivity.
  intros (i & c & Hc & _ & _ & Heq).
  apply lookup_singleton_Some in Hc as [_ <-]. vm_compute in Heq. discriminate Heq.
Defined.

Lemma registry_name_keyed_witness :
  Registry.name_keyed
    (fst (Registry.Add {[7 := Clients.sample_client true 5]} 60
            (Registry.request_client [99] 2 Clients.sample_creds) 8 1234)).
Proof.
  exact (proj1 (proj2 (registry_name_keyed {[7 := Clients.sample_client true 5]} 60
                         (name_keyed_singleton 7 _)))
           (Registry.request_client [99] 2 Clients.sample_creds) 8 1234).
Defined.

Section Handshake.
Import Clients Registry.

(** The v4.0 handshake.  A client registered by [Add] under a new id is
    not usable before it is confirmed ([Get] does not find it); [Confirm]
    with another confirm value answers STALE_CLIENTID, with other
    credentials CLID_INUSE, and with the value [Add] returned and equal
    credentials it confirms the client, which [Get] then finds. *)
Theorem Add_Confirm_Get (x : gmap Z Client) (now now1 now2 : Clock.Time)
    (name : list Z) (verifier : Z) (creds creds1 : Auth.Creds) (id confirm : Z)
    (Hnew : forall i a, x !! i = Some a -> confirmed a = true -> Name a <> name) :
  exists x1 c,
    Add x now (request_client name verifier creds) id confirm = (x1, Ok (id, confirm, 1))
    /\ x1 !! id = Some c
    /\ c = mkClient name verifier creds id now false confirm 1 0 ∅
    /\ Get x1 now1 id = (x1, None)
    /\ (forall wrong, wrong <> confirm ->
          Confirm x1 now1 id wrong creds1 = (x1, Err Msg.NFS4ERR_STALE_CLIENTID))
    /\ (Auth.Equal creds creds1 = false ->
          Confirm x1 now1 id confirm creds1 = (x1, Err Msg.NFS4ERR_CLID_INUSE))
    /\ (Auth.Equal creds creds1 = true ->
          Confirm x1 now1 id confirm creds1
          = (<[id := set_lastSeen (set_confirmed c true) now1]> x1,
             Ok (set_lastSeen (set_confirmed c true) now1))
          /\ snd (Get (<[id := set_lastSeen (set_confirmed c true) now1]> x1) now2 id)
             = Some (set_lastSeen (set_confirmed c true) now2)).
Proof.
  rewrite (Add_new x now (request_client name verifier creds) id confirm).
  2:{ intros i a Ha Hc Hn. exfalso. exact (Hnew i a Ha Hc Hn). }
  eexists _, _. split; [reflexivity|].
  split; [apply lookup_insert_eq|]. split; [reflexivity|].
  cbn [request_client Name Verifier Creds confirmed busy sessions].
  split; [|split; [|split]].
  - unfold Get. rewrite lookup_insert_eq. reflexivity.
  - intros wrong Hw. unfold Confirm. rewrite lookup_insert_eq. cbn [confirmValue].
    destruct (Z.eqb_spec confirm wrong); [congruence | reflexivity].
  - intros Hne. unfold Confirm. rewrite lookup_insert_eq. cbn [confirmValue Creds].
    rewrite Z.eqb_refl, Hne. reflexivity.
  - intros Heq. split.
    + unfold Confirm. rewrite lookup_insert_eq. cbn [confirmValue Creds].
      rewrite Z.eqb_refl, Heq. reflexivity.
    + unfold Get. rewrite lookup_insert_eq. reflexivity.
Qed.

End Handshake.

Lemma Add_Confirm_Get_witness :
  exists x1 c,
    Registry.Add {[7 := Clients.sample_client true 5]} 60
      (Registry.request_client [100] 3 Clients.sample_creds) 8 1234
    = (x1, Ok (8, 1234, 1))
    /\ x1 !! 8 = Some c
    /\ Registry.Confirm x1 61 8 1234 Clients.sample_creds
       = (<[8 := Clients.set_lastSeen (Clients.set_confirmed c true) 61]> x1,
          Ok (Clients.set_lastSeen (Clients.set_confirmed c true) 61)).
Proof.
  destruct (Add_Confirm_Get {[7 := Clients.sample_client true 5]} 60 61 62 [100] 3
              Clients.sample_creds Clients.sample_creds 8 1234)
    as (x1 & c & HA & Hc & _ & _ & _ & _ & HC).
  - intros i a Ha _ Hn. apply lookup_singleton_Some in Ha as [_ <-]. discriminate Hn.
  - exists x1, c. split; [exact HA|]. split; [exact Hc|]. apply HC. reflexivity.
Defined.

Section Sessions.
Import Clients Registry.

Lemma length_be64 (v : Z) : length (Xdr.be64 v) = 8%nat.
Proof. reflexivity. Qed.

Lemma new_session_lookup (persist : bool) (slot : Z) :
  0 <= slot <= MaxSlotID ->
  new_session persist !! Z.to_nat slot
  = Some (mkSlot slot 0 false (if persist then Some Bufpool.fresh else None)).
Proof.
  unfold MaxSlotID. intros H. unfold new_session. rewrite list_lookup_fmap.
  change (Z.to_nat (MaxSlotID + 1)) with 16%nat.
  rewrite lookup_seq_lt by lia. cbn [fmap option_fmap option_map Nat.add].
  rewrite Z2Nat.id by lia. reflexivity.
Qed.

(** The session [BuildSession] makes: its id names the client and the
    cache id, it has the slots 0 to [MaxSlotID], each new, with a buffer
    exactly when the session is persistent, and no other slot; sessions of
    other cache ids are untouched, and [RemoveSession] takes all its slots
    away again. *)
Theorem BuildSession_slots (c : Client) (cacheID : Z) (persist : bool)
    (Hc : is_u64 (clientID c)) (Hcache : is_u64 cacheID) :
  let sid := SessionID c cacheID in
  let c' := BuildSession c cacheID persist in
  length sid = 16%nat
  /\ ClientIDFromSessionID sid = clientID c
  /\ CacheIDFromSessionID sid = cacheID
  /\ (forall slot, 0 <= slot <= MaxSlotID ->
        GetSlot c' sid slot
        = Some (mkSlot slot 0 false (if persist then Some Bufpool.fresh else None)))
  /\ (forall slot, MaxSlotID < slot -> GetSlot c' sid slot = None)
  /\ (forall sid' slot, CacheIDFromSessionID sid' <> cacheID ->
        GetSlot c' sid' slot = GetSlot c sid' slot)
  /\ (forall slot, GetSlot (RemoveSession c' sid) sid slot = None)
  /\ (sessions c !! cacheID = None -> sessions (RemoveSession c' sid) = sessions c).
Proof.
  cbv zeta.
  assert (Hcid : ClientIDFromSessionID (SessionID c cacheID) = clientID c).
  { unfold ClientIDFromSessionID, SessionID.
    rewrite <- (length_be64 (clientID c)) at 1. rewrite take_app_length.
    apply BigEndianUint64_be64, Hc. }
  assert (Hcach : CacheIDFromSessionID (SessionID c cacheID) = cacheID).
  { unfold CacheIDFromSessionID, SessionID.
    rewrite <- (length_be64 (clientID c)) at 1. rewrite drop_app_length.
    apply BigEndianUint64_be64, Hcache. }
  split; [reflexivity|]. split; [exact Hcid|]. split; [exact Hcach|].
  split; [|split; [|split; [|split]]].
  - intros slot Hs. unfold GetSlot. cbv zeta. rewrite Hcach.
    unfold BuildSession. cbn [sessions set_sessions]. rewrite lookup_insert_eq.
    rewrite new_session_length.
    destruct (Z.leb_spec (Z.of_nat 16) slot) as [H|_]; [unfold MaxSlotID in Hs; lia|].
    apply new_session_lookup, Hs.
  - intros slot Hs. unfold GetSlot. cbv zeta. rewrite Hcach.
    unfold BuildSession. cbn [sessions set_sessions]. rewrite lookup_insert_eq.
    rewrite new_session_length.
    destruct (Z.leb_spec (Z.of_nat 16) slot) as [_|H]; [reflexivity|].
    unfold MaxSlotID in Hs. lia.
  - intros sid' slot Hne. unfold GetSlot. cbv zeta.
    unfold BuildSession. cbn [sessions set_sessions].
    rewrite lookup_insert_ne by congruence. reflexivity.
  - intros slot. unfold RemoveSession. cbv zeta. rewrite Hcach.
    unfold BuildSession. cbn [sessions set_sessions]. rewrite lookup_insert_eq.
    unfold GetSlot. cbv zeta. cbn [sessions set_sessions].
    rewrite Hcach, lookup_delete_eq. reflexivity.
  - intros Hfree. unfold RemoveSession. cbv zeta. rewrite Hcach.
    unfold BuildSession. cbn [sessions set_sessions]. rewrite lookup_insert_eq.
    cbn [sessions set_sessions]. rewrite delete_insert_eq. apply delete_id, Hfree.
Qed.

End Sessions.

Lemma BuildSession_slots_witness :
  Clients.GetSlot (Clients.BuildSession (Clients.sample_client true 1) 9 true)
    (Registry.SessionID (Clients.sample_client true 1) 9) 15
  = Some (Clients.mkSlot 15 0 false (Some Bufpool.fresh)).
Proof.
  refine (proj1 (proj2 (proj2 (proj2 (BuildSession_slots (Clients.sample_client true 1) 9 true
            _ _)))) 15 _).
  - unfold is_u64. simpl. lia.
  - unfold is_u64. lia.
  - unfold Clients.MaxSlotID. lia.
Defined.

Section Removal.
Import Clients Registry.

Lemma filter_all_false {A : Type} (f : A -> bool) (l : list A) :
  (forall a, In a l -> f a = false) -> List.filter f l = [].
Proof.
  induction l as [|a l IH]; intros H; [reflexivity|].
  cbn [List.filter]. rewrite (H a (or_introl eq_refl)). apply IH.
  intros b Hb. apply H. right. exact Hb.
Qed.

Lemma removed_spec (x : gmap Z Client) now expiration i :
  i ∈ snd (RemoveExpiredClients x now expiration)
  <-> exists c, x !! i = Some c /\ alive now expiration c = false.
Proof.
  unfold RemoveExpiredClients. cbv zeta. cbn [snd].
  rewrite list_elem_of_In, in_map_iff. split.
  - intros ([k c] & <- & Hin). apply filter_In in Hin as [Hin Hf]. cbn [fst snd] in *.
    apply list_elem_of_In, elem_of_map_to_list in Hin. exists c.
    split; [exact Hin | apply negb_true_iff, Hf].
  - intros (c & Hc & Hd). exists (i, c). split; [reflexivity|].
    apply filter_In. split; [apply list_elem_of_In, elem_of_map_to_list, Hc|].
    cbn [snd]. rewrite Hd. reflexivity.
Qed.

(** What the sweep removes: exactly the clients not seen for longer than
    the expiration time that hold no open file.  It reports each removed
    id once, a second sweep at the same time removes nothing, and neither
    the sweep nor [RemoveClient] ever removes a client with open files. *)
Theorem RemoveExpiredClients_spec (x : gmap Z Client) (now : Clock.Time) (expiration : Z) :
  let x' := fst (RemoveExpiredClients x now expiration) in
  let removed := snd (RemoveExpiredClients x now expiration) in
  (forall i, i ∈ removed
             <-> exists c, x !! i = Some c /\ expiration < now - lastSeen c /\ busy c <= 0)
  /\ (forall i, x' !! i = if decide (i ∈ removed) then None else x !! i)
  /\ NoDup removed
  /\ RemoveExpiredClients x' now expiration = (x', [])
  /\ (forall i c, x !! i = Some c -> busy c > 0 ->
        x' !! i = Some c /\ fst (RemoveClient x i) = x /\ snd (RemoveClient x i) <> None).
Proof.
  cbv zeta.
  assert (Halive : forall c, alive now expiration c = false
                             <-> expiration < now - lastSeen c /\ busy c <= 0).
  { intros c. unfold alive. rewrite orb_false_iff, Z.leb_gt.
    destruct (Z.gtb_spec (busy c) 0); split; intros [H1 H2];
      try discriminate; try (exfalso; lia); split; try lia; reflexivity. }
  assert (Hlook : forall i, fst (RemoveExpiredClients x now expiration) !! i
                  = if decide (i ∈ snd (RemoveExpiredClients x now expiration))
                    then None else x !! i).
  { intros i. unfold RemoveExpiredClients. cbv zeta. cbn [fst snd].
    apply foldl_delete_lookup. }
  split; [|split; [exact Hlook|split; [|split]]].
  - intros i. rewrite removed_spec. split; intros (c & Hc & H); exists c;
      (split; [exact Hc | apply Halive, H]).
  - unfold RemoveExpiredClients. cbv zeta. cbn [snd].
    assert (Hsub : forall (l : list (Z * Client)) f, NoDup (l.*1) -> NoDup (map fst (List.filter f l))).
    { clear. induction l as [|[k c] l IH]; intros f Hnd; [constructor|].
      cbn [fmap list_fmap fst] in Hnd. apply NoDup_cons in Hnd as [Hk Hnd].
      cbn [List.filter]. destruct (f (k, c)); [|apply IH, Hnd].
      cbn [map fst]. apply NoDup_cons. split; [|apply IH, Hnd].
      intros Hin. apply Hk. apply list_elem_of_In, in_map_iff in Hin as ([k' c'] & E & Hin).
      cbn [fst] in E. subst k'. apply filter_In in Hin as [Hin _].
      apply list_elem_of_fmap. exists (k, c'). split; [reflexivity | apply list_elem_of_In, Hin]. }
    apply Hsub, NoDup_fst_map_to_list.
  - set (x' := fst (RemoveExpiredClients x now expiration)).
    assert (Hnone : List.filter (fun e => negb (alive now expiration (snd e))) (map_to_list x') = []).
    { apply filter_all_false. intros [k c] Hin.
      apply list_elem_of_In, elem_of_map_to_list in Hin. cbn [snd].
      unfold x' in Hin. rewrite Hlook in Hin.
      destruct (decide (k ∈ snd (RemoveExpiredClients x now expiration))) as [|Hnot];
        [discriminate Hin|].
      destruct (alive now expiration c) eqn:E; [reflexivity|].
      exfalso. apply Hnot. apply removed_spec. exists c. auto. }
    unfold RemoveExpiredClients at 1. cbv zeta. rewrite Hnone. reflexivity.
  - intros i c Hc Hb. split; [|split].
    + rewrite Hlook. destruct (decide _) as [Hin|_]; [|exact Hc].
      apply removed_spec in Hin as (c' & Hc' & Hd). rewrite Hc in Hc'. injection Hc' as <-.
      apply Halive in Hd. lia.
    + unfold RemoveClient. rewrite Hc. destruct (negb (confirmed c)); [reflexivity|].
      destruct (Z.gtb_spec (busy c) 0); [reflexivity | lia].
    + unfold RemoveClient. rewrite Hc. destruct (negb (confirmed c)); [discriminate|].
      destruct (Z.gtb_spec (busy c) 0); [discriminate | lia].
Qed.

End Removal.

(** ** Workers: life cycle, open files, attribute cache *)

Section WorkerLife.
Import Lifecycle.

Lemma step_invariant (w : life) (e : event) :
  0 <= inUse w ->
  cleanups w = (if discarded w && (inUse w =? 0) then 1%nat else 0%nat) ->
  match e with EClose => 0 < inUse w | _ => True end ->
  0 <= inUse (step w e)
  /\ cleanups (step w e)
     = (if discarded (step w e) && (inUse (step w e) =? 0) then 1%nat else 0%nat)
  /\ (discarded w = true -> discarded (step w e) = true).
Proof.
  intros Hpos Hc Hbal. destruct w as [n d t k]. cbn [inUse discarded cleanups] in *.
  destruct e as [now| | |now must]; cbn [step].
  - unfold Use. cbn [inUse discarded cleanups lastUse]. destruct d; cbn [inUse discarded cleanups].
    + auto.
    + split; [lia|]. split; [exact Hc | discriminate].
  - unfold Close. cbn [inUse discarded cleanups lastUse]. cbv zeta.
    destruct d; cbn [andb] in *.
    + destruct (Z.eqb_spec n 0); [lia|].
      destruct (Z.eqb_spec (n - 1) 0); cbn [inUse discarded cleanups andb].
      * rewrite Hc. destruct (Z.eqb_spec (n - 1) 0); [auto with lia | lia].
      * destruct (Z.eqb_spec (n - 1) 0); [lia|]. auto with lia.
    + cbn [inUse discarded cleanups andb]. split; [lia|]. split; [exact Hc | discriminate].
  - unfold Discard. cbn [inUse discarded cleanups lastUse].
    destruct d; cbn [andb] in *; [cbn [inUse discarded cleanups andb]; auto|].
    destruct (Z.gtb_spec n 0); cbn [inUse discarded cleanups andb].
    + destruct (Z.eqb_spec n 0); [lia|]. auto.
    + destruct (Z.eqb_spec n 0); [|lia]. rewrite Hc. auto.
  - unfold autoDiscard. cbn [inUse discarded cleanups lastUse].
    destruct d; cbn [andb] in *; [cbn [inUse discarded cleanups andb]; auto|].
    destruct ((now - t <=? IdleTimeout) && negb must);
      [cbn [inUse discarded cleanups andb]; split; [lia|]; split; [exact Hc | discriminate]|].
    destruct (Z.eqb_spec n 0); cbn [inUse discarded cleanups andb].
    + destruct (Z.eqb_spec n 0); [|lia]. rewrite Hc. auto.
    + destruct (Z.eqb_spec n 0); [lia|]. auto.
Qed.

Lemma run_invariant (es : list event) :
  forall w,
    0 <= inUse w ->
    cleanups w = (if discarded w && (inUse w =? 0) then 1%nat else 0%nat) ->
    balanced w es ->
    0 <= inUse (run w es)
    /\ cleanups (run w es)
       = (if discarded (run w es) && (inUse (run w es) =? 0) then 1%nat else 0%nat)
    /\ (discarded w = true -> discarded (run w es) = true).
Proof.
  induction es as [|e es IH]; intros w Hpos Hc Hbal; [cbn; auto|].
  destruct Hbal as [He Hbal].
  destruct (step_invariant w e Hpos Hc He) as (Hpos' & Hc' & Hd').
  destruct (IH (step w e) Hpos' Hc' Hbal) as (H1 & H2 & H3).
  unfold run in *. cbn [foldl]. auto.
Qed.

Lemma discarded_stays (es : list event) :
  forall w, discarded w = true -> discarded (run w es) = true.
Proof.
  induction es as [|e es IH]; intros w Hd; [exact Hd|].
  unfold run. cbn [foldl]. apply IH.
  destruct w as [n d t k]. cbn [discarded] in Hd. subst d.
  destruct e; cbn [step]; unfold Use, Close, Discard, autoDiscard;
    cbn [inUse discarded cleanups lastUse]; cbv zeta; try reflexivity.
  destruct (true && (n - 1 =? 0)); reflexivity.
Qed.

(** Whatever happens to a worker after [New], as long as every [Close]
    releases a hold: the clean-up is started at most once, and exactly
    when the worker is discarded and nobody holds it, so never while a
    request still uses it; and a discarded worker refuses every later
    [Use]. *)
Theorem cleanup_once (now : Clock.Time) (es : list event) (Hbal : balanced (New now) es) :
  let w := run (New now) es in
  0 <= inUse w
  /\ (cleanups w <= 1)%nat
  /\ (cleanups w = 1%nat <-> discarded w = true /\ inUse w = 0)
  /\ (discarded w = true -> forall t es', Use w t = None /\ discarded (run w es') = true).
Proof.
  cbv zeta. destruct (run_invariant es (New now)) as (Hpos & Hc & _);
    [cbn; lia | reflexivity | exact Hbal |].
  split; [exact Hpos|]. rewrite Hc.
  destruct (discarded (run (New now) es)) eqn:Hd; cbn [andb].
  - assert (Hlater : forall t es', Use (run (New now) es) t = None
                                   /\ discarded (run (run (New now) es) es') = true).
    { intros t es'. split; [unfold Use; rewrite Hd; reflexivity|].
      apply discarded_stays, Hd. }
    destruct (Z.eqb_spec (inUse (run (New now) es)) 0) as [E|E].
    + split; [lia|]. split; [tauto|]. intros _. exact Hlater.
    + split; [lia|]. split; [|intros _; exact Hlater].
      split; [intros X; discriminate X | intros [_ X]; contradiction].
  - split; [lia|]. split; [split; [intros X; discriminate X | intros [X _]; discriminate X]|].
    intros X. discriminate X.
Qed.

End WorkerLife.
Lemma cleanup_once_witness :
  0 <= Lifecycle.inUse
         (Lifecycle.run (Lifecycle.New 0)
            [Lifecycle.EUse 5; Lifecycle.EDiscard; Lifecycle.EClose; Lifecycle.EClose])
  /\ Nat.le (Lifecycle.cleanups
               (Lifecycle.run (Lifecycle.New 0)
                  [Lifecycle.EUse 5; Lifecycle.EDiscard; Lifecycle.EClose;
                   Lifecycle.EClose])) 1.
Proof.
  destruct (cleanup_once 0
              [Lifecycle.EUse 5; Lifecycle.EDiscard; Lifecycle.EClose; Lifecycle.EClose])
    as (H1 & H2 & _).
  - simpl. lia.
  - split; [exact H1 | exact H2].
Defined.

Section WorkerFilesFacts.
Import Worker WorkerFiles.

Lemma Done_AddBusy (c : Clients.Client) : Clients.Done (Registry.AddBusy c 1) = c.
Proof.
  destruct c. unfold Clients.Done, Registry.AddBusy, Clients.set_busy.
  cbn [Clients.busy Clients.Name Clients.Verifier Clients.Creds Clients.clientID
       Clients.lastSeen Clients.confirmed Clients.confirmValue Clients.seqID
       Clients.sessions].
  f_equal. lia.
Qed.

(** Opening and closing a file.  [AddFile] stores the file under the new
    index, where [GetFile] finds it, and takes one hold on its client, so
    that the client can no longer be destroyed; the other files are
    untouched.  [RemoveFile] of that index gives the file back, restores
    the open-file table and the client registry as they were, and records
    the index as closed; a second [RemoveFile] finds nothing. *)
Theorem AddFile_RemoveFile (w : Worker) (cl : gmap Z Clients.Client) (file : File)
    (index : Z) (Hfree : Files w !! index = None) :
  let '(w1, cl1, idx) := AddFile w cl file index in
  idx = index
  /\ GetFile w1 index = Some file
  /\ (forall j, j <> index -> GetFile w1 j = GetFile w j)
  /\ (forall c, cl !! Client file = Some c ->
        cl1 !! Client file = Some (Registry.AddBusy c 1)
        /\ (Clients.confirmed c = true -> 0 <= Clients.busy c ->
            Registry.RemoveClient cl1 (Client file)
            = (cl1, Some Registry.NFS4ERR_CLIENTID_BUSY)))
  /\ (exists w2,
        RemoveFile w1 cl1 index = (w2, cl, Some file)
        /\ Files w2 = Files w
        /\ ClosedFiles w2 = {[index]} ∪ ClosedFiles w
        /\ IsRemovedFile w2 index = true
        /\ RemoveFile w2 cl index = (w2, cl, None)).
Proof.
  unfold AddFile. split; [reflexivity|].
  split; [unfold GetFile; cbn [Files]; apply lookup_insert_eq|].
  split; [intros j Hj; unfold GetFile; cbn [Files]; apply lookup_insert_ne; congruence|].
  split.
  - intros c Hc. split; [rewrite lookup_alter_eq, Hc; reflexivity|].
    intros Hconf Hb. unfold Registry.RemoveClient.
    rewrite lookup_alter_eq, Hc. cbn [fmap option_fmap option_map].
    unfold Registry.AddBusy. cbn [Clients.confirmed Clients.set_busy Clients.busy].
    rewrite Hconf. cbn [negb].
    destruct (Z.gtb_spec (Clients.busy c + 1) 0); [reflexivity | lia].
  - eexists. unfold RemoveFile. cbn [Files Cache Creds SessionID ClosedFiles inUse discarded].
    rewrite lookup_insert_eq. split.
    + f_equal. f_equal.
      apply map_eq. intros k. destruct (decide (k = Client file)) as [->|Hne].
      * rewrite !lookup_alter_eq. destruct (cl !! Client file) as [c|]; [|reflexivity].
        cbn [fmap option_fmap option_map]. rewrite Done_AddBusy. reflexivity.
      * rewrite !lookup_alter_ne by congruence. reflexivity.
    + cbn [Files ClosedFiles]. rewrite delete_insert_eq.
      split; [apply delete_id, Hfree|]. split; [reflexivity|].
      split; [apply IsRemovedFile_true; cbn [ClosedFiles]; set_solver|].
      rewrite lookup_delete_eq. reflexivity.
Qed.

End WorkerFilesFacts.

Lemma AddFile_RemoveFile_witness :
  let '(w1, cl1, idx) :=
    WorkerFiles.AddFile Compound.sample_worker {[7 := Clients.sample_client true 1]}
      (Worker.mkFile None [7; 7] 7 3) 502 in
  idx = 502
  /\ Worker.GetFile w1 502 = Some (Worker.mkFile None [7; 7] 7 3)
  /\ Registry.RemoveClient cl1 7 = (cl1, Some Registry.NFS4ERR_CLIENTID_BUSY).
Proof.
  pose proof (AddFile_RemoveFile Compound.sample_worker {[7 := Clients.sample_client true 1]}
                (Worker.mkFile None [7; 7] 7 3) 502 eq_refl) as H.
  destruct (WorkerFiles.AddFile Compound.sample_worker {[7 := Clients.sample_client true 1]}
              (Worker.mkFile None [7; 7] 7 3) 502) as [[w1 cl1] idx].
  destruct H as (H1 & H2 & _ & H4 & _).
  split; [exact H1|]. split; [exact H2|].
  apply (H4 (Clients.sample_client true 1)); [reflexivity | reflexivity | simpl; lia].
Defined.

Section CacheFacts.
Import Cache.

(** The attribute cache.  An entry put at time [t] is returned by [Get]
    as long as the clock is at most [Timeout] past [t] and no longer
    afterwards; entries of other handles are not affected; [Invalidate]
    makes the entry miss; and a collector pass never changes what [Get]
    returns at that time or later. *)
Theorem Cache_Get_Put (c : gmap (list Z) Worker.savedEntry) (Timeout : Z)
    (t now : Clock.Time) (handle : list Z) (path : string) :
  (Get (Put c t handle path) Timeout now handle = Some path <-> now - t <= Timeout)
  /\ (Get (Put c t handle path) Timeout now handle = None <-> Timeout < now - t)
  /\ (forall h, h <> handle ->
        Get (Put c t handle path) Timeout now h = Get c Timeout now h)
  /\ Get (Worker.Invalidate (Put c t handle path) handle) Timeout now handle = None
  /\ (forall h later, now <= later ->
        Get (gc c Timeout now) Timeout later h = Get c Timeout later h).
Proof.
  split; [|split; [|split; [|split]]].
  - unfold Get, Put. rewrite lookup_insert_eq. cbn [Worker.time Worker.Path].
    destruct (Z.gtb_spec (now - t) Timeout); split; intros ?; try lia; try discriminate;
      reflexivity.
  - unfold Get, Put. rewrite lookup_insert_eq. cbn [Worker.time Worker.Path].
    destruct (Z.gtb_spec (now - t) Timeout); split; intros ?; try lia; try discriminate;
      reflexivity.
  - intros h Hne. unfold Get, Put. rewrite lookup_insert_ne by congruence. reflexivity.
  - unfold Get, Worker.Invalidate. rewrite lookup_delete_eq. reflexivity.
  - intros h later Hle. unfold Get, gc.
    destruct (c !! h) as [e|] eqn:E.
    + destruct (Z.gtb_spec (now - Worker.time e) Timeout) as [Hexp|Hfresh].
      * rewrite (proj2 (map_lookup_filter_None _ c h)).
        -- destruct (Z.gtb_spec (later - Worker.time e) Timeout); [reflexivity | lia].
        -- right. intros e' He'. rewrite E in He'. injection He' as <-. cbn [snd].
           destruct (Z.gtb_spec (now - Worker.time e) Timeout); [discriminate | lia].
      * rewrite (proj2 (map_lookup_filter_Some _ c h e)); [reflexivity|].
        split; [exact E|]. cbn [snd].
        destruct (Z.gtb_spec (now - Worker.time e) Timeout); [lia | reflexivity].
    + rewrite (proj2 (map_lookup_filter_None _ c h)); [reflexivity|]. left. exact E.
Qed.

End CacheFacts.

(** ** Record marking *)

Section RpcFacts.
Import Rpc.

Lemma DecodeCall_wire (h : RPCMsgCall) (rest : list Z) :
  call_in_range h -> DecodeCall (Xdr.wire_all (call_values h) ++ rest) = Some (h, rest).
Proof.
  intros Hh. unfold DecodeCall.
  pose proof (DecodeAll_wire_all (call_values h) rest Hh) as E.
  cbn [call_values map Decoder.target_of] in E. rewrite E.
  destruct h as [xid ty ver prog vers proc [cf cb] [vf vb]]. reflexivity.
Qed.

Lemma marker_bit (n : Z) :
  0 <= n < 2 ^ 31 ->
  (Z.land (2 ^ 31 + n) (Z.shiftl 1 31) =? 0) = false
  /\ Z.shiftr (u32 (Z.shiftl (2 ^ 31 + n) 1)) 1 = n.
Proof.
  intros Hn. split.
  - apply Z.eqb_neq. intros E.
    assert (X : Z.testbit (Z.land (2 ^ 31 + n) (Z.shiftl 1 31)) 31 = false)
      by (rewrite E; apply Z.testbit_0_l).
    rewrite Z.land_spec, Z.shiftl_1_l, Z.pow2_bits_true, andb_true_r in X by lia.
    apply Z.testbit_false in X; [|lia].
    replace ((2 ^ 31 + n) / 2 ^ 31) with 1 in X; [discriminate X|].
    apply Z.div_unique with (r := n); lia.
  - rewrite Z.shiftl_mul_pow2, Z.shiftr_div_pow2 by lia. unfold u32.
    replace ((2 ^ 31 + n) * 2 ^ 1) with (2 * n + 1 * 2 ^ 32) by lia.
    rewrite Z.mod_add by lia. rewrite Z.mod_small by lia.
    change (2 ^ 1) with 2. rewrite Z.mul_comm, Z.div_mul by lia. reflexivity.
Qed.

Lemma fill_Bytes (pooled : Bufpool.Buf) (n : nat) (p : list Z) :
  Bufpool.from_pool pooled -> length p = n ->
  Bufpool.Bytes (fill (Bufpool.Allocate pooled n) p) = p.
Proof.
  intros [Hr Hw] Hlen. unfold fill, Bufpool.Allocate, Bufpool.Grow, Bufpool.Commit.
  rewrite Hw. cbn [Nat.add].
  destruct (length (Bufpool.buf pooled) <? n)%nat eqn:E1.
  - destruct (n <=? length (Bufpool.buf pooled))%nat eqn:E2;
      [apply Nat.ltb_lt in E1; apply Nat.leb_le in E2; lia|].
    cbn [Bufpool.buf Bufpool.r Bufpool.w]. unfold Bufpool.Bytes.
    cbn [Bufpool.buf Bufpool.r Bufpool.w]. rewrite Hr, take_0. cbn [app Nat.add drop].
    rewrite take_app_length. reflexivity.
  - unfold Bufpool.Bytes. cbn [Bufpool.buf Bufpool.r Bufpool.w].
    rewrite Hr, Hw, take_0. cbn [app Nat.add drop]. rewrite take_app_length. reflexivity.
Qed.

(** Record marking.  [ReceiveCall] refuses a record whose marker lacks the
    last-fragment bit.  From a record whose marker carries the bit and
    the size of header plus payload it returns the header and exactly
    the payload, leaving the bytes of the next record in the stream.
    When the size in the marker is smaller than the call header that
    follows, the length handed to [Allocate] is negative and the call
    panics.  [SendReply] writes records of this form: the marker with the
    bit and the size 12 plus the payload length, the three words of the
    reply, and the payload. *)
Theorem ReceiveCall_record (h : RPCMsgCall) (payload more : list Z) (pooled : Bufpool.Buf)
    (Hh : call_in_range h) (Hcall : MsgType h = RPC_CALL)
    (Hpool : Bufpool.from_pool pooled) :
  let hlen := Z.of_nat (length (Xdr.wire_all (call_values h))) in
  (forall n, 0 <= n < 2 ^ 31 ->
     ReceiveCall (Xdr.be32 n ++ Xdr.wire_all (call_values h) ++ payload ++ more) pooled
     = Failed)
  /\ (hlen + Z.of_nat (length payload) < 2 ^ 31 ->
      exists data,
        ReceiveCall (record (hlen + Z.of_nat (length payload)) h (payload ++ more)) pooled
        = Received h data more
        /\ Bufpool.Bytes data = payload)
  /\ (forall n, 0 <= n < hlen -> n < 2 ^ 31 ->
        ReceiveCall (record n h (payload ++ more)) pooled = Panic)
  /\ (forall reply data,
        12 + Z.of_nat (length (Bufpool.Bytes data)) < 2 ^ 31 ->
        SendReply reply data
        = Xdr.be32 (2 ^ 31 + (12 + Z.of_nat (length (Bufpool.Bytes data))))
          ++ (Xdr.be32 (ReplyXid reply) ++ Xdr.be32 (ReplyMsgType reply)
              ++ Xdr.be32 (ReplyStat reply))
          ++ Bufpool.Bytes data).
Proof.
  cbv zeta.
  assert (Hsize : forall rest : list Z,
            Z.of_nat (length (Xdr.wire_all (call_values h) ++ rest) - length rest)
            = Z.of_nat (length (Xdr.wire_all (call_values h)))).
  { intros rest. rewrite length_app. f_equal. lia. }
  split; [|split; [|split]].
  - intros n Hn. unfold ReceiveCall.
    rewrite Uint32_be32 by (unfold is_u32; lia).
    assert (E : Z.land n (Z.shiftl 1 31) = 0).
    { apply Z.bits_inj'. intros k Hk. rewrite Z.land_spec, Z.shiftl_1_l, Z.testbit_0_l.
      destruct (Z.eq_dec k 31) as [->|Hne].
      - rewrite (Z.bits_above_log2 n 31); [reflexivity | lia|].
        destruct (Z.eq_dec n 0) as [->|]; [cbn; lia|]. apply Z.log2_lt_pow2; lia.
      - rewrite Z.pow2_bits_false by lia. apply andb_false_r. }
    rewrite E. reflexivity.
  - intros Hlt. unfold ReceiveCall, record.
    set (hw := Xdr.wire_all (call_values h)) in *.
    pose proof (Zle_0_nat (length hw)). pose proof (Zle_0_nat (length payload)).
    rewrite Uint32_be32 by (unfold is_u32; lia).
    destruct (marker_bit (Z.of_nat (length hw) + Z.of_nat (length payload))) as [Hbit Hhs];
      [lia|].
    rewrite Hbit, Hhs. unfold hw at 1. rewrite DecodeCall_wire by exact Hh. fold hw.
    cbv zeta. rewrite Hsize, Hcall. cbn [negb Z.eqb RPC_CALL].
    replace (Z.of_nat (length hw) + Z.of_nat (length payload) - Z.of_nat (length hw))
      with (Z.of_nat (length payload)) by lia.
    destruct (Z.ltb_spec (Z.of_nat (length payload)) 0); [lia|].
    rewrite Nat2Z.id, length_app.
    destruct (Nat.ltb_spec (length payload + length more) (length payload)); [lia|].
    rewrite take_app_length, drop_app_length.
    eexists. split; [reflexivity|]. apply fill_Bytes; [exact Hpool | reflexivity].
  - intros n Hn Hn31. unfold ReceiveCall, record.
    rewrite Uint32_be32 by (unfold is_u32; lia).
    destruct (marker_bit n) as [Hbit Hhs]; [lia|].
    rewrite Hbit, Hhs. rewrite DecodeCall_wire by exact Hh.
    cbv zeta. rewrite Hsize, Hcall. cbn [negb Z.eqb RPC_CALL].
    destruct (Z.ltb_spec (n - Z.of_nat (length (Xdr.wire_all (call_values h)))) 0);
      [reflexivity | lia].
  - intros reply data Hlen. unfold SendReply. cbv zeta.
    pose proof (Zle_0_nat (length (Bufpool.Bytes data))).
    rewrite u32_id by (unfold is_u32; lia).
    rewrite Z.shiftl_1_l. rewrite (u32_id (2 ^ 31)) by (unfold is_u32; lia).
    set (n := 12 + Z.of_nat (length (Bufpool.Bytes data))) in *.
    assert (Hland : Z.land n (2 ^ 31) = 0).
    { apply Z.bits_inj'. intros k Hk. rewrite Z.land_spec, Z.testbit_0_l.
      destruct (Z.eq_dec k 31) as [->|Hne].
      - rewrite (Z.bits_above_log2 n 31); [reflexivity | lia|].
        apply Z.log2_lt_pow2; lia.
      - rewrite Z.pow2_bits_false by lia. apply andb_false_r. }
    rewrite <- (Z.lxor_lor n (2 ^ 31) Hland), <- (Z.add_nocarry_lxor n (2 ^ 31) Hland).
    rewrite (Z.add_comm n). reflexivity.
Qed.

End RpcFacts.

Lemma ReceiveCall_record_witness :
  Rpc.ReceiveCall
    (Rpc.record 8 (Rpc.mkRPCMsgCall 1 0 2 100003 4 1 (Msg.mkAuth 0 []) (Msg.mkAuth 0 []))
       ([1; 2; 3; 4] ++ [])) Bufpool.fresh
  = Rpc.Panic.
Proof.
  refine (proj1 (proj2 (proj2 (ReceiveCall_record
            (Rpc.mkRPCMsgCall 1 0 2 100003 4 1 (Msg.mkAuth 0 []) (Msg.mkAuth 0 []))
            [1; 2; 3; 4] [] Bufpool.fresh _ _ _))) 8 _ _).
  - repeat constructor; unfold is_u32; simpl; lia.
  - reflexivity.
  - split; reflexivity.
  - simpl. lia.
  - lia.
Defined.

(** ** ACCESS *)

Section AccessFacts.
Import Access.

Lemma land_pow2_testbit (x k : Z) :
  0 <= k -> Z.land x (2 ^ k) = if Z.testbit x k then 2 ^ k else 0.
Proof.
  intros Hk. apply Z.bits_inj'. intros i Hi. rewrite Z.land_spec.
  destruct (Z.eq_dec i k) as [->|Hne].
  - rewrite Z.pow2_bits_true by lia. rewrite andb_true_r.
    destruct (Z.testbit x k) eqn:E; [rewrite Z.pow2_bits_true by lia; reflexivity|].
    rewrite Z.testbit_0_l. reflexivity.
  - rewrite Z.pow2_bits_false by lia. rewrite andb_false_r.
    destruct (Z.testbit x k); [rewrite Z.pow2_bits_false by lia; reflexivity|].
    rewrite Z.testbit_0_l. reflexivity.
Qed.

Lemma perm_bit (mode k : Z) :
  0 <= k < 3 ->
  (Z.land (Z.land (Z.shiftr mode 6) 7) (2 ^ k) >? 0) = Z.testbit mode (k + 6).
Proof.
  intros Hk. rewrite land_pow2_testbit by lia.
  rewrite Z.land_spec, Z.shiftr_spec by lia.
  assert (H7 : Z.testbit 7 k = true).
  { assert (k = 0 \/ k = 1 \/ k = 2) as [->|[->| ->]] by lia; reflexivity. }
  rewrite H7, andb_true_r.
  destruct (Z.testbit mode (k + 6)); [|reflexivity].
  apply Z.gtb_lt. apply Z.pow_pos_nonneg; lia.
Qed.

Lemma masks_bits (mode access : Z) :
  masks mode access
  = (Z.land 511 access,
     Z.land
       (Z.lor (if Z.testbit mode 8 then 323 else 0)
          (Z.lor (if Z.testbit mode 7 then 156 else 0)
             (if Z.testbit mode 6 then 34 else 0)))
       access).
Proof.
  unfold masks. cbv zeta.
  change (Z.shiftl 1 2) with (2 ^ 2). change (Z.shiftl 1 1) with (2 ^ 1).
  change (Z.land (Z.land (Z.shiftr mode 6) 7) 1)
    with (Z.land (Z.land (Z.shiftr mode 6) 7) (2 ^ 0)).
  rewrite !perm_bit by lia.
  change (2 + 6) with 8. change (1 + 6) with 7. change (0 + 6) with 6.
  destruct (Z.testbit mode 8), (Z.testbit mode 7), (Z.testbit mode 6); reflexivity.
Qed.

Lemma small_bits (c i : Z) : 0 <= c < 512 -> 9 <= i -> Z.testbit c i = false.
Proof.
  intros Hc Hi. destruct (Z.eq_dec c 0) as [->|Hne]; [apply Z.testbit_0_l|].
  apply Z.bits_above_log2; [lia|].
  assert (Z.log2 c < 9); [apply Z.log2_lt_pow2; lia | lia].
Qed.

Lemma owner_allows_high (mode i : Z) : 9 <= i -> owner_allows mode i = false.
Proof.
  intros Hi. unfold owner_allows. cbv zeta.
  repeat match goal with
         | |- context [?a =? ?b] =>
             destruct (Z.eqb_spec a b); [lia|]
         end.
  reflexivity.
Qed.

(** The answer of ACCESS.  The supported rights are the requested ones
    among the nine rights the server knows (bits 0 to 8).  A right is
    granted exactly when it is requested and the owner permission bits
    of the file mode allow it: READ, XAREAD and XALIST need the read bit,
    MODIFY, EXTEND, DELETE and XAWRITE the write bit, EXECUTE the execute
    bit, LOOKUP the read or the execute bit.  Every granted right is
    supported, and nothing but the three owner bits of the mode has an
    influence: group and other bits and the file type are ignored. *)
Theorem Access_masks (mode access : Z) :
  (forall i, 0 <= i ->
     Z.testbit (fst (masks mode access)) i = Z.testbit access i && (i <=? 8))
  /\ (forall i, 0 <= i ->
        Z.testbit (snd (masks mode access)) i
        = Z.testbit access i && owner_allows mode i)
  /\ Z.land (snd (masks mode access)) (fst (masks mode access)) = snd (masks mode access)
  /\ (forall mode', Z.land mode' 448 = Z.land mode 448 ->
        masks mode' access = masks mode access)
  /\ (Z.land mode 448 = 0 -> snd (masks mode access) = 0).
Proof.
  assert (Hsup : forall i, 0 <= i ->
            Z.testbit (fst (masks mode access)) i = Z.testbit access i && (i <=? 8)).
  { intros i Hi. rewrite masks_bits. cbn [fst]. rewrite Z.land_spec, andb_comm. f_equal.
    destruct (Z.leb_spec i 8).
    - assert (i = 0 \/ i = 1 \/ i = 2 \/ i = 3 \/ i = 4 \/ i = 5 \/ i = 6 \/ i = 7 \/ i = 8)
        as Hc by lia.
      repeat (destruct Hc as [->|Hc]; [reflexivity|]). subst i. reflexivity.
    - apply small_bits; lia. }
  assert (Hacc : forall i, 0 <= i ->
            Z.testbit (snd (masks mode access)) i
            = Z.testbit access i && owner_allows mode i).
  { intros i Hi. rewrite masks_bits. cbn [snd]. rewrite Z.land_spec, andb_comm. f_equal.
    destruct (Z.leb_spec i 8).
    - assert (i = 0 \/ i = 1 \/ i = 2 \/ i = 3 \/ i = 4 \/ i = 5 \/ i = 6 \/ i = 7 \/ i = 8)
        as Hc by lia.
      unfold owner_allows. cbv zeta.
      destruct (Z.testbit mode 8), (Z.testbit mode 7), (Z.testbit mode 6);
        repeat (destruct Hc as [->|Hc]; [reflexivity|]); subst i; reflexivity.
    - rewrite owner_allows_high by lia. apply small_bits; [|lia].
      destruct (Z.testbit mode 8), (Z.testbit mode 7), (Z.testbit mode 6);
        (split; [apply Z.leb_le | apply Z.ltb_lt]; reflexivity). }
  assert (Hbits : forall m m' k, 6 <= k <= 8 -> Z.land m' 448 = Z.land m 448 ->
            Z.testbit m' k = Z.testbit m k).
  { intros m m' k Hk Heq.
    assert (E : Z.testbit (Z.land m' 448) k = Z.testbit (Z.land m 448) k) by (rewrite Heq; reflexivity).
    rewrite !Z.land_spec in E.
    assert (H448 : Z.testbit 448 k = true).
    { assert (k = 6 \/ k = 7 \/ k = 8) as [->|[->| ->]] by lia; reflexivity. }
    rewrite H448, !andb_true_r in E. exact E. }
  split; [exact Hsup|]. split; [exact Hacc|]. split; [|split].
  - apply Z.bits_inj'. intros i Hi. rewrite Z.land_spec, Hacc, Hsup by lia.
    destruct (Z.leb_spec i 8).
    + destruct (Z.testbit access i), (owner_allows mode i); reflexivity.
    + rewrite owner_allows_high by lia. rewrite !andb_false_r. reflexivity.
  - intros mode' Heq. rewrite !masks_bits.
    rewrite (Hbits mode mode' 8), (Hbits mode mode' 7), (Hbits mode mode' 6) by (lia || exact Heq).
    reflexivity.
  - intros H0. rewrite masks_bits. cbn [snd].
    assert (E : forall k, 6 <= k <= 8 -> Z.testbit mode k = false).
    { intros k Hk. rewrite (Hbits 0 mode k Hk); [apply Z.testbit_0_l|].
      rewrite H0. reflexivity. }
    rewrite !E by lia. reflexivity.
Qed.

End AccessFacts.

(** ** The [fileid] attribute *)

Section FileIdFacts.
Import FileIdAttr.

Lemma LE_range (bs : list Z) :
  Forall Decoder.is_byte bs -> 0 <= foldr (fun b acc => b + 256 * acc) 0 bs
                               < 256 ^ Z.of_nat (length bs).
Proof.
  induction 1 as [|b bs Hb _ IH]; [cbn; lia|].
  cbn [foldr length]. rewrite Nat2Z.inj_succ, Z.pow_succ_r by lia.
  unfold Decoder.is_byte in Hb. nia.
Qed.

Lemma LittleEndianUint64_range (bs : list Z) :
  Forall Decoder.is_byte bs -> 0 <= LittleEndianUint64 bs < 2 ^ 64.
Proof.
  intros Hb. unfold LittleEndianUint64.
  pose proof (LE_range (take 8 bs) ltac:(apply Forall_take, Hb)) as H.
  assert (Hl : (length (take 8 bs) <= 8)%nat) by (rewrite length_take; lia).
  assert (256 ^ Z.of_nat (length (take 8 bs)) <= 256 ^ 8).
  { apply Z.pow_le_mono_r; lia. }
  change (256 ^ 8) with (2 ^ 64) in *. lia.
Qed.

Lemma LE_zeros (bs : list Z) (k : nat) :
  foldr (fun b acc => b + 256 * acc) 0 (bs ++ replicate k 0)
  = foldr (fun b acc => b + 256 * acc) 0 bs.
Proof.
  induction bs as [|b bs IH]; cbn [app foldr].
  - induction k as [|k IHk]; cbn [replicate foldr]; [reflexivity | lia].
  - rewrite IH. reflexivity.
Qed.

Lemma scan_nonzero (n : nat) (window : list Z) (f : Z) :
  f <> 0 -> scan n window f = f.
Proof.
  intros Hf. destruct n as [|n]; [reflexivity|]. cbn [scan].
  destruct (Z.eqb_spec f 0); [contradiction | reflexivity].
Qed.

Lemma scan_range (n : nat) : forall (window : list Z) (f : Z),
  Forall Decoder.is_byte window -> 0 <= f < 2 ^ 64 -> 0 <= scan n window f < 2 ^ 64.
Proof.
  induction n as [|n IH]; intros window f Hw Hf; [exact Hf|]. cbn [scan].
  destruct ((f =? 0) && (8 <=? length window)%nat); [|exact Hf].
  apply IH; [apply Forall_take, Hw|].
  apply LittleEndianUint64_range, Forall_drop, Hw.
Qed.

Lemma scan_first (n : nat) (window : list Z) :
  (8 <= length window)%nat ->
  LittleEndianUint64 (drop (length window - 8) window) <> 0 ->
  scan (S n) window 0 = LittleEndianUint64 (drop (length window - 8) window).
Proof.
  intros Hl Hnz. cbn [scan]. change (0 =? 0) with true.
  destruct (Nat.leb_spec 8 (length window)); [|lia]. cbn [andb].
  apply scan_nonzero, Hnz.
Qed.

Lemma scan_trailing (k : nat) : forall (n : nat) (pre : list Z) (b : Z),
  b <> 0 -> (k + 1 <= n)%nat ->
  scan n (pre ++ b :: replicate (7 + k) 0) 0 = b.
Proof.
  induction k as [|k IH]; intros n pre b Hb Hn.
  - destruct n as [|n]; [lia|]. rewrite scan_first.
    + rewrite length_app. cbn [length]. rewrite length_replicate.
      replace (length pre + S (7 + 0) - 8)%nat with (length pre) by lia.
      rewrite drop_app_length. unfold LittleEndianUint64. cbn. lia.
    + rewrite length_app. cbn [length]. rewrite length_replicate. lia.
    + rewrite length_app. cbn [length]. rewrite length_replicate.
      replace (length pre + S (7 + 0) - 8)%nat with (length pre) by lia.
      rewrite drop_app_length. unfold LittleEndianUint64. cbn. lia.
  - destruct n as [|n]; [lia|]. cbn [scan]. change (0 =? 0) with true.
    assert (Hlen : length (pre ++ b :: replicate (7 + S k) 0) = (length pre + 9 + k)%nat).
    { rewrite length_app. cbn [length]. rewrite length_replicate. lia. }
    rewrite Hlen.
    destruct (Nat.leb_spec 8 (length pre + 9 + k)); [|lia]. cbn [andb].
    assert (Hd : drop (length pre + 9 + k - 8) (pre ++ b :: replicate (7 + S k) 0)
                 = replicate 8 0).
    { replace (length pre + 9 + k - 8)%nat with (length pre + (1 + k))%nat by lia.
      rewrite <- drop_drop, drop_app_length.
      change (b :: replicate (7 + S k) 0) with ([b] ++ replicate (7 + S k) 0).
      replace (1 + k)%nat with (length [b] + k)%nat by reflexivity.
      rewrite <- drop_drop, drop_app_length, drop_replicate. f_equal. lia. }
    rewrite Hd. change (LittleEndianUint64 (replicate 8 0)) with 0.
    assert (Ht : take (length pre + 9 + k - 1) (pre ++ b :: replicate (7 + S k) 0)
                 = pre ++ b :: replicate (7 + k) 0).
    { replace (length pre + 9 + k - 1)%nat with (length pre + S (7 + k))%nat by lia.
      rewrite take_app_add. cbn [take]. rewrite take_replicate. do 3 f_equal. lia. }
    rewrite Ht. apply IH; [exact Hb | lia].
Qed.

Lemma scan_zeros (n : nat) : forall m : nat, scan n (replicate m 0) 0 = 0.
Proof.
  induction n as [|n IH]; intros m; [reflexivity|]. cbn [scan].
  change (0 =? 0) with true. cbn [andb].
  destruct (8 <=? _)%nat; [|reflexivity].
  rewrite drop_replicate, take_replicate.
  assert (E : forall j, LittleEndianUint64 (replicate j 0) = 0).
  { intros j. unfold LittleEndianUint64. rewrite take_replicate.
    generalize (Nat.min 8 j). intros i. induction i as [|i IHi]; cbn [replicate foldr]; lia. }
  rewrite E. apply IH.
Qed.

(** The file id reported for a filehandle is never 0 and fits 64 bits.
    It is the little-endian number in the last eight bytes of the handle
    (the handle itself, when it is shorter) whenever that number is not
    0.  A handle of zero bytes only, or the empty handle, gets 2^64 - 1.
    A handle that ends in seven or more zero bytes gets the value of its
    last non-zero byte, whatever precedes that byte: all such handles
    share at most 255 file ids. *)
Theorem fileid_spec (fh : list Z) (Hb : Forall Decoder.is_byte fh) :
  1 <= fileid fh < 2 ^ 64
  /\ ((8 <= length fh)%nat ->
      LittleEndianUint64 (drop (length fh - 8) fh) <> 0 ->
      fileid fh = LittleEndianUint64 (drop (length fh - 8) fh))
  /\ ((length fh < 8)%nat -> LittleEndianUint64 fh <> 0 ->
      fileid fh = LittleEndianUint64 fh)
  /\ ((forall b, In b fh -> b = 0) -> fileid fh = 2 ^ 64 - 1)
  /\ (forall pre b k, fh = pre ++ b :: replicate (7 + k) 0 -> b <> 0 ->
        fileid fh = b).
Proof.
  split; [|split; [|split; [|split]]].
  - unfold fileid. cbv zeta.
    set (window := if (length fh <? 8)%nat then _ else _).
    assert (Hw : Forall Decoder.is_byte window).
    { unfold window. destruct (length fh <? 8)%nat; [|exact Hb].
      apply Forall_app. split; [exact Hb|]. apply Forall_replicate.
      unfold Decoder.is_byte. lia. }
    pose proof (scan_range (length window) window 0 Hw ltac:(lia)) as Hr.
    destruct (Z.eqb_spec (scan (length window) window 0) 0) as [E|E].
    + rewrite E. change (u64 (0 - 1)) with (2 ^ 64 - 1). lia.
    + lia.
  - intros Hl Hnz. unfold fileid. cbv zeta.
    destruct (Nat.ltb_spec (length fh) 8); [lia|].
    destruct (length fh) as [|n] eqn:En; [lia|]. rewrite <- En at 2 3.
    rewrite scan_first by (rewrite ?En; lia || (rewrite <- En in Hnz; exact Hnz)).
    rewrite <- En in Hnz.
    destruct (Z.eqb_spec (LittleEndianUint64 (drop (length fh - 8) fh)) 0);
      [contradiction | reflexivity].
  - intros Hl Hnz. unfold fileid. cbv zeta.
    destruct (Nat.ltb_spec (length fh) 8); [|lia].
    assert (Hlen : length (fh ++ replicate (8 - length fh) 0) = 8%nat).
    { rewrite length_app, length_replicate. lia. }
    assert (Hle : LittleEndianUint64 (fh ++ replicate (8 - length fh) 0)
                  = LittleEndianUint64 fh).
    { unfold LittleEndianUint64. rewrite (take_ge fh) by lia.
      rewrite take_ge by lia. apply LE_zeros. }
    rewrite Hlen. rewrite scan_first; rewrite ?Hlen; change (8 - 8)%nat with 0%nat;
      rewrite ?drop_0, ?Hle; try lia; try exact Hnz.
    destruct (Z.eqb_spec (LittleEndianUint64 fh) 0); [contradiction | reflexivity].
  - intros Hz. unfold fileid. cbv zeta.
    assert (E : fh = replicate (length fh) 0).
    { clear Hb. induction fh as [|b fh IH]; [reflexivity|]. cbn [length replicate].
      rewrite (Hz b) by (left; reflexivity). f_equal. apply IH.
      intros b' Hin. apply Hz. right. exact Hin. }
    set (window := if (length fh <? 8)%nat then _ else _).
    assert (Hw : exists m, window = replicate m 0).
    { unfold window. destruct (length fh <? 8)%nat.
      - exists (length fh + (8 - length fh))%nat. rewrite E at 1.
        rewrite <- replicate_add. reflexivity.
      - exists (length fh). exact E. }
    destruct Hw as [m ->]. rewrite scan_zeros. reflexivity.
  - intros pre b k -> Hnz. unfold fileid. cbv zeta.
    assert (Hlen : length (pre ++ b :: replicate (7 + k) 0) = (length pre + 8 + k)%nat).
    { rewrite length_app. cbn [length]. rewrite length_replicate. lia. }
    rewrite Hlen. destruct (Nat.ltb_spec (length pre + 8 + k) 8); [lia|].
    rewrite scan_trailing by lia.
    destruct (Z.eqb_spec b 0); [contradiction | reflexivity].
Qed.

End FileIdFacts.

Lemma fileid_spec_witness :
  FileIdAttr.fileid [7; 9; 5; 0; 0; 0; 0; 0; 0; 0; 0] = 5.
Proof.
  refine (proj2 (proj2 (proj2 (proj2 (fileid_spec [7; 9; 5; 0; 0; 0; 0; 0; 0; 0; 0] _))))
            [7; 9] 5 1%nat _ _).
  - repeat constructor; unfold Decoder.is_byte; lia.
  - reflexivity.
  - lia.
Defined.

(** ** RENEW and the lease *)

Section RenewFacts.
Import Compound Renewal.

Lemma kept_by_sweep (x : gmap Z Clients.Client) (t : Clock.Time) (expiration : Z)
    (i : Z) (c : Clients.Client) :
  x !! i = Some c -> Registry.alive t expiration c = true ->
  fst (Registry.RemoveExpiredClients x t expiration) !! i = Some c.
Proof.
  intros Hc Ha.
  assert (Hnot : ~ i ∈ snd (Registry.RemoveExpiredClients x t expiration)).
  { intros Hin. apply removed_spec in Hin as (c' & Hc' & Hd). congruence. }
  unfold Registry.RemoveExpiredClients in *. cbv zeta in *. cbn [fst snd] in *.
  rewrite foldl_delete_lookup. destruct (decide _) as [Hin|_]; [contradiction | exact Hc].
Qed.

(** RENEW.  In a v4.0 request the answer is EXPIRED exactly when the
    client id is unknown or unconfirmed, and the registry is then
    unchanged.  For a confirmed client the answer is OK when the
    credentials of the request are Equal to the client's and ACCESS when
    they are not, and in both cases the client's last-seen time is set to
    the current time, so that no sweep up to the expiration later removes
    it.  In a v4.1 or v4.2 request nothing is decoded or changed and the
    result is OP_ILLEGAL, a fatal status, under the operation code of
    SETCLIENTID. *)
Theorem Renew_lease {World : Type} (now : Clock.Time) (s : State World)
    (ClientId : Z) (rest : list Z)
    (Hid : is_u64 ClientId) (Hin : st_in s = Xdr.be64 ClientId ++ rest) :
  (MinorVer (st_x s) > 0 ->
   exists h, Renew now s = Some h
     /\ h_res _ h = mkOpResult Msg.OP4_SETCLIENTID Msg.NFS4ERR_OP_ILLEGAL []
     /\ fatal (res_status (h_res _ h)) = true
     /\ h_clients _ h = st_clients s /\ h_in _ h = st_in s)
  /\ (MinorVer (st_x s) = 0 ->
      exists h, Renew now s = Some h
        /\ res_op (h_res _ h) = Msg.OP4_RENEW /\ res_data (h_res _ h) = []
        /\ h_in _ h = rest
        /\ h_current _ h = CurrentHandle (st_x s) /\ h_saved _ h = SavedHandle (st_x s)
        /\ match st_clients s !! ClientId with
           | Some c =>
               if Clients.confirmed c then
                 res_status (h_res _ h)
                 = (if Auth.Equal (Clients.Creds c) (Creds (st_x s))
                    then Msg.NFS4_OK else NFS4ERR_ACCESS)
                 /\ h_clients _ h
                    = <[ClientId := Clients.set_lastSeen c now]> (st_clients s)
                 /\ (forall t expiration, t - now <= expiration ->
                       fst (Registry.RemoveExpiredClients (h_clients _ h) t expiration)
                         !! ClientId
                       = Some (Clients.set_lastSeen c now))
               else
                 res_status (h_res _ h) = NFS4ERR_EXPIRED
                 /\ h_clients _ h = st_clients s
           | None =>
               res_status (h_res _ h) = NFS4ERR_EXPIRED
               /\ h_clients _ h = st_clients s
           end).
Proof.
  split.
  - intros Hv. unfold Renew. cbv zeta.
    destruct (Z.gtb_spec (MinorVer (st_x s)) 0) as [_|Hle]; [|lia].
    eexists. split; [reflexivity|]. cbn. repeat split; reflexivity.
  - intros Hv. unfold Renew. cbv zeta. rewrite Hv. change (0 >? 0) with false. cbv iota.
    rewrite Hin, Uint64_be64 by exact Hid. unfold Clients.Get.
    destruct (st_clients s !! ClientId) as [c|] eqn:Ec.
    + destruct (Clients.confirmed c) eqn:Econf; cbn [negb].
      * assert (Hcreds : Clients.Creds (Clients.set_lastSeen c now) = Clients.Creds c)
          by (destruct c; reflexivity).
        cbv zeta. rewrite Hcreds.
        destruct (Auth.Equal (Clients.Creds c) (Creds (st_x s))); cbn [negb];
          (eexists; split; [reflexivity|]; cbn;
           repeat (split; [reflexivity|]);
           intros t expiration Ht; apply kept_by_sweep;
           [apply lookup_insert_eq|];
           unfold Registry.alive; destruct c; cbn;
           apply orb_true_iff; left; apply Z.leb_le; lia).
      * eexists. split; [reflexivity|]. cbn. repeat split; reflexivity.
    + eexists. split; [reflexivity|]. cbn. repeat split; reflexivity.
Qed.

End RenewFacts.

Lemma Renew_lease_witness :
  exists h, Renewal.Renew 100 (Renewal.sample_renew_request (Auth.mkCreds 0 "host" 0 0 []))
            = Some h
    /\ Compound.res_status (Compound.h_res _ h) = Renewal.NFS4ERR_ACCESS
    /\ Compound.h_clients _ h !! 7 = Some (Clients.set_lastSeen (Clients.sample_client true 1) 100).
Proof.
  destruct (proj2 (Renew_lease 100
              (Renewal.sample_renew_request (Auth.mkCreds 0 "host" 0 0 [])) 7 []
              ltac:(unfold is_u64; lia) eq_refl) eq_refl)
    as (h & Hr & _ & _ & _ & _ & _ & Hm).
  exists h. split; [exact Hr|].
  change (Compound.st_clients (Renewal.sample_renew_request (Auth.mkCreds 0 "host" 0 0 []))
            !! 7)
    with (Some (Clients.sample_client true 1)) in Hm.
  cbn [Clients.confirmed Clients.sample_client] in Hm.
  destruct Hm as (Hs & Hc & _). split.
  - rewrite Hs. reflexivity.
  - rewrite Hc. apply lookup_insert_eq.
Defined.

(** ** The procedures of the NFSv4 program *)

Section MuxFacts.
Import Mux.

Variable World : Type.
Variable handler : Z -> Compound.State World -> option (Compound.HandlerOut World).
Variable now : Clock.Time.

Lemma Bytes_EncodeAll_Reset (vs : list Xdr.value) (data : Bufpool.Buf) :
  Bufpool.Bytes (Xdr.EncodeAll vs (Bufpool.Reset data)) = Xdr.wire_all vs.
Proof.
  assert (Hp : Bufpool.from_pool (Bufpool.Reset data)) by (split; reflexivity).
  destruct (from_pool_inside _ Hp) as [Hi Hu].
  rewrite EncodeAll_Write by exact Hi. rewrite Bytes_Write by assumption.
  rewrite Bytes_from_pool by exact Hp. reflexivity.
Qed.

Lemma Bytes_EncodeAll_pool (vs : list Xdr.value) (pooled : Bufpool.Buf) :
  Bufpool.from_pool pooled -> Bufpool.Bytes (Xdr.EncodeAll vs pooled) = Xdr.wire_all vs.
Proof.
  intros Hp. destruct (from_pool_inside _ Hp) as [Hi Hu].
  rewrite EncodeAll_Write by exact Hi. rewrite Bytes_Write by assumption.
  rewrite Bytes_from_pool by exact Hp. reflexivity.
Qed.

Lemma decode_compound_args (tag : list Z) (minorVer opsCnt : Z) (ops : list Z) :
  is_u32 (Z.of_nat (length tag)) -> is_u32 minorVer -> is_u32 opsCnt ->
  Decoder.String (compound_args tag minorVer opsCnt ops)
  = Some (tag, Xdr.be32 minorVer ++ Xdr.be32 opsCnt ++ ops).
Proof.
  intros Ht Hm Ho. unfold compound_args, Xdr.wire_all, Decoder.String.
  cbn [map concat Xdr.wire]. rewrite app_nil_r, <- !app_assoc.
  apply Bytes_wire_bytes, Ht.
Qed.


End MuxFacts.

